(** * The Redis caching layer of the travel-itinerary API

    A shallow embedding of [src/config/redis.js] (the cache functions) and
    of the itinerary controller's handlers that call them, together with
    the parts of the JavaScript runtime and of the Redis server these
    functions rely on: [JSON.stringify], [JSON.parse],
    [Buffer.from(s).toString('base64')] and the glob matching of [KEYS].

    Sources: [src/config/redis.js] (module [Redis]),
    [src/controllers/itineraryController.js] and its copy
    [src/unnamed/part_000] (module [Controller]), [src/models/Itinerary.js]
    (class [ItineraryModel]).  The node-redis client and the Mongoose
    model are interfaces; [MemRedis] and [MemMongo] implement them in
    memory. *)

From Stdlib Require Import ZArith Lia Bool List Ascii String Decimal DecimalPos DecimalZ.
From stdpp Require Import base option gmap strings list fin_maps.

Set Warnings "-register-all".
Local Open Scope string_scope.
Local Open Scope Z_scope.

(** ** JavaScript values

    The values the cache functions receive and return.  A string is a
    sequence of code units below 256 (the Latin-1 part of a JavaScript
    string), a number is an integer (the model stands for the safe
    integers), and an object is its list of own enumerable properties in
    enumeration order, which for keys that are not array indices is the
    order of insertion.  Values are trees of plain data: no cycle, no
    [toJSON] method, no [BigInt], so that [JSON.stringify] does not
    throw on them.  An identifier ([userId], [itineraryId], a key) is
    the string a template literal makes of it. *)

Inductive value : Type :=
| VUndefined
| VNull
| VBool (b : bool)
| VNum (n : Z)
| VStr (s : string)
| VArr (elements : list value)
| VObj (properties : list (string * value)).

Module JSON.

(** *** Strings of characters *)

Definition hex_digit (n : N) : ascii :=
  match n with
  | 0 => "0" | 1 => "1" | 2 => "2" | 3 => "3" | 4 => "4" | 5 => "5"
  | 6 => "6" | 7 => "7" | 8 => "8" | 9 => "9" | 10 => "a" | 11 => "b"
  | 12 => "c" | 13 => "d" | 14 => "e" | _ => "f"
  end%N%char.

(** The value of a hexadecimal digit, in either case. *)
Definition hex_value (c : ascii) : option N :=
  let n := N_of_ascii c in
  if ((48 <=? n) && (n <=? 57))%N then Some (n - 48)%N
  else if ((97 <=? n) && (n <=? 102))%N then Some (n - 87)%N
  else if ((65 <=? n) && (n <=? 70))%N then Some (n - 55)%N
  else None.

(** The escape of one code unit in [QuoteJSONString]: the two-character
    escapes of the table, [\u00xx] for the other control characters, the
    character itself otherwise. *)
Definition quote_char (c : ascii) : string :=
  match c with
  | "008"%char => "\b"
  | "009"%char => "\t"
  | "010"%char => "\n"
  | "012"%char => "\f"
  | "013"%char => "\r"
  | "034"%char => String "\" (String "034" "")
  | "\"%char => "\\"
  | _ =>
      let n := N_of_ascii c in
      if (n <? 32)%N
      then String "\" (String "u" (String "0" (String "0"
             (String (hex_digit (n / 16)) (String (hex_digit (n mod 16)) "")))))
      else String c ""
  end.

Fixpoint quote_chars (s : string) : string :=
  match s with
  | "" => ""
  | String c s' => quote_char c ++ quote_chars s'
  end.

Definition QuoteJSONString (s : string) : string :=
  String "034" (quote_chars s ++ String "034" "").

(** *** Numbers *)

Fixpoint digits_string (d : Decimal.uint) : string :=
  match d with
  | Nil => ""
  | D0 d => String "0" (digits_string d)
  | D1 d => String "1" (digits_string d)
  | D2 d => String "2" (digits_string d)
  | D3 d => String "3" (digits_string d)
  | D4 d => String "4" (digits_string d)
  | D5 d => String "5" (digits_string d)
  | D6 d => String "6" (digits_string d)
  | D7 d => String "7" (digits_string d)
  | D8 d => String "8" (digits_string d)
  | D9 d => String "9" (digits_string d)
  end.

(** [Number::toString] on an integer: its decimal digits, with a sign. *)
Definition Number_toString (n : Z) : string :=
  match Z.to_int n with
  | Decimal.Pos d => digits_string d
  | Decimal.Neg d => String "-" (digits_string d)
  end.

(** *** JSON.stringify *)

Fixpoint join (sep : string) (l : list string) : string :=
  match l with
  | [] => ""
  | [x] => x
  | x :: l' => x ++ sep ++ join sep l'
  end.

(** [SerializeJSONProperty]: [None] is the result [undefined].  An array
    element that serializes to [undefined] is written [null], a property
    whose value does is left out. *)
Fixpoint SerializeJSONProperty (v : value) : option string :=
  match v with
  | VUndefined => None
  | VNull => Some "null"
  | VBool true => Some "true"
  | VBool false => Some "false"
  | VNum n => Some (Number_toString n)
  | VStr s => Some (QuoteJSONString s)
  | VArr l =>
      let element x :=
        match SerializeJSONProperty x with Some t => t | None => "null" end in
      Some ("[" ++ join "," (List.map element l) ++ "]")
  | VObj l =>
      let member (p : string * value) :=
        match SerializeJSONProperty (snd p) with
        | Some t => [QuoteJSONString (fst p) ++ ":" ++ t]
        | None => []
        end in
      Some ("{" ++ join "," (List.flat_map member l) ++ "}")
  end.

Definition stringify (v : value) : option string := SerializeJSONProperty v.

(** *** JSON.parse

    The JSON grammar, read left to right: white space, the three literals,
    strings with their escapes, integers, arrays and objects.  [None] is
    a [SyntaxError].  Two forms lie outside the values of the model and
    are reported in the same way: a number with a fraction or an exponent,
    and a [\uXXXX] escape of a code unit above 255; [well_formed] below
    tells them from a text that is not JSON. *)

Definition is_ws (c : ascii) : bool :=
  match c with
  | " " | "009" | "010" | "013" => true
  | _ => false
  end%char.

Fixpoint skip_ws (s : string) : string :=
  match s with
  | String c s' => if is_ws c then skip_ws s' else s
  | "" => ""
  end.

Definition hex4 (a b c d : ascii) : option N :=
  match hex_value a, hex_value b, hex_value c, hex_value d with
  | Some x, Some y, Some z, Some w => Some (((x * 16 + y) * 16 + z) * 16 + w)%N
  | _, _, _, _ => None
  end.

Definition unescape (e : ascii) : option ascii :=
  match e with
  | "034" => Some "034"
  | "\" => Some "\"
  | "/" => Some "/"
  | "b" => Some "008"
  | "f" => Some "012"
  | "n" => Some "010"
  | "r" => Some "013"
  | "t" => Some "009"
  | _ => None
  end%char.

(** The characters of a string after its opening quote, up to and
    including the closing quote. *)
Fixpoint parse_chars (s : string) : option (string * string) :=
  match s with
  | "" => None
  | String c rest =>
      if Ascii.eqb c "034" then Some ("", rest)
      else if Ascii.eqb c "\" then
        match rest with
        | String "u" (String h1 (String h2 (String h3 (String h4 rest')))) =>
            match hex4 h1 h2 h3 h4 with
            | Some n =>
                if (n <? 256)%N then
                  match parse_chars rest' with
                  | Some (t, r) => Some (String (ascii_of_N n) t, r)
                  | None => None
                  end
                else None
            | None => None
            end
        | String e rest' =>
            match unescape e with
            | Some c' =>
                match parse_chars rest' with
                | Some (t, r) => Some (String c' t, r)
                | None => None
                end
            | None => None
            end
        | "" => None
        end
      else if (N_of_ascii c <? 32)%N then None
      else
        match parse_chars rest with
        | Some (t, r) => Some (String c t, r)
        | None => None
        end
  end.

Definition digit_of (c : ascii) : option (Decimal.uint -> Decimal.uint) :=
  match c with
  | "0" => Some D0 | "1" => Some D1 | "2" => Some D2 | "3" => Some D3
  | "4" => Some D4 | "5" => Some D5 | "6" => Some D6 | "7" => Some D7
  | "8" => Some D8 | "9" => Some D9
  | _ => None
  end%char.

(** The longest run of decimal digits at the head of [s]. *)
Fixpoint read_digits (s : string) : Decimal.uint * string :=
  match s with
  | "" => (Nil, "")
  | String c s' =>
      match digit_of c with
      | Some D => let (d, r) := read_digits s' in (D d, r)
      | None => (Nil, s)
      end
  end.

(** The integer part of the JSON grammar: [0], or a nonzero digit
    followed by digits. *)
Definition int_grammar (d : Decimal.uint) : bool :=
  match d with
  | Nil => false
  | D0 Nil => true
  | D0 _ => false
  | _ => true
  end.

Definition starts_fraction (s : string) : bool :=
  match s with
  | String c _ =>
      match c with "." | "e" | "E" => true | _ => false end%char
  | "" => false
  end.

Definition parse_number (s : string) : option (value * string) :=
  let (negative, s') :=
    match s with
    | String "-" s' => (true, s')
    | _ => (false, s)
    end in
  let (d, r) := read_digits s' in
  if int_grammar d && negb (starts_fraction r)
  then Some (VNum (Z.of_int (if negative then Decimal.Neg d else Decimal.Pos d)), r)
  else None.

(** [starts_with p s]: the text [s] begins with [p]. *)
Fixpoint starts_with (p s : string) : bool :=
  match p, s with
  | "", _ => true
  | String a p', String b s' => Ascii.eqb a b && starts_with p' s'
  | String _ _, "" => false
  end.

Fixpoint drop (n : nat) (s : string) : string :=
  match n, s with
  | S n', String _ s' => drop n' s'
  | _, _ => s
  end.

(** A value, the elements of an array after its opening bracket, and
    the members of an object after its opening brace; each returns what
    it has read and the rest of the text. *)
Fixpoint parse_value (fuel : nat) (s : string) : option (value * string) :=
  match fuel with
  | O => None
  | S fuel =>
      let t := skip_ws s in
      if starts_with "null" t then Some (VNull, drop 4 t)
      else if starts_with "true" t then Some (VBool true, drop 4 t)
      else if starts_with "false" t then Some (VBool false, drop 5 t)
      else
        match t with
        | "" => None
        | String c r =>
            if Ascii.eqb c "034" then
              match parse_chars r with
              | Some (x, r') => Some (VStr x, r')
              | None => None
              end
            else if Ascii.eqb c "[" then
              if starts_with "]" (skip_ws r) then Some (VArr [], drop 1 (skip_ws r))
              else
                match parse_elements fuel r with
                | Some (l, r') => Some (VArr l, r')
                | None => None
                end
            else if Ascii.eqb c "{" then
              if starts_with "}" (skip_ws r) then Some (VObj [], drop 1 (skip_ws r))
              else
                match parse_members fuel r with
                | Some (l, r') => Some (VObj l, r')
                | None => None
                end
            else parse_number t
        end
  end
with parse_elements (fuel : nat) (s : string) : option (list value * string) :=
  match fuel with
  | O => None
  | S fuel =>
      match parse_value fuel s with
      | Some (v, r) =>
          let t := skip_ws r in
          if starts_with "," t then
            match parse_elements fuel (drop 1 t) with
            | Some (l, r') => Some (v :: l, r')
            | None => None
            end
          else if starts_with "]" t then Some ([v], drop 1 t)
          else None
      | None => None
      end
  end
with parse_members (fuel : nat) (s : string) : option (list (string * value) * string) :=
  match fuel with
  | O => None
  | S fuel =>
      match skip_ws s with
      | "" => None
      | String c r =>
          if Ascii.eqb c "034" then
            match parse_chars r with
            | Some (k, r1) =>
                if starts_with ":" (skip_ws r1) then
                  match parse_value fuel (drop 1 (skip_ws r1)) with
                  | Some (v, r3) =>
                      let t := skip_ws r3 in
                      if starts_with "," t then
                        match parse_members fuel (drop 1 t) with
                        | Some (l, r5) => Some ((k, v) :: l, r5)
                        | None => None
                        end
                      else if starts_with "}" t then Some ([(k, v)], drop 1 t)
                      else None
                  | None => None
                  end
                else None
            | None => None
            end
          else None
      end
  end.

(** [CreateDataProperty] on the object under construction: a key already
    present keeps its place and takes the new value, a new key goes to
    the end. *)
Fixpoint CreateDataProperty (o : list (string * value)) (k : string) (v : value)
  : list (string * value) :=
  match o with
  | [] => [(k, v)]
  | (k', v') :: o' =>
      if String.eqb k' k then (k', v) :: o'
      else (k', v') :: CreateDataProperty o' k v
  end.

(** The value denoted by a parse tree: the members of each object are
    defined one after the other, so the last of two equal keys wins. *)
Fixpoint internalize (v : value) : value :=
  match v with
  | VArr l => VArr (List.map internalize l)
  | VObj l =>
      VObj (fold_left (fun o p => CreateDataProperty o (fst p) (internalize (snd p)))
              l [])
  | _ => v
  end.

(** [JSON.parse(text)].  The recursion is on a counter that starts above
    the length of the text: a nested call is made after a character has
    been read, so the counter never runs out
    ([JSONFuel.parse_fuel_suffices]). *)
Definition parse (text : string) : option value :=
  match parse_value (S (String.length text)) text with
  | Some (v, r) =>
      match skip_ws r with
      | "" => Some (internalize v)
      | _ => None
      end
  | None => None
  end.

(** *** The JSON grammar

    The texts [JSON.parse] reads without a [SyntaxError], whatever the
    values they denote: the functions of [parse_value] again, with every
    number of the grammar (an integer part, a fraction, an exponent) and
    every [\uXXXX] escape.  Each gives the rest of the text. *)

Fixpoint accept_chars (s : string) : option string :=
  match s with
  | "" => None
  | String c rest =>
      if Ascii.eqb c "034" then Some rest
      else if Ascii.eqb c "\" then
        match rest with
        | String "u" (String h1 (String h2 (String h3 (String h4 rest')))) =>
            match hex4 h1 h2 h3 h4 with
            | Some _ => accept_chars rest'
            | None => None
            end
        | String e rest' =>
            match unescape e with
            | Some _ => accept_chars rest'
            | None => None
            end
        | "" => None
        end
      else if (N_of_ascii c <? 32)%N then None
      else accept_chars rest
  end.

(** One digit or more. *)
Definition accept_digits (s : string) : option string :=
  match read_digits s with
  | (Nil, _) => None
  | (_, r) => Some r
  end.

(** A fraction, if there is a point: a point and digits. *)
Definition accept_fraction (r : string) : option string :=
  match r with
  | String "." f => accept_digits f
  | _ => Some r
  end.

(** An exponent, if there is an [e]: the letter, a sign or none, and
    digits. *)
Definition accept_exponent (r : string) : option string :=
  match r with
  | String c x =>
      if Ascii.eqb c "e" || Ascii.eqb c "E" then
        accept_digits
          match x with
          | String "+" y => y
          | String "-" y => y
          | _ => x
          end
      else Some r
  | "" => Some r
  end.

Definition accept_number (s : string) : option string :=
  let s' :=
    match s with
    | String "-" s' => s'
    | _ => s
    end in
  let (d, r) := read_digits s' in
  if int_grammar d then
    match accept_fraction r with
    | Some r1 => accept_exponent r1
    | None => None
    end
  else None.

Fixpoint accept_value (fuel : nat) (s : string) : option string :=
  match fuel with
  | O => None
  | S fuel =>
      let t := skip_ws s in
      if starts_with "null" t then Some (drop 4 t)
      else if starts_with "true" t then Some (drop 4 t)
      else if starts_with "false" t then Some (drop 5 t)
      else
        match t with
        | "" => None
        | String c r =>
            if Ascii.eqb c "034" then accept_chars r
            else if Ascii.eqb c "[" then
              if starts_with "]" (skip_ws r) then Some (drop 1 (skip_ws r))
              else accept_elements fuel r
            else if Ascii.eqb c "{" then
              if starts_with "}" (skip_ws r) then Some (drop 1 (skip_ws r))
              else accept_members fuel r
            else accept_number t
        end
  end
with accept_elements (fuel : nat) (s : string) : option string :=
  match fuel with
  | O => None
  | S fuel =>
      match accept_value fuel s with
      | Some r =>
          let t := skip_ws r in
          if starts_with "," t then accept_elements fuel (drop 1 t)
          else if starts_with "]" t then Some (drop 1 t)
          else None
      | None => None
      end
  end
with accept_members (fuel : nat) (s : string) : option string :=
  match fuel with
  | O => None
  | S fuel =>
      match skip_ws s with
      | "" => None
      | String c r =>
          if Ascii.eqb c "034" then
            match accept_chars r with
            | Some r1 =>
                if starts_with ":" (skip_ws r1) then
                  match accept_value fuel (drop 1 (skip_ws r1)) with
                  | Some r3 =>
                      let t := skip_ws r3 in
                      if starts_with "," t then accept_members fuel (drop 1 t)
                      else if starts_with "}" t then Some (drop 1 t)
                      else None
                  | None => None
                  end
                else None
            | None => None
            end
          else None
      end
  end.

(** A text of the grammar: a value and nothing after it but white
    space.  The counter is that of [parse]. *)
Definition well_formed (text : string) : bool :=
  match accept_value (S (String.length text)) text with
  | Some r =>
      match skip_ws r with
      | "" => true
      | _ => false
      end
  | None => false
  end.

Fixpoint distinct (l : list string) : bool :=
  match l with
  | [] => true
  | k :: l' => negb (existsb (String.eqb k) l') && distinct l'
  end.

(** The values [JSON.stringify] writes without loss: no [undefined], safe
    integers, objects as JavaScript has them (no key twice). *)
Fixpoint representable (v : value) : bool :=
  match v with
  | VUndefined => false
  | VNull | VBool _ | VStr _ => true
  | VNum n => Z.abs n <=? 9007199254740991
  | VArr l => forallb representable l
  | VObj l => forallb (fun p => representable (snd p)) l && distinct (List.map fst l)
  end.

End JSON.


(** ** Buffer.from(s).toString('base64')

    [Buffer.from] encodes the code units of its argument in UTF-8: one
    octet below 128, two octets from 128 to 255.  [toString('base64')]
    writes three octets as four characters of the standard alphabet and
    pads the last group with [=]. *)

Module Buffer.

Definition utf8_char (c : ascii) : list ascii :=
  let n := N_of_ascii c in
  if (n <? 128)%N then [c]
  else [ascii_of_N (192 + n / 64); ascii_of_N (128 + n mod 64)].

Fixpoint from (s : string) : list ascii :=
  match s with
  | "" => []
  | String c s' => utf8_char c ++ from s'
  end.

Definition alphabet : string :=
  "ABCDEFGHIJKLMNOPQRSTUVWXYZabcdefghijklmnopqrstuvwxyz0123456789+/".

Definition sextet_char (n : N) : ascii :=
  match String.get (N.to_nat n) alphabet with
  | Some c => c
  | None => "="%char
  end.

Fixpoint base64 (octets : list ascii) : string :=
  match octets with
  | [] => ""
  | [a] =>
      let x := N_of_ascii a in
      String (sextet_char (x / 4))
        (String (sextet_char (x mod 4 * 16)) "==")
  | [a; b] =>
      let x := N_of_ascii a in
      let y := N_of_ascii b in
      String (sextet_char (x / 4))
        (String (sextet_char (x mod 4 * 16 + y / 16))
           (String (sextet_char (y mod 16 * 4)) "="))
  | a :: b :: c :: rest =>
      let x := N_of_ascii a in
      let y := N_of_ascii b in
      let z := N_of_ascii c in
      String (sextet_char (x / 4))
        (String (sextet_char (x mod 4 * 16 + y / 16))
           (String (sextet_char (y mod 16 * 4 + z / 64))
              (String (sextet_char (z mod 64)) (base64 rest))))
  end.

End Buffer.

(** ** The glob patterns of the Redis [KEYS] command

    [*] matches any run of characters, [?] one character, [[...]] one
    character of a class (negated by a leading [^], with ranges [a-z]),
    and a backslash takes the next character literally.  A class that is
    not closed runs to the end of the pattern. *)

Module Glob.

Inductive item : Type :=
| Single (c : ascii)
| Range (lo hi : ascii).

Inductive token : Type :=
| TStar
| TAny
| TChar (c : ascii)
| TClass (negated : bool) (items : list item).

Inductive mode : Type :=
| Top
| InClass (negated : bool) (items : list item).

Fixpoint tokens (m : mode) (p : string) : list token :=
  match m, p with
  | Top, "" => []
  | Top, String "*" p' => TStar :: tokens Top p'
  | Top, String "?" p' => TAny :: tokens Top p'
  | Top, String "[" (String "^" p') => tokens (InClass true []) p'
  | Top, String "[" p' => tokens (InClass false []) p'
  | Top, String "\" (String c p') => TChar c :: tokens Top p'
  | Top, String c p' => TChar c :: tokens Top p'
  | InClass neg items, "" => [TClass neg items]
  | InClass neg items, String "\" (String c p') =>
      tokens (InClass neg (Single c :: items)) p'
  | InClass neg items, String "]" p' => TClass neg items :: tokens Top p'
  | InClass neg items, String lo (String "-" (String hi p')) =>
      tokens (InClass neg (Range lo hi :: items)) p'
  | InClass neg items, String c p' =>
      tokens (InClass neg (Single c :: items)) p'
  end.

Definition item_matches (c : ascii) (i : item) : bool :=
  match i with
  | Single c' => Ascii.eqb c' c
  | Range lo hi =>
      let l := N.min (N_of_ascii lo) (N_of_ascii hi) in
      let h := N.max (N_of_ascii lo) (N_of_ascii hi) in
      (l <=? N_of_ascii c)%N && (N_of_ascii c <=? h)%N
  end.

Fixpoint match_tokens (ts : list token) (s : string) : bool :=
  match ts with
  | [] => match s with "" => true | _ => false end
  | TStar :: ts' =>
      (fix star (s : string) : bool :=
         match_tokens ts' s
         || match s with
            | "" => false
            | String _ s' => star s'
            end) s
  | TAny :: ts' =>
      match s with
      | "" => false
      | String _ s' => match_tokens ts' s'
      end
  | TChar c :: ts' =>
      match s with
      | "" => false
      | String c' s' => Ascii.eqb c c' && match_tokens ts' s'
      end
  | TClass neg items :: ts' =>
      match s with
      | "" => false
      | String c' s' =>
          xorb neg (existsb (item_matches c') items) && match_tokens ts' s'
      end
  end.

(** The server's [stringmatchlen]: an empty string matches the empty
    pattern only. *)
Definition stringmatch (pattern s : string) : bool :=
  match s with
  | "" => match pattern with "" => true | _ => false end
  | _ => match_tokens (tokens Top pattern) s
  end.

End Glob.

(** ** Asynchronous calls that may throw *)

Definition error : Type := string.

Inductive outcome (A : Type) : Type :=
| Returned (a : A)
| Thrown (e : error).
Arguments Returned {A} a.
Arguments Thrown {A} e.

(** ** The node-redis client

    The five commands [src/config/redis.js] sends, and [connect].  Each
    call takes the client (with the server behind it) to its next state
    and either returns or throws; nothing else is assumed of it.  A call
    settles: a promise that stays pending for ever, which keeps its
    caller waiting, is outside the interface. *)

Class RedisClient (C : Type) : Type := {
  createClient : string -> option string -> outcome C;
  client_connect : C -> outcome unit * C;
  client_get : C -> string -> outcome (option string) * C;
  client_setEx : C -> string -> Z -> string -> outcome unit * C;
  client_del : C -> list string -> outcome Z * C;
  client_keys : C -> string -> outcome (list string) * C;
  client_quit : C -> outcome unit * C
}.

(** ** src/config/redis.js *)

Module Redis.
Section redis_js.
Context {C : Type} {client : RedisClient C}.

(** The state of the module: the variable [redisClient] ([None] is
    [null]) and the lines written by [console.error].  The handlers of
    the client's events, which only write to the console, and the retry
    strategy given to [createClient] are left out. *)
Record state : Type := State {
  redisClient : option C;
  console : list string
}.

Definition M (A : Type) : Type := state -> outcome A * state.

Definition ret {A} (a : A) : M A := fun st => (Returned a, st).

Definition throw {A} (e : error) : M A := fun st => (Thrown e, st).

Definition bind {A B} (m : M A) (k : A -> M B) : M B :=
  fun st =>
    match m st with
    | (Returned a, st') => k a st'
    | (Thrown e, st') => (Thrown e, st')
    end.

Definition try_catch {A} (body : M A) (handler : error -> M A) : M A :=
  fun st =>
    match body st with
    | (Returned a, st') => (Returned a, st')
    | (Thrown e, st') => handler e st'
    end.

Definition console_error (msg : string) (e : error) : M unit :=
  fun st =>
    (Returned tt,
     State (redisClient st) (console st ++ [msg ++ " " ++ e])).

(** A method call [redisClient.cmd(...)] on the module's client. *)
Definition call {A} (cmd : C -> outcome A * C) : M A :=
  fun st =>
    match redisClient st with
    | Some c => let (r, c') := cmd c in (r, State (Some c') (console st))
    | None => (Thrown "TypeError: Cannot read properties of null", st)
    end.

(** [if (!redisClient) return dflt;] before the body of a function. *)
Definition unless_no_client {A} (dflt : A) (body : M A) : M A :=
  fun st =>
    match redisClient st with
    | None => (Returned dflt, st)
    | Some _ => body st
    end.

(** [redisClient.setEx(key, ttl, data)], where [data] is the result of
    [JSON.stringify]: the client refuses an argument that is [undefined]. *)
Definition setEx (key : string) (ttl : Z) (data : option string) : M unit :=
  match data with
  | Some d => call (fun c => client_setEx c key ttl d)
  | None => throw "TypeError: Invalid argument type"
  end.

(** [data ? JSON.parse(data) : null]: [null] and the empty string are
    falsy. *)
Definition parse_or_null (data : option string) : M value :=
  match data with
  | None | Some "" => ret VNull
  | Some d =>
      match JSON.parse d with
      | Some v => ret v
      | None => throw "SyntaxError: Unexpected token in JSON"
      end
  end.

(** [Buffer.from(filterKey).toString('base64')], where [filterKey] is the
    result of [JSON.stringify]: [Buffer.from(undefined)] throws. *)
Definition base64_of (filterKey : option string) : M string :=
  match filterKey with
  | Some t => ret (Buffer.base64 (Buffer.from t))
  | None => throw "TypeError: The first argument must be of type string"
  end.

(** [connectRedis]; the two arguments are [process.env.REDIS_URL] and
    [process.env.REDIS_PASSWORD].  The client is assigned to the variable
    of the module before it connects.  The four handlers registered with
    [redisClient.on] write a line when the client emits [error],
    [connect], [ready] or [end] and do nothing else: they are left out,
    and so are the lines they write, of which the console of the model
    holds none. *)
Definition connectRedis (REDIS_URL REDIS_PASSWORD : option string)
  : M (option C) :=
  try_catch
    (fun st =>
       let url :=
         match REDIS_URL with
         | None | Some "" => "redis://localhost:6379"
         | Some u => u
         end in
       let password :=
         match REDIS_PASSWORD with
         | None | Some "" => None
         | Some p => Some p
         end in
       match createClient url password with
       | Thrown e => (Thrown e, st)
       | Returned c =>
           bind (call client_connect)
             (fun _ st' => (Returned (redisClient st'), st'))
             (State (Some c) (console st))
       end)
    (fun e => bind (console_error "Redis connection error:" e)
                (fun _ => ret None)).

Definition cacheUser (userId : string) (userData : value) : M unit :=
  unless_no_client tt
    (try_catch
       (let key := "user:" ++ userId in
        let data := JSON.stringify userData in
        setEx key 3600 data)
       (console_error "Error caching user:")).

Definition getCachedUser (userId : string) : M value :=
  unless_no_client VNull
    (try_catch
       (let key := "user:" ++ userId in
        bind (call (fun c => client_get c key)) parse_or_null)
       (fun e => bind (console_error "Error getting cached user:" e)
                   (fun _ => ret VNull))).

Definition invalidateUserCache (userId : string) : M unit :=
  unless_no_client tt
    (try_catch
       (let key := "user:" ++ userId in
        bind (call (fun c => client_del c [key])) (fun _ => ret tt))
       (console_error "Error invalidating user cache:")).

Definition cacheItinerary (itineraryId : string) (itineraryData : value) : M unit :=
  unless_no_client tt
    (try_catch
       (let key := "itinerary:" ++ itineraryId in
        let data := JSON.stringify itineraryData in
        setEx key 1800 data)
       (console_error "Error caching itinerary:")).

Definition getCachedItinerary (itineraryId : string) : M value :=
  unless_no_client VNull
    (try_catch
       (let key := "itinerary:" ++ itineraryId in
        bind (call (fun c => client_get c key)) parse_or_null)
       (fun e => bind (console_error "Error getting cached itinerary:" e)
                   (fun _ => ret VNull))).

Definition invalidateItineraryCache (itineraryId : string) : M unit :=
  unless_no_client tt
    (try_catch
       (let key := "itinerary:" ++ itineraryId in
        bind (call (fun c => client_del c [key])) (fun _ => ret tt))
       (console_error "Error invalidating itinerary cache:")).

Definition cacheItineraryList (userId : string) (filters data : value) : M unit :=
  unless_no_client tt
    (try_catch
       (let filterKey := JSON.stringify filters in
        bind (base64_of filterKey) (fun b64 =>
        let key := "itineraries:" ++ userId ++ ":" ++ b64 in
        let cacheData := JSON.stringify data in
        setEx key 600 cacheData))
       (console_error "Error caching itinerary list:")).

Definition getCachedItineraryList (userId : string) (filters : value) : M value :=
  unless_no_client VNull
    (try_catch
       (let filterKey := JSON.stringify filters in
        bind (base64_of filterKey) (fun b64 =>
        let key := "itineraries:" ++ userId ++ ":" ++ b64 in
        bind (call (fun c => client_get c key)) parse_or_null))
       (fun e => bind (console_error "Error getting cached itinerary list:" e)
                   (fun _ => ret VNull))).

Definition invalidateUserItineraryCaches (userId : string) : M unit :=
  unless_no_client tt
    (try_catch
       (let pattern := "itineraries:" ++ userId ++ ":*" in
        bind (call (fun c => client_keys c pattern)) (fun keys =>
        if (0 <? Z.of_nat (List.length keys))
        then bind (call (fun c => client_del c keys)) (fun _ => ret tt)
        else ret tt))
       (console_error "Error invalidating user itinerary caches:")).

Definition cachePublicItineraries (filters data : value) : M unit :=
  unless_no_client tt
    (try_catch
       (let filterKey := JSON.stringify filters in
        bind (base64_of filterKey) (fun b64 =>
        let key := "public_itineraries:" ++ b64 in
        let cacheData := JSON.stringify data in
        setEx key 300 cacheData))
       (console_error "Error caching public itineraries:")).

Definition getCachedPublicItineraries (filters : value) : M value :=
  unless_no_client VNull
    (try_catch
       (let filterKey := JSON.stringify filters in
        bind (base64_of filterKey) (fun b64 =>
        let key := "public_itineraries:" ++ b64 in
        bind (call (fun c => client_get c key)) parse_or_null))
       (fun e => bind (console_error "Error getting cached public itineraries:" e)
                   (fun _ => ret VNull))).

Definition invalidatePublicItineraryCaches : M unit :=
  unless_no_client tt
    (try_catch
       (let pattern := "public_itineraries:*" in
        bind (call (fun c => client_keys c pattern)) (fun keys =>
        if (0 <? Z.of_nat (List.length keys))
        then bind (call (fun c => client_del c keys)) (fun _ => ret tt)
        else ret tt))
       (console_error "Error invalidating public itinerary caches:")).

(** [cache(key, data, ttl = 3600)]: [None] is an omitted third argument. *)
Definition cache (key : string) (data : value) (ttl : option Z) : M unit :=
  unless_no_client tt
    (try_catch
       (let ttl := match ttl with Some t => t | None => 3600 end in
        let cacheData := JSON.stringify data in
        setEx key ttl cacheData)
       (console_error "Error caching data:")).

Definition getCache (key : string) : M value :=
  unless_no_client VNull
    (try_catch
       (bind (call (fun c => client_get c key)) parse_or_null)
       (fun e => bind (console_error "Error getting cached data:" e)
                   (fun _ => ret VNull))).

Definition deleteCache (key : string) : M unit :=
  unless_no_client tt
    (try_catch
       (bind (call (fun c => client_del c [key])) (fun _ => ret tt))
       (console_error "Error deleting cached data:")).

Definition closeRedis : M unit :=
  fun st =>
    match redisClient st with
    | Some _ => call client_quit st
    | None => (Returned tt, st)
    end.

End redis_js.
Arguments state C : clear implicits.
Arguments M C A : clear implicits.
End Redis.

(** ** A Redis server in memory

    The reference client: a connected client in front of a server that
    holds each key with its value and its time to live in seconds, and
    that records the commands it receives in order. *)

Module MemRedis.

Inductive command : Type :=
| GET (key : string)
| SETEX (key : string) (seconds : Z) (data : string)
| DEL (keys : list string)
| KEYS (pattern : string).

Record t : Type := Server {
  store : gmap string (string * Z);
  commands : list command
}.

Definition get (c : t) (key : string) : outcome (option string) * t :=
  (Returned (fst <$> store c !! key),
   Server (store c) (commands c ++ [GET key])).

(** The largest number of seconds a server takes: its milliseconds fit
    in 64 bits. *)
Definition max_seconds : Z := 9223372036854775.

Definition setEx (c : t) (key : string) (seconds : Z) (data : string)
  : outcome unit * t :=
  if (0 <? seconds) && (seconds <=? max_seconds)
  then (Returned tt,
        Server (<[key := (data, seconds)]> (store c))
          (commands c ++ [SETEX key seconds data]))
  else (Thrown "ERR invalid expire time in 'setex' command",
        Server (store c) (commands c ++ [SETEX key seconds data])).

Definition del (c : t) (keys : list string) : outcome Z * t :=
  match keys with
  | [] =>
      (Thrown "ERR wrong number of arguments for 'del' command",
       Server (store c) (commands c ++ [DEL keys]))
  | _ =>
      (Returned (Z.of_nat (List.length
                   (List.filter (fun k => bool_decide (is_Some (store c !! k)))
                      (remove_dups keys)))),
       Server (foldr delete (store c) keys) (commands c ++ [DEL keys]))
  end.

Definition keys (c : t) (pattern : string) : outcome (list string) * t :=
  (Returned (List.filter (Glob.stringmatch pattern) (fst <$> map_to_list (store c))),
   Server (store c) (commands c ++ [KEYS pattern])).

#[global] Instance client : RedisClient t := {
  createClient _ _ := Returned (Server ∅ []);
  client_connect c := (Returned tt, c);
  client_get := get;
  client_setEx := setEx;
  client_del := del;
  client_keys := keys;
  client_quit c := (Returned tt, c)
}.

(** The module of [src/config/redis.js] connected to the server [c]. *)
Definition connected (c : t) : Redis.state t := Redis.State (Some c) [].

End MemRedis.

(** A client whose server cannot be reached: every command is rejected. *)
Module DownRedis.

#[global] Instance client : RedisClient unit := {
  createClient _ _ := Returned tt;
  client_connect c := (Thrown "ECONNREFUSED", c);
  client_get c _ := (Thrown "ClientClosedError: The client is closed", c);
  client_setEx c _ _ _ := (Thrown "ClientClosedError: The client is closed", c);
  client_del c _ := (Thrown "ClientClosedError: The client is closed", c);
  client_keys c _ := (Thrown "ClientClosedError: The client is closed", c);
  client_quit c := (Thrown "ClientClosedError: The client is closed", c)
}.

End DownRedis.

(** ** Mongoose

    An [ObjectId] is written as 24 hexadecimal digits in lower case; this
    is what [toString()] and a template literal give for [req.user._id]
    and [itinerary._id]. *)

Definition is_hex_lower (c : ascii) : bool :=
  match JSON.digit_of c with
  | Some _ => true
  | None =>
      match c with
      | "a" | "b" | "c" | "d" | "e" | "f" => true
      | _ => false
      end%char
  end.

Fixpoint all_chars (f : ascii -> bool) (s : string) : bool :=
  match s with
  | "" => true
  | String c s' => f c && all_chars f s'
  end.

Definition is_ObjectId_hex (s : string) : bool :=
  (String.length s =? 24)%nat && all_chars is_hex_lower s.

Record ObjectId : Type := OID {
  hex : string;
  hex_ok : is_ObjectId_hex hex = true
}.

(** The model [Itinerary] of [src/models/Itinerary.js], as far as the
    controller uses it: the queries it awaits and the properties of a
    document it reads.  A query returns or throws (a [CastError], a
    [ValidationError], a lost connection). *)
Class ItineraryModel (D Doc : Type) : Type := {
  (* Itinerary.findById(id) *)
  findById : D -> string -> outcome (option Doc) * D;
  (* Itinerary.findById(id).populate('userId', 'name email') *)
  findById_populate : D -> string -> outcome (option Doc) * D;
  (* Itinerary.create(body) *)
  create : D -> list (string * value) -> outcome Doc * D;
  (* itinerary.populate('userId', 'name email') *)
  populate : D -> Doc -> outcome Doc * D;
  (* Itinerary.findByIdAndUpdate(id, body, {new: true, runValidators: true})
       .populate('userId', 'name email') *)
  findByIdAndUpdate_populate :
    D -> string -> list (string * value) -> outcome (option Doc) * D;
  (* Itinerary.findByIdAndDelete(id) *)
  findByIdAndDelete : D -> string -> outcome (option Doc) * D;
  (* itinerary._id *)
  doc_id : Doc -> ObjectId;
  (* itinerary.userId.toString() *)
  userId_toString : Doc -> outcome string;
  (* itinerary.userId._id.toString() *)
  userId_id_toString : Doc -> outcome string;
  (* the plain object JSON.stringify and res.json write for a document *)
  toJSON : Doc -> value
}.

(** ** The itinerary controller

    [src/controllers/itineraryController.js]; the copy under
    [src/unnamed/part_000] has the same handlers with the same cache
    calls, and differs in the owner test of [getItinerary] (below). *)

Module Controller.

Record Request : Type := Req {
  params_id : string;                 (* req.params.id *)
  user_id : ObjectId;                 (* req.user._id *)
  body : list (string * value)        (* req.body, an object *)
}.

Inductive response : Type :=
| Json (status : Z) (payload : value)  (* res.status(status).json(payload) *)
| Next (e : error).                    (* next(error) *)

Section handlers.
Context {C D Doc : Type} {client : RedisClient C} {model : ItineraryModel D Doc}.

Record world : Type := World {
  redis : Redis.state C;
  db : D
}.

(** A handler runs until it responds; an error thrown on the way is
    passed to [next]. *)
Inductive step (A : Type) : Type :=
| Continue (a : A)
| Finish (r : response).
Arguments Continue {A} a.
Arguments Finish {A} r.

Definition Handler (A : Type) : Type := world -> step A * world.

Definition hbind {A B} (m : Handler A) (k : A -> Handler B) : Handler B :=
  fun w =>
    match m w with
    | (Continue a, w') => k a w'
    | (Finish r, w') => (Finish r, w')
    end.

Definition respond {A} (r : response) : Handler A := fun w => (Finish r, w).

Definition eval {A} (o : outcome A) : Handler A :=
  fun w =>
    match o with
    | Returned a => (Continue a, w)
    | Thrown e => (Finish (Next e), w)
    end.

Definition query {A} (q : D -> outcome A * D) : Handler A :=
  fun w =>
    match q (db w) with
    | (Returned a, d') => (Continue a, World (redis w) d')
    | (Thrown e, d') => (Finish (Next e), World (redis w) d')
    end.

Definition cached {A} (m : Redis.M C A) : Handler A :=
  fun w =>
    match m (redis w) with
    | (Returned a, st') => (Continue a, World st' (db w))
    | (Thrown e, st') => (Finish (Next e), World st' (db w))
    end.

Definition handler (h : Handler response) (w : world) : response * world :=
  match h w with
  | (Continue r, w') => (r, w')
  | (Finish r, w') => (r, w')
  end.

Notation "x <- m ;; k" := (hbind m (fun x => k))
  (at level 100, m at next level, right associativity).

Definition failure (status : Z) (message : string) : response :=
  Json status (VObj [("success", VBool false); ("message", VStr message)]).

Definition getItinerary (req : Request) : world -> response * world :=
  handler (
    itinerary <- query (fun d => findById_populate d (params_id req)) ;;
    match itinerary with
    | None => respond (failure 404 "Itinerary not found")
    | Some itinerary =>
        owner <- eval (userId_id_toString itinerary) ;;
        if negb (String.eqb owner (hex (user_id req)))
        then respond (failure 403 "Not authorized to access this itinerary")
        else
          _ <- cached (Redis.cacheItinerary (hex (doc_id itinerary)) (toJSON itinerary)) ;;
          respond (Json 200 (VObj [("success", VBool true);
                                   ("itinerary", toJSON itinerary)]))
    end).

(** [getItinerary] as [src/unnamed/part_000] has it: the owner test reads
    [itinerary.userId.toString()]. *)
Definition getItinerary_part_000 (req : Request) : world -> response * world :=
  handler (
    itinerary <- query (fun d => findById_populate d (params_id req)) ;;
    match itinerary with
    | None => respond (failure 404 "Itinerary not found")
    | Some itinerary =>
        owner <- eval (userId_toString itinerary) ;;
        if negb (String.eqb owner (hex (user_id req)))
        then respond (failure 403 "Not authorized to access this itinerary")
        else
          _ <- cached (Redis.cacheItinerary (hex (doc_id itinerary)) (toJSON itinerary)) ;;
          respond (Json 200 (VObj [("success", VBool true);
                                   ("itinerary", toJSON itinerary)]))
    end).

Definition createItinerary (req : Request) : world -> response * world :=
  handler (
    let body := JSON.CreateDataProperty (body req) "userId" (VStr (hex (user_id req))) in
    itinerary <- query (fun d => create d body) ;;
    itinerary <- query (fun d => populate d itinerary) ;;
    _ <- cached (Redis.invalidateUserItineraryCaches (hex (user_id req))) ;;
    respond (Json 201 (VObj [("success", VBool true);
                             ("itinerary", toJSON itinerary)]))).

Definition updateItinerary (req : Request) : world -> response * world :=
  handler (
    itinerary <- query (fun d => findById d (params_id req)) ;;
    match itinerary with
    | None => respond (failure 404 "Itinerary not found")
    | Some itinerary =>
        owner <- eval (userId_toString itinerary) ;;
        if negb (String.eqb owner (hex (user_id req)))
        then respond (failure 403 "Not authorized to update this itinerary")
        else
          itinerary <- query (fun d =>
                         findByIdAndUpdate_populate d (params_id req) (body req)) ;;
          match itinerary with
          | None => respond (Next "TypeError: Cannot read properties of null")
          | Some itinerary =>
              _ <- cached (Redis.invalidateItineraryCache (hex (doc_id itinerary))) ;;
              _ <- cached (Redis.invalidateUserItineraryCaches (hex (user_id req))) ;;
              respond (Json 200 (VObj [("success", VBool true);
                                       ("itinerary", toJSON itinerary)]))
          end
    end).

Definition deleteItinerary (req : Request) : world -> response * world :=
  handler (
    itinerary <- query (fun d => findById d (params_id req)) ;;
    match itinerary with
    | None => respond (failure 404 "Itinerary not found")
    | Some itinerary =>
        owner <- eval (userId_toString itinerary) ;;
        if negb (String.eqb owner (hex (user_id req)))
        then respond (failure 403 "Not authorized to delete this itinerary")
        else
          _ <- query (fun d => findByIdAndDelete d (params_id req)) ;;
          _ <- cached (Redis.invalidateItineraryCache (hex (doc_id itinerary))) ;;
          _ <- cached (Redis.invalidateUserItineraryCaches (hex (user_id req))) ;;
          respond (Json 200 (VObj [("success", VBool true);
                                   ("message", VStr "Itinerary deleted successfully")]))
    end).

End handlers.
Arguments world C D : clear implicits.
End Controller.

(** ** A collection of itineraries in memory

    The reference model behind the handlers: documents by identifier, a
    supply of fresh identifiers, and the queries received in order.  The
    four required paths of the schema are checked on [create].  It
    serves the examples only; the theorems are stated for every
    implementation of [ItineraryModel].  Its [toJSON] is not the one of
    the schema: a document is written with its paths as they were
    given, the user as its identifier, and no [duration]. *)

Module MemMongo.

Record doc : Type := Doc {
  _id : ObjectId;
  userId : ObjectId;
  fields : list (string * value);
  populated : bool
}.

Inductive query : Type :=
| FindById (id : string)
| Create
| Populate
| FindByIdAndUpdate (id : string)
| FindByIdAndDelete (id : string).

Record t : Type := DB {
  docs : gmap string doc;
  fresh : list ObjectId;
  queries : list query
}.

Definition ObjectId_of (s : string) : option ObjectId :=
  match is_ObjectId_hex s as b return is_ObjectId_hex s = b -> option ObjectId with
  | true => fun e => Some (OID s e)
  | false => fun _ => None
  end eq_refl.

Definition lower (c : ascii) : ascii :=
  match c with
  | "A" => "a" | "B" => "b" | "C" => "c" | "D" => "d" | "E" => "e" | "F" => "f"
  | _ => c
  end%char.

Fixpoint lower_all (s : string) : string :=
  match s with
  | "" => ""
  | String c s' => String (lower c) (lower_all s')
  end.

(** The cast of a string to an [ObjectId]. *)
Definition cast (id : string) : outcome ObjectId :=
  match ObjectId_of (lower_all id) with
  | Some o => Returned o
  | None => Thrown "CastError: Cast to ObjectId failed"
  end.

Definition logged (q : query) (d : t) : t :=
  DB (docs d) (fresh d) (queries d ++ [q]).

Definition lookup_doc (q : query) (id : string) (pop : bool) (d : t)
  : outcome (option doc) * t :=
  match cast id with
  | Thrown e => (Thrown e, logged q d)
  | Returned o =>
      (Returned ((fun x => Doc (_id x) (userId x) (fields x) pop) <$> docs d !! hex o),
       logged q d)
  end.

Fixpoint get_field (k : string) (l : list (string * value)) : option value :=
  match l with
  | [] => None
  | (k', v) :: l' => if String.eqb k' k then Some v else get_field k l'
  end.

Definition without (k : string) (l : list (string * value)) : list (string * value) :=
  List.filter (fun p => negb (String.eqb (fst p) k)) l.

Definition required : list string := ["title"; "destination"; "startDate"; "endDate"].

Definition owner_of (body : list (string * value)) : option ObjectId :=
  match get_field "userId" body with
  | Some (VStr h) => ObjectId_of h
  | _ => None
  end.

Definition mem_create (d : t) (body : list (string * value)) : outcome doc * t :=
  match owner_of body, fresh d with
  | Some u, id :: ids =>
      if forallb (fun k => bool_decide (is_Some (get_field k body))) required
      then
        let x := Doc id u (without "userId" body) false in
        (Returned x, DB (<[hex id := x]> (docs d)) ids (queries d ++ [Create]))
      else (Thrown "ValidationError", logged Create d)
  | _, _ => (Thrown "ValidationError", logged Create d)
  end.

Definition merge (old new : list (string * value)) : list (string * value) :=
  fold_left (fun o p => JSON.CreateDataProperty o (fst p) (snd p)) new old.

Definition mem_update (d : t) (id : string) (body : list (string * value))
  : outcome (option doc) * t :=
  match cast id with
  | Thrown e => (Thrown e, logged (FindByIdAndUpdate id) d)
  | Returned o =>
      match docs d !! hex o with
      | None => (Returned None, logged (FindByIdAndUpdate id) d)
      | Some x =>
          let u := match owner_of body with Some u => u | None => userId x end in
          let x' := Doc (_id x) u (merge (fields x) (without "userId" body)) false in
          (Returned (Some (Doc (_id x') (userId x') (fields x') true)),
           DB (<[hex o := x']> (docs d)) (fresh d)
             (queries d ++ [FindByIdAndUpdate id]))
      end
  end.

Definition mem_delete (d : t) (id : string) : outcome (option doc) * t :=
  match cast id with
  | Thrown e => (Thrown e, logged (FindByIdAndDelete id) d)
  | Returned o =>
      (Returned (docs d !! hex o),
       DB (delete (hex o) (docs d)) (fresh d) (queries d ++ [FindByIdAndDelete id]))
  end.

Definition user_json (x : doc) : value :=
  if populated x then VObj [("_id", VStr (hex (userId x)))] else VStr (hex (userId x)).

#[global] Instance model : ItineraryModel t doc := {
  findById d id := lookup_doc (FindById id) id false d;
  findById_populate d id := lookup_doc (FindById id) id true d;
  create := mem_create;
  populate d x :=
    (Returned (Doc (_id x) (userId x) (fields x) true), logged Populate d);
  findByIdAndUpdate_populate := mem_update;
  findByIdAndDelete := mem_delete;
  doc_id := _id;
  userId_toString x :=
    Returned (if populated x
              then "{ _id: new ObjectId('" ++ hex (userId x) ++ "') }"
              else hex (userId x));
  userId_id_toString x := Returned (hex (userId x));
  toJSON x :=
    VObj (("_id", VStr (hex (_id x))) :: ("userId", user_json x) :: fields x)
}.

End MemMongo.

(** * Definitions used by the proofs *)

Module JSONFacts.
Import JSON.

(** The first character of a text that continues a number. *)
Definition continues_number (r : string) : bool :=
  match r with
  | "" => false
  | String c _ => bool_decide (digit_of c <> None) || starts_fraction r
  end.

Definition delimited (r : string) : bool :=
  match r with
  | "" => true
  | String c _ => Ascii.eqb c "," || Ascii.eqb c "]" || Ascii.eqb c "}"
  end.

Section value_induction.
Variable P : value -> Prop.
Hypothesis P_undefined : P VUndefined.
Hypothesis P_null : P VNull.
Hypothesis P_bool : forall b, P (VBool b).
Hypothesis P_num : forall n, P (VNum n).
Hypothesis P_str : forall s, P (VStr s).
Hypothesis P_arr : forall l, Forall P l -> P (VArr l).
Hypothesis P_obj : forall l, Forall (fun p => P (snd p)) l -> P (VObj l).

Fixpoint value_nested_ind (v : value) : P v :=
    match v with
    | VUndefined => P_undefined
    | VNull => P_null
    | VBool b => P_bool b
    | VNum n => P_num n
    | VStr s => P_str s
    | VArr l =>
        P_arr l ((fix all (l : list value) : Forall P l :=
                    match l with
                    | [] => @List.Forall_nil _ P
                    | x :: l' => @List.Forall_cons _ P x l' (value_nested_ind x) (all l')
                    end) l)
    | VObj l =>
        P_obj l ((fix all (l : list (string * value)) : Forall (fun p => P (snd p)) l :=
                    match l with
                    | [] => @List.Forall_nil _ (fun p => P (snd p))
                    | p :: l' => @List.Forall_cons _ (fun p => P (snd p)) p l' (value_nested_ind (snd p)) (all l')
                    end) l)
    end.
End value_induction.

(** The text [JSON.stringify] writes for a value inside an array. *)
Definition text (v : value) : string :=
  match SerializeJSONProperty v with Some t => t | None => "null" end.

Definition member_text (p : string * value) : string :=
  QuoteJSONString (fst p) ++ ":" ++ text (snd p).

Fixpoint size (v : value) : nat :=
  match v with
  | VArr l => S (list_sum (List.map (fun x => S (size x)) l))
  | VObj l => S (list_sum (List.map (fun p => S (size (snd p))) l))
  | _ => 1
  end.

Definition value_start (c : ascii) : bool :=
  match digit_of c with
  | Some _ => true
  | None =>
      match c with
      | "n" | "t" | "f" | "034" | "[" | "{" | "-" => true
      | _ => false
      end%char
  end.

Definition parses_back (v : value) : Prop :=
  forall fuel r, (size v <= fuel)%nat -> delimited r = true ->
    parse_value fuel (text v ++ r) = Some (v, r).

(** The parser [parser] with [fuel] reads at least one character, and
    reads the same with any counter that is no smaller than the number
    of characters it has read. *)
Definition enough {A} (parser : nat -> string -> option (A * string)) (fuel : nat) : Prop :=
  forall s a r,
    parser fuel s = Some (a, r) ->
    (String.length r < String.length s)%nat
    /\ forall fuel', (String.length s - String.length r <= fuel')%nat ->
                     parser fuel' s = Some (a, r).

(** The same for a function of the grammar, which gives the rest of
    the text only. *)
Definition accepts_enough (accept : nat -> string -> option string) (fuel : nat) : Prop :=
  forall s r,
    accept fuel s = Some r ->
    (String.length r < String.length s)%nat
    /\ forall fuel', (String.length s - String.length r <= fuel')%nat ->
                     accept fuel' s = Some r.

End JSONFacts.


Module BufferFacts.
Import Buffer.

Fixpoint utf8_decode (l : list ascii) : option string :=
  match l with
  | [] => Some ""
  | a :: l' =>
      if (N_of_ascii a <? 128)%N then option_map (String a) (utf8_decode l')
      else
        match l' with
        | b :: l'' =>
            option_map
              (String (ascii_of_N ((N_of_ascii a - 192) * 64 + (N_of_ascii b - 128))))
              (utf8_decode l'')
        | [] => None
        end
  end.

Fixpoint index_of (c : ascii) (s : string) (i : N) : option N :=
  match s with
  | "" => None
  | String c' s' => if Ascii.eqb c c' then Some i else index_of c s' (N.succ i)
  end.

Definition sextet_of (c : ascii) : option N := index_of c alphabet 0.

Fixpoint base64_decode (s : string) : option (list ascii) :=
  match s with
  | "" => Some []
  | String c1 (String c2 (String c3 (String c4 rest))) =>
      match sextet_of c1, sextet_of c2 with
      | Some x1, Some x2 =>
          let a := ascii_of_N (x1 * 4 + x2 / 16) in
          match sextet_of c3 with
          | None => Some [a]
          | Some x3 =>
              let b := ascii_of_N (x2 mod 16 * 16 + x3 / 4) in
              match sextet_of c4 with
              | None => Some [a; b]
              | Some x4 =>
                  option_map
                    (fun l => a :: b :: ascii_of_N (x3 mod 4 * 64 + x4) :: l)
                    (base64_decode rest)
              end
          end
      | _, _ => None
      end
  | _ => None
  end.

End BufferFacts.


Module GlobFacts.
Definition is_meta (c : ascii) : bool :=
  match c with
  | "*" | "?" | "[" | "\" => true
  | _ => false
  end%char.

(** A string with no glob metacharacter stands for itself in a pattern. *)
Definition glob_free (s : string) : bool := all_chars (fun c => negb (is_meta c)) s.

Definition colon_free (s : string) : bool :=
  all_chars (fun c => negb (Ascii.eqb c ":")) s.

Fixpoint literal (s : string) : list Glob.token :=
  match s with
  | "" => []
  | String c s' => Glob.TChar c :: literal s'
  end.
End GlobFacts.


Module MemRedisFacts.

(** [KEYS pattern] followed by [DEL] of the keys found, as the two
    invalidation functions do it. *)
Definition keys_then_del (pattern : string) : Redis.M MemRedis.t unit :=
  Redis.bind (Redis.call (fun c => client_keys c pattern)) (fun keys =>
    if (0 <? Z.of_nat (List.length keys))
    then Redis.bind (Redis.call (fun c => client_del c keys)) (fun _ => Redis.ret tt)
    else Redis.ret tt).

End MemRedisFacts.

(** What a run of a cache function on the reference server shows. *)
Module Observed.

Definition empty : MemRedis.t := MemRedis.Server ∅ [].

(** The server after [m] has run on a module connected to [c]. *)
Definition server_after {A} (m : Redis.M MemRedis.t A) (c : MemRedis.t) : MemRedis.t :=
  match Redis.redisClient (snd (m (MemRedis.connected c))) with
  | Some c' => c'
  | None => c
  end.

Definition result_of {A} (m : Redis.M MemRedis.t A) (c : MemRedis.t) : outcome A :=
  fst (m (MemRedis.connected c)).

(** The server behind the module's client, if it has one. *)
Definition server_of (st : Redis.state MemRedis.t) : option MemRedis.t :=
  Redis.redisClient st.

Definition store_of (st : Redis.state MemRedis.t) : option (gmap string (string * Z)) :=
  MemRedis.store <$> Redis.redisClient st.

(** The key of the last command sent, when it is [GET] or [SETEX]. *)
Definition last_key (c : MemRedis.t) : option string :=
  match last (MemRedis.commands c) with
  | Some (MemRedis.GET k) => Some k
  | Some (MemRedis.SETEX k _ _) => Some k
  | _ => None
  end.

(** The key each list function computes for a user and a filter record:
    the key of the one command it sends to an empty server. *)
Definition key_of_cacheItineraryList (userId : string) (filters : value) : option string :=
  last_key (server_after (Redis.cacheItineraryList userId filters VNull) empty).

Definition key_of_getCachedItineraryList (userId : string) (filters : value) : option string :=
  last_key (server_after (Redis.getCachedItineraryList userId filters) empty).

Definition key_of_cachePublicItineraries (filters : value) : option string :=
  last_key (server_after (Redis.cachePublicItineraries filters VNull) empty).

Definition key_of_getCachedPublicItineraries (filters : value) : option string :=
  last_key (server_after (Redis.getCachedPublicItineraries filters) empty).

End Observed.

(** The requests and records of the examples. *)
Module Sample.

(** A JSON text written with an apostrophe for each double quote. *)
Fixpoint quoted (s : string) : string :=
  match s with
  | "" => ""
  | String c s' => String (if Ascii.eqb c "'" then "034"%char else c) (quoted s')
  end.

Definition alice : ObjectId := OID "507f1f77bcf86cd799439011" eq_refl.
Definition bob : ObjectId := OID "507f1f77bcf86cd799439012" eq_refl.
Definition trip : ObjectId := OID "64b7f0c2a1d3e4f5a6b7c8d9" eq_refl.

Definition paris : list (string * value) :=
  [("title", VStr "Paris Trip"); ("destination", VStr "Paris, France");
   ("startDate", VStr "2024-06-01"); ("endDate", VStr "2024-06-07")].

(** The two filter records of the specification. *)
Definition page_limit_sort : list (string * value) :=
  [("page", VNum 1); ("limit", VNum 10); ("sort", VStr "-createdAt")].

Definition sort_limit_page : list (string * value) :=
  [("sort", VStr "-createdAt"); ("limit", VNum 10); ("page", VNum 1)].

(** The text [JSON.stringify] writes for the first of them. *)
Definition page_limit_sort_text : string :=
  Eval vm_compute in JSONFacts.text (VObj page_limit_sort).

(** [{ page, limit, sort, destination, search }] of [getPublicItineraries]
    for a request with no query string. *)
Definition public_cacheKey : value :=
  VObj [("page", VNum 1); ("limit", VNum 10); ("sort", VStr "-createdAt");
        ("destination", VUndefined); ("search", VUndefined)].

Definition envelope (title : string) : value :=
  VObj [("itineraries", VArr [VObj [("title", VStr title)]]);
        ("pagination", VObj [("current", VNum 1); ("pages", VNum 1); ("total", VNum 1)])].

Definition john : value :=
  VObj [("name", VStr "John Doe"); ("email", VStr "john@example.com");
        ("tags", VArr [VNum 1; VNull; VBool true; VObj []])].

(** A server that holds three lists of alice under three filter
    records, one list of bob, one public list and one itinerary. *)
Definition filters_page (n : Z) : value :=
  VObj [("page", VNum n); ("limit", VNum 10); ("sort", VStr "-createdAt")].

Definition draft : value := VObj [("title", VStr "Draft")].

Definition stocked : MemRedis.t :=
  Observed.server_after (Redis.cacheItinerary (hex trip) draft)
    (Observed.server_after (Redis.cachePublicItineraries public_cacheKey (envelope "Paris Trip"))
       (Observed.server_after (Redis.cacheItineraryList (hex bob) (filters_page 1) (envelope "Oslo"))
          (Observed.server_after (Redis.cacheItineraryList (hex alice) (filters_page 3) (envelope "Paris Trip"))
             (Observed.server_after (Redis.cacheItineraryList (hex alice) (filters_page 2) (envelope "Paris Trip"))
                (Observed.server_after (Redis.cacheItineraryList (hex alice) (filters_page 1) (envelope "Paris Trip"))
                   Observed.empty))))).

(** The collection holds the itinerary [trip] of alice. *)
Definition library : MemMongo.t :=
  MemMongo.DB {[hex trip := MemMongo.Doc trip alice paris false]} [] [].

Definition world0 : Controller.world MemRedis.t MemMongo.t :=
  Controller.World (MemRedis.connected stocked) library.

(** [GET], [PUT] and [DELETE /api/itineraries/<trip>] by alice, and her
    [POST /api/itineraries]. *)
Definition show : Controller.Request := Controller.Req (hex trip) alice [].

Definition rename : Controller.Request :=
  Controller.Req (hex trip) alice [("title", VStr "Rome")].

Definition remove : Controller.Request := Controller.Req (hex trip) alice [].

Definition add : Controller.Request := Controller.Req "" alice paris.

Definition payload_of (r : Controller.response) : value :=
  match r with
  | Controller.Json _ p => p
  | Controller.Next _ => VUndefined
  end.

(** What the collection answers for [trip]. *)
Definition stored_trip : value :=
  VObj [("_id", VStr (hex trip)); ("userId", VObj [("_id", VStr (hex alice))]);
        ("title", VStr "Paris Trip"); ("destination", VStr "Paris, France");
        ("startDate", VStr "2024-06-01"); ("endDate", VStr "2024-06-07")].

Definition stored_trip_text : string :=
  Eval vm_compute in JSONFacts.text stored_trip.

Definition public_key : string :=
  Eval vm_compute in
    match Observed.key_of_getCachedPublicItineraries public_cacheKey with
    | Some k => k
    | None => ""
    end.

Definition renamed : value :=
  Eval vm_compute in payload_of (fst (Controller.updateItinerary rename world0)).

End Sample.

(** Failing soft, for any client. *)
Module Soft.
Section soft.
Context {C : Type} {client : RedisClient C}.

(** [m] returns, whatever the state of the module and of its client. *)
Definition returns {A} (m : Redis.M C A) : Prop :=
  forall st, exists a st', m st = (Returned a, st').

(** The read function [m] looks [key] up: it returns [null] when the
    client throws, when the key holds nothing, and when what the key
    holds is not a text of the JSON grammar. *)
Definition misses_softly (key : string) (m : Redis.M C value) : Prop :=
  forall c log,
    match client_get c key with
    | (Thrown _, _) => fst (m (Redis.State (Some c) log)) = Returned VNull
    | (Returned None, _) => fst (m (Redis.State (Some c) log)) = Returned VNull
    | (Returned (Some d), _) =>
        JSON.well_formed d = false -> fst (m (Redis.State (Some c) log)) = Returned VNull
    end.

(** The same for a list read, whose key comes from the filter record:
    filters that do not serialize are a miss as well. *)
Definition list_misses_softly (prefix : string) (filters : value) (m : Redis.M C value)
  : Prop :=
  match JSON.stringify filters with
  | Some t => misses_softly (prefix ++ Buffer.base64 (Buffer.from t)) m
  | None => forall st, fst (m st) = Returned VNull
  end.

(** Each of the fifteen cache functions returns. *)
Definition every_function_returns : Prop :=
  (forall userId, returns (Redis.getCachedUser userId)) /\
  (forall itineraryId, returns (Redis.getCachedItinerary itineraryId)) /\
  (forall userId filters, returns (Redis.getCachedItineraryList userId filters)) /\
  (forall filters, returns (Redis.getCachedPublicItineraries filters)) /\
  (forall key, returns (Redis.getCache key)) /\
  (forall userId userData, returns (Redis.cacheUser userId userData)) /\
  (forall itineraryId data, returns (Redis.cacheItinerary itineraryId data)) /\
  (forall userId filters data, returns (Redis.cacheItineraryList userId filters data)) /\
  (forall filters data, returns (Redis.cachePublicItineraries filters data)) /\
  (forall key data ttl, returns (Redis.cache key data ttl)) /\
  (forall userId, returns (Redis.invalidateUserCache userId)) /\
  (forall itineraryId, returns (Redis.invalidateItineraryCache itineraryId)) /\
  (forall userId, returns (Redis.invalidateUserItineraryCaches userId)) /\
  returns Redis.invalidatePublicItineraryCaches /\
  (forall key, returns (Redis.deleteCache key)).

(** Each of the five read functions turns a failure into [null]. *)
Definition every_read_misses_softly : Prop :=
  (forall userId,
     misses_softly ("user:" ++ userId) (Redis.getCachedUser userId)) /\
  (forall itineraryId,
     misses_softly ("itinerary:" ++ itineraryId) (Redis.getCachedItinerary itineraryId)) /\
  (forall userId filters,
     list_misses_softly ("itineraries:" ++ userId ++ ":") filters
       (Redis.getCachedItineraryList userId filters)) /\
  (forall filters,
     list_misses_softly "public_itineraries:" filters
       (Redis.getCachedPublicItineraries filters)) /\
  (forall key, misses_softly key (Redis.getCache key)).

End soft.
End Soft.

(** * The rest of the code

    The parts of the sources the sections above leave aside: the retry
    strategy [connectRedis] gives to the client, the virtual [duration]
    of the model, the date rule of the validation middleware, and the
    handlers of the lists and of the shared itineraries. *)

(** ** JavaScript numbers that may not be finite

    The result of [parseInt], of a difference of dates and of the
    arithmetic on them: an integer, [NaN], or an infinity.  The two
    zeros are one, and [Infinite] is the infinity of either sign;
    nothing in the code depends on the sign, and no two infinities are
    added or subtracted.

    As for the values above, an integer stands for a safe integer, one
    below 2^53 in absolute value: there the sum, the difference and the
    product of the code are exact when the result is safe, and so is
    the ceiling of its quotient by a positive integer.  Beyond, the
    code rounds to a double; the properties of the arithmetic are
    stated for safe operands and safe results ([MAX_SAFE_INTEGER]). *)

Definition MAX_SAFE_INTEGER : Z := 9007199254740991.

Inductive number : Type :=
| NaN
| Infinite
| Num (n : Z).

Module Math.

(** [a + k] for an integer [k]. *)
Definition add (a : number) (k : Z) : number :=
  match a with
  | Num x => Num (x + k)
  | other => other
  end.

Definition times (a b : number) : number :=
  match a, b with
  | Num x, Num y => Num (x * y)
  | NaN, _ | _, NaN => NaN
  | Infinite, Num y | Num y, Infinite => if y =? 0 then NaN else Infinite
  | Infinite, Infinite => Infinite
  end.

Definition abs (a : number) : number :=
  match a with
  | Num x => Num (Z.abs x)
  | other => other
  end.

(** [Math.ceil(a / b)]: the least integer that is no smaller than the
    quotient. *)
Definition ceil_div (a b : number) : number :=
  match a, b with
  | Num x, Num y =>
      if y =? 0 then (if x =? 0 then NaN else Infinite)
      else Num (- ((- x) / y))
  | NaN, _ | _, NaN => NaN
  | Infinite, Infinite => NaN
  | Infinite, Num _ => Infinite
  | Num _, Infinite => Num 0
  end.

End Math.

(** ** src/config/redis.js: the retry strategy *)

Module RetryStrategy.

(** The argument [options] of the strategy: [error] is [None] when
    there is no error, and holds the code of the error otherwise
    ([None] again for an error without a code). *)
Record options : Type := Options {
  error : option (option string);
  total_retry_time : Z;
  attempt : Z
}.

(** What the strategy returns: an [Error], [undefined], or a number of
    milliseconds. *)
Inductive answer : Type :=
| GiveUp (e : string)
| Undefined
| RetryIn (ms : Z).

(** The function [retry_strategy] of [connectRedis]: the lines it writes
    with [console.error] and its result. *)
Definition retry_strategy (o : options) : list string * answer :=
  if match error o with
     | Some (Some code) => String.eqb code "ECONNREFUSED"
     | _ => false
     end
  then (["Redis server connection refused"], GiveUp "Redis server connection refused")
  else if 1000 * 60 * 60 <? total_retry_time o
  then (["Redis retry time exhausted"], GiveUp "Retry time exhausted")
  else if 10 <? attempt o
  then (["Redis max retry attempts reached"], Undefined)
  else ([], RetryIn (Z.min (attempt o * 100) 3000)).

End RetryStrategy.

(** ** src/models/Itinerary.js: the virtual [duration] *)

Module Itinerary.

(** A [Date]: its time value in milliseconds since 1970, at most
    8.64e15 in absolute value ([maxTime]), or an invalid date. *)
Definition maxTime : Z := 8640000000000000.

Inductive Date : Type :=
| Invalid
| Time (ms : Z).

Definition valueOf (d : Date) : number :=
  match d with
  | Invalid => NaN
  | Time ms => Num ms
  end.

(** [a - b] on two dates: the difference of their time values, exact
    for two dates whose difference is a safe integer. *)
Definition minus (a b : Date) : number :=
  match valueOf a, valueOf b with
  | Num x, Num y => Num (x - y)
  | _, _ => NaN
  end.

(** The getter of [duration].  A path of type [Date] holds a date or
    nothing ([None] is [null] or [undefined]); a date is truthy, valid
    or not. *)
Definition duration (startDate endDate : option Date) : number :=
  match startDate, endDate with
  | Some startDate, Some endDate =>
      let diffTime := Math.abs (minus endDate startDate) in
      Math.add (Math.ceil_div diffTime (Num (1000 * 60 * 60 * 24))) 1
  | _, _ => Num 0
  end.

(** [Date.prototype.toJSON]: the text of [toISOString], a day of the
    proleptic Gregorian calendar and a time of day in UTC, with four
    digits for the years 0 to 9999 and a sign and six digits for the
    others; [null] for an invalid date. *)
Fixpoint zeros (n : nat) : string :=
  match n with
  | O => ""
  | S n' => String "0" (zeros n')
  end.

Definition pad (width : nat) (n : Z) : string :=
  let digits := JSON.Number_toString n in
  zeros (width - String.length digits) ++ digits.

(** The year, the month and the day of the month of a day counted from
    1970-01-01. *)
Definition civil (day : Z) : Z * Z * Z :=
  let z := day + 719468 in
  let era := z / 146097 in
  let doe := z - era * 146097 in
  let yoe := (doe - doe / 1460 + doe / 36524 - doe / 146096) / 365 in
  let doy := doe - (365 * yoe + yoe / 4 - yoe / 100) in
  let mp := (5 * doy + 2) / 153 in
  let d := doy - (153 * mp + 2) / 5 + 1 in
  let m := if mp <? 10 then mp + 3 else mp - 9 in
  let y := yoe + era * 400 + (if m <=? 2 then 1 else 0) in
  (y, m, d).

Definition toISOString (ms : Z) : string :=
  let day := ms / 86400000 in
  let t := ms mod 86400000 in
  let '(y, m, d) := civil day in
  let year :=
    if (0 <=? y) && (y <=? 9999) then pad 4 y
    else (if y <? 0 then "-" else "+") ++ pad 6 (Z.abs y) in
  year ++ "-" ++ pad 2 m ++ "-" ++ pad 2 d
  ++ "T" ++ pad 2 (t / 3600000) ++ ":" ++ pad 2 (t / 60000 mod 60)
  ++ ":" ++ pad 2 (t / 1000 mod 60) ++ "." ++ pad 3 (t mod 1000) ++ "Z".

Definition toJSON (d : Date) : value :=
  match d with
  | Invalid => VNull
  | Time ms => VStr (toISOString ms)
  end.

End Itinerary.

(** ** Filter records *)

Module KeyFacts.

(** A property that is not [undefined]. *)
Definition defined (p : string * value) : bool :=
  match snd p with
  | VUndefined => false
  | _ => true
  end.

End KeyFacts.


(** ** The runtime, as the handlers of the lists use it *)

Module JS.

(** [ToBoolean]. *)
Definition truthy (v : value) : bool :=
  match v with
  | VUndefined | VNull => false
  | VBool b => b
  | VNum n => negb (n =? 0)
  | VStr s => negb (String.eqb s "")
  | VArr _ | VObj _ => true
  end.

(** [ToString]: an array writes its elements with commas between them,
    [null] and [undefined] as nothing. *)
Fixpoint ToString (v : value) : string :=
  match v with
  | VUndefined => "undefined"
  | VNull => "null"
  | VBool true => "true"
  | VBool false => "false"
  | VNum n => JSON.Number_toString n
  | VStr s => s
  | VArr l =>
      let element x :=
        match x with
        | VUndefined | VNull => ""
        | _ => ToString x
        end in
      JSON.join "," (List.map element l)
  | VObj _ => "[object Object]"
  end.

(** [o.k] on an object: [undefined] when it has no such property. *)
Fixpoint Get (o : list (string * value)) (k : string) : value :=
  match o with
  | [] => VUndefined
  | (k', v) :: o' => if String.eqb k' k then v else Get o' k
  end.

(** [{ k = dflt } = o]: the default stands for [undefined] only. *)
Definition or_default (v dflt : value) : value :=
  match v with
  | VUndefined => dflt
  | _ => v
  end.

(** The white space [parseInt] skips, among the code units below 256. *)
Definition is_StrWhiteSpaceChar (c : ascii) : bool :=
  let n := N_of_ascii c in
  ((9 <=? n) && (n <=? 13) || (n =? 32) || (n =? 160))%N.

Fixpoint trim_start (s : string) : string :=
  match s with
  | String c s' => if is_StrWhiteSpaceChar c then trim_start s' else s
  | "" => ""
  end.

Definition digit_value (radix : N) (c : ascii) : option N :=
  match JSON.hex_value c with
  | Some n => if (n <? radix)%N then Some n else None
  | None => None
  end.

(** The value of the longest run of digits at the start of [s]; [acc] is
    the value of the digits read so far, [None] when there is none. *)
Fixpoint read_int (radix : N) (acc : option N) (s : string) : option N :=
  match s with
  | "" => acc
  | String c s' =>
      match digit_value radix c with
      | Some n =>
          read_int radix
            (Some (radix * match acc with Some a => a | None => 0 end + n)%N) s'
      | None => acc
      end
  end.

(** [parseInt(string)] with no radix: white space, a sign, [0x] or [0X]
    for base 16, then digits; what follows the digits is ignored, and
    [NaN] is the answer when there is no digit.  The answer is the
    integer the digits write, which is the answer of the code when it
    is a safe integer. *)
Definition parseInt_string (s : string) : number :=
  let s := trim_start s in
  let (negative, s) :=
    match s with
    | String "-" r => (true, r)
    | String "+" r => (false, r)
    | _ => (false, s)
    end in
  let (radix, s) :=
    match s with
    | String "0" (String "x" r) => (16%N, r)
    | String "0" (String "X" r) => (16%N, r)
    | _ => (10%N, s)
    end in
  match read_int radix None s with
  | Some n => Num (if negative : bool then - Z.of_N n else Z.of_N n)
  | None => NaN
  end.

Definition parseInt (v : value) : number := parseInt_string (ToString v).

(** The keys [0], [1], ... of the elements of an array. *)
Fixpoint indexed (i : nat) (l : list value) : list (string * value) :=
  match l with
  | [] => []
  | x :: l' => (JSON.Number_toString (Z.of_nat i), x) :: indexed (S i) l'
  end.

Fixpoint characters (s : string) : list value :=
  match s with
  | "" => []
  | String c s' => VStr (String c "") :: characters s'
  end.

(** [{ success: true, ...source }]: the own enumerable properties of
    [source] are defined on the object one after the other.  An object
    gives its properties, an array and a string their elements under
    the indices, which an object lists before its other keys; a number
    and a boolean give nothing. *)
Definition spread_success (source : value) : list (string * value) :=
  let target := [("success", VBool true)] in
  match source with
  | VObj l => fold_left (fun o p => JSON.CreateDataProperty o (fst p) (snd p)) l target
  | VArr l => indexed 0 l ++ target
  | VStr s => indexed 0 (characters s) ++ target
  | _ => target
  end.

(** A number as [JSON.stringify] writes it: [null] when it is not
    finite. *)
Definition Number_toJSON (n : number) : value :=
  match n with
  | Num z => VNum z
  | _ => VNull
  end.

End JS.

(** ** The queries of the list handlers

    [filters] is the object the handlers pass to [find] and to
    [countDocuments].  The model and the constructor [RegExp] are
    interfaces: a query, and [new RegExp], return or throw. *)

Record Filters (R : Type) : Type := MkFilters {
  filters_userId : option ObjectId;          (* filters.userId *)
  filters_destination : option R;            (* filters.destination *)
  filters_text : option value                (* filters.$text.$search *)
}.
Arguments MkFilters {R} _ _ _.
Arguments filters_userId {R} _.
Arguments filters_destination {R} _.
Arguments filters_text {R} _.

Class ListModel (D R : Type) : Type := {
  (* new RegExp(pattern, flags) *)
  RegExp : string -> string -> outcome R;
  (* Itinerary.find(filters).populate('userId', fields).sort(sortObj)
       .skip(skip).limit(limit).lean(): the documents as JSON.stringify
     writes them *)
  find_lean :
    D -> Filters R -> string -> string * Z -> number -> number
    -> outcome (list value) * D;
  (* Itinerary.countDocuments(filters) *)
  countDocuments : D -> Filters R -> outcome N * D
}.

(** ** The handlers of the lists

    [getItineraries] and [getPublicItineraries] of
    [src/controllers/itineraryController.js]; the copy under
    [src/unnamed/part_000] has the same two handlers. *)

Module ListController.
Import Controller.

Record ListRequest : Type := ListReq {
  req_query : list (string * value);   (* req.query, an object *)
  req_user_id : ObjectId               (* req.user._id *)
}.

(** The variables the handlers take out of [req.query]. *)
Definition page (q : list (string * value)) : value :=
  JS.or_default (JS.Get q "page") (VNum 1).
Definition limit (q : list (string * value)) : value :=
  JS.or_default (JS.Get q "limit") (VNum 10).
Definition sort (q : list (string * value)) : value :=
  JS.or_default (JS.Get q "sort") (VStr "-createdAt").

(** [const cacheKey = { page, limit, sort, status, isPublic, search,
    destination }] of [getItineraries]. *)
Definition cacheKey (q : list (string * value)) : value :=
  VObj [("page", page q); ("limit", limit q); ("sort", sort q);
        ("status", JS.Get q "status"); ("isPublic", JS.Get q "isPublic");
        ("search", JS.Get q "search"); ("destination", JS.Get q "destination")].

(** [const cacheKey = { page, limit, sort, destination, search }] of
    [getPublicItineraries]. *)
Definition public_cacheKey (q : list (string * value)) : value :=
  VObj [("page", page q); ("limit", limit q); ("sort", sort q);
        ("destination", JS.Get q "destination"); ("search", JS.Get q "search")].

(** [(parseInt(page) - 1) * parseInt(limit)]. *)
Definition skip (q : list (string * value)) : number :=
  Math.times (Math.add (JS.parseInt (page q)) (-1)) (JS.parseInt (limit q)).

(** The object [sortObj]: its one key and the direction.  A [sort] that
    is not a string has no method [startsWith]. *)
Definition sortObj (q : list (string * value)) : outcome (string * Z) :=
  match sort q with
  | VStr s =>
      if JSON.starts_with "-" s then Returned (JSON.drop 1 s, -1)
      else Returned (s, 1)
  | VUndefined => Thrown "TypeError: Cannot read properties of undefined"
  | VNull => Thrown "TypeError: Cannot read properties of null"
  | _ => Thrown "TypeError: sort.startsWith is not a function"
  end.

(** The object [result]: the documents found and the pagination. *)
Definition result (q : list (string * value)) (itineraries : list value) (total : N)
  : value :=
  VObj [("itineraries", VArr itineraries);
        ("pagination",
         VObj [("current", JS.Number_toJSON (JS.parseInt (page q)));
               ("pages",
                JS.Number_toJSON (Math.ceil_div (Num (Z.of_N total)) (JS.parseInt (limit q))));
               ("total", VNum (Z.of_N total))])].

Section list_handlers.
Context {C D R : Type} {client : RedisClient C} {model : ListModel D R}.

#[local] Arguments Continue {A} a.
#[local] Arguments Finish {A} r.

Notation "x <- m ;; k" := (hbind m (fun x => k))
  (at level 100, m at next level, right associativity).

(** The object [filters]: [owner] is [req.user._id] in [getItineraries]
    and nothing in [getPublicItineraries]. *)
Definition filters (owner : option ObjectId) (q : list (string * value))
  : Handler (C:=C) (D:=D) (Filters R) :=
  let destination := JS.Get q "destination" in
  let search := JS.Get q "search" in
  destination <-
    (if JS.truthy destination
     then r <- eval (RegExp (JS.ToString destination) "i") ;; eval (Returned (Some r))
     else eval (Returned None)) ;;
  eval (Returned (MkFilters owner destination
                    (if JS.truthy search then Some search else None))).

Definition getItineraries (req : ListRequest) : world C D -> response * world C D :=
  handler (
    let q := req_query req in
    filters <- filters (Some (req_user_id req)) q ;;
    cachedData <- cached (Redis.getCachedItineraryList (hex (req_user_id req)) (cacheKey q)) ;;
    if JS.truthy cachedData
    then respond (Json 200 (VObj (JS.spread_success cachedData)))
    else
      sortObj <- eval (sortObj q) ;;
      itineraries <- query (fun d =>
                       find_lean d filters "name email" sortObj (skip q)
                         (JS.parseInt (limit q))) ;;
      total <- query (fun d => countDocuments d filters) ;;
      _ <- cached (Redis.cacheItineraryList (hex (req_user_id req)) (cacheKey q)
                     (result q itineraries total)) ;;
      respond (Json 200 (VObj (JS.spread_success (result q itineraries total))))).

Definition getPublicItineraries (req : ListRequest) : world C D -> response * world C D :=
  handler (
    let q := req_query req in
    filters <- filters None q ;;
    cachedData <- cached (Redis.getCachedPublicItineraries (public_cacheKey q)) ;;
    if JS.truthy cachedData
    then respond (Json 200 (VObj (JS.spread_success cachedData)))
    else
      sortObj <- eval (sortObj q) ;;
      itineraries <- query (fun d =>
                       find_lean d filters "name" sortObj (skip q)
                         (JS.parseInt (limit q))) ;;
      total <- query (fun d => countDocuments d filters) ;;
      _ <- cached (Redis.cachePublicItineraries (public_cacheKey q)
                     (result q itineraries total)) ;;
      respond (Json 200 (VObj (JS.spread_success (result q itineraries total))))).

End list_handlers.
End ListController.

(** ** src/routes/itineraries.js: the date rule of [validateItinerary]

    The custom validator of [endDate]; its two arguments are the dates
    [new Date(value)] and [new Date(req.body.startDate)].  A comparison
    with an invalid date is false. *)

Module Validation.

Definition le (a b : number) : bool :=
  match a, b with
  | Num x, Num y => x <=? y
  | _, _ => false
  end.

Definition endDate_custom (endDate startDate : Itinerary.Date) : outcome bool :=
  if le (Itinerary.valueOf endDate) (Itinerary.valueOf startDate)
  then Thrown "End date must be after start date"
  else Returned true.

End Validation.

(** ** The handlers of the shared itineraries

    [shareItinerary] and [getSharedItinerary] of
    [src/controllers/itineraryController.js], and [shareItinerary] of the
    copy under [src/unnamed/part_000]. *)

(** A path of type [Date] in a plain document: a date, [null], or
    nothing. *)
Inductive date_path : Type :=
| NoDate
| NullDate
| ADate (d : Itinerary.Date).

(** The document [findById(...).populate('userId', 'name').lean()]
    gives: the paths the handler reads.  [lean_userId] is the user with
    the paths selected, or [None] for [null]. *)
Record Lean : Type := MkLean {
  lean_id : ObjectId;
  lean_title : value;
  lean_destination : value;
  lean_startDate : date_path;
  lean_endDate : date_path;
  lean_activities : value;
  lean_createdAt : date_path;
  lean_updatedAt : date_path;
  lean_userId : option (list (string * value))
}.

Class SharedModel (D : Type) : Type := {
  (* Itinerary.findById(id).populate('userId', 'name').lean() *)
  findById_populate_lean : D -> string -> outcome (option Lean) * D
}.

(** The paths of a document [shareItinerary] reads: [itinerary.title],
    [.destination], [.startDate] and [.endDate] as [res.json] writes
    them, and [itinerary.activities.length]. *)
Class ItineraryPaths (Doc : Type) : Type := {
  doc_title : Doc -> value;
  doc_destination : Doc -> value;
  doc_startDate : Doc -> value;
  doc_endDate : Doc -> value;
  doc_activities_length : Doc -> Z
}.

Module ShareController.
Import Controller.

Record ShareRequest : Type := ShareReq {
  share_id : string;            (* req.params.id, req.params.shareableId *)
  share_user_id : ObjectId;     (* req.user._id *)
  share_protocol : string;      (* req.protocol *)
  share_host : value            (* req.get('host'): a string or undefined *)
}.

(** The value of a date path and whether it is truthy. *)
Definition is_date (p : date_path) : option Itinerary.Date :=
  match p with
  | ADate d => Some d
  | _ => None
  end.

Section share_handlers.
Context {C D Doc : Type} {client : RedisClient C} {model : ItineraryModel D Doc}
  {paths : ItineraryPaths Doc} {shared : SharedModel D}.

#[local] Arguments Continue {A} a.
#[local] Arguments Finish {A} r.

Notation "x <- m ;; k" := (hbind m (fun x => k))
  (at level 100, m at next level, right associativity).

Definition shareUrl (req : ShareRequest) (shareableId : string) : string :=
  share_protocol req ++ "://" ++ JS.ToString (share_host req)
  ++ "/api/itineraries/share/" ++ shareableId.

Definition shareItinerary (req : ShareRequest) : world C D -> response * world C D :=
  handler (
    itinerary <- query (fun d => findById d (share_id req)) ;;
    match itinerary with
    | None => respond (failure 404 "Itinerary not found")
    | Some itinerary =>
        owner <- eval (userId_toString itinerary) ;;
        if negb (String.eqb owner (hex (share_user_id req)))
        then respond (failure 403 "Not authorized to share this itinerary")
        else
          let shareableId := hex (doc_id itinerary) in
          respond (Json 200 (VObj [
            ("success", VBool true);
            ("message", VStr "Itinerary shared successfully");
            ("shareableId", VStr shareableId);
            ("shareUrl", VStr (shareUrl req shareableId));
            ("sharedData", VObj [
               ("title", doc_title itinerary);
               ("destination", doc_destination itinerary);
               ("startDate", doc_startDate itinerary);
               ("endDate", doc_endDate itinerary);
               ("activitiesCount", VNum (doc_activities_length itinerary))])]))
    end).

(** [shareItinerary] as [src/unnamed/part_000] has it; the share code it
    draws with [Math.random] is not used. *)
Definition shareItinerary_part_000 (req : ShareRequest)
  : world C D -> response * world C D :=
  handler (
    itinerary <- query (fun d => findById d (share_id req)) ;;
    match itinerary with
    | None => respond (failure 404 "Itinerary not found")
    | Some itinerary =>
        owner <- eval (userId_toString itinerary) ;;
        if negb (String.eqb owner (hex (share_user_id req)))
        then respond (failure 403 "Not authorized to share this itinerary")
        else
          let shareableId := hex (doc_id itinerary) in
          respond (Json 200 (VObj [
            ("success", VBool true);
            ("shareableId", VStr shareableId);
            ("shareUrl", VStr (shareUrl req shareableId))]))
    end).

Definition date_json (p : date_path) : value :=
  match p with
  | NoDate => VUndefined
  | NullDate => VNull
  | ADate d => Itinerary.toJSON d
  end.

(** The duration [getSharedItinerary] computes for a plain document. *)
Definition shared_duration (itinerary : Lean) : number :=
  match is_date (lean_startDate itinerary), is_date (lean_endDate itinerary) with
  | Some startDate, Some endDate =>
      Math.add
        (Math.ceil_div (Math.abs (Itinerary.minus endDate startDate))
           (Num (1000 * 60 * 60 * 24)))
        1
  | _, _ => Num 0
  end.

Definition sanitizedItinerary (itinerary : Lean) : value :=
  VObj [("_id", VStr (hex (lean_id itinerary)));
        ("title", lean_title itinerary);
        ("destination", lean_destination itinerary);
        ("startDate", date_json (lean_startDate itinerary));
        ("endDate", date_json (lean_endDate itinerary));
        ("activities", lean_activities itinerary);
        ("createdAt", date_json (lean_createdAt itinerary));
        ("updatedAt", date_json (lean_updatedAt itinerary));
        ("duration", JS.Number_toJSON (shared_duration itinerary));
        ("createdBy",
         match lean_userId itinerary with
         | Some user => JS.Get user "name"
         | None => VStr "Unknown"
         end)].

Definition getSharedItinerary (req : ShareRequest) : world C D -> response * world C D :=
  handler (
    itinerary <- query (fun d => findById_populate_lean d (share_id req)) ;;
    match itinerary with
    | None => respond (failure 404 "Shared itinerary not found")
    | Some itinerary =>
        respond (Json 200 (VObj [("success", VBool true);
                                 ("itinerary", sanitizedItinerary itinerary)]))
    end).

End share_handlers.
End ShareController.

(** ** A model with canned answers

    Like the mocks of the tests: every [find] returns the same
    documents, every [countDocuments] the same number, every pattern is
    accepted by [RegExp]; the queries received are kept in order. *)

Module MockItinerary.

Inductive call : Type :=
| Find (filters : Filters string) (fields : string) (sortObj : string * Z)
    (skip limit : number)
| CountDocuments (filters : Filters string).

Record t : Type := Mock {
  documents : list value;
  count : N;
  calls : list call
}.

#[global] Instance model : ListModel t string := {
  RegExp pattern _ := Returned pattern;
  find_lean d filters fields sortObj skip limit :=
    (Returned (documents d),
     Mock (documents d) (count d) (calls d ++ [Find filters fields sortObj skip limit]));
  countDocuments d filters :=
    (Returned (count d),
     Mock (documents d) (count d) (calls d ++ [CountDocuments filters]))
}.

End MockItinerary.

(** The paths of a document of the collection in memory. *)
Module MemMongoPaths.

#[global] Instance paths : ItineraryPaths MemMongo.doc := {
  doc_title x := JS.Get (MemMongo.fields x) "title";
  doc_destination x := JS.Get (MemMongo.fields x) "destination";
  doc_startDate x := JS.Get (MemMongo.fields x) "startDate";
  doc_endDate x := JS.Get (MemMongo.fields x) "endDate";
  doc_activities_length x :=
    match JS.Get (MemMongo.fields x) "activities" with
    | VArr l => Z.of_nat (List.length l)
    | _ => 0
    end
}.

End MemMongoPaths.

(** A model that answers every request for a shared itinerary with the
    same plain document. *)
Module MockShared.

Record t : Type := Mock {
  document : option Lean;
  asked : list string
}.

#[global] Instance shared : SharedModel t := {
  findById_populate_lean d id := (Returned (document d), Mock (document d) (asked d ++ [id]))
}.

End MockShared.

(** A database of two parts: the collection the handlers of one
    itinerary work on, and the answers to the queries of the lists. *)
Module TwoParts.
Section two_parts.
Context {D1 D2 Doc R : Type} {model : ItineraryModel D1 Doc} {lists : ListModel D2 R}.

Definition on_first {A} (q : D1 -> outcome A * D1) (d : D1 * D2) : outcome A * (D1 * D2) :=
  let (r, d1) := q (fst d) in (r, (d1, snd d)).

Definition on_second {A} (q : D2 -> outcome A * D2) (d : D1 * D2) : outcome A * (D1 * D2) :=
  let (r, d2) := q (snd d) in (r, (fst d, d2)).

Definition itineraries : ItineraryModel (D1 * D2) Doc := {|
  findById d id := on_first (fun d1 => findById d1 id) d;
  findById_populate d id := on_first (fun d1 => findById_populate d1 id) d;
  create d body := on_first (fun d1 => create d1 body) d;
  populate d x := on_first (fun d1 => populate d1 x) d;
  findByIdAndUpdate_populate d id body :=
    on_first (fun d1 => findByIdAndUpdate_populate d1 id body) d;
  findByIdAndDelete d id := on_first (fun d1 => findByIdAndDelete d1 id) d;
  doc_id := doc_id;
  userId_toString := userId_toString;
  userId_id_toString := userId_id_toString;
  toJSON := toJSON
|}.

Definition queries : ListModel (D1 * D2) R := {|
  RegExp := RegExp (D:=D2);
  find_lean d filters fields sortObj skip limit :=
    on_second (fun d2 => find_lean d2 filters fields sortObj skip limit) d;
  countDocuments d filters := on_second (fun d2 => countDocuments d2 filters) d
|}.

End two_parts.
End TwoParts.

(** ** src/tests/setup.js: the module as the tests mock it

    [jest.mock('../config/redis', ...)]: each function is a
    [jest.fn().mockResolvedValue(...)], which takes any arguments and
    resolves to the one value given.  The calls jest records are left
    out. *)

Module MockedRedis.
Section mocked.
Context {C : Type}.

Definition connectRedis (REDIS_URL REDIS_PASSWORD : option string) : Redis.M C (option C) :=
  Redis.ret None.
Definition cacheUser (userId : string) (userData : value) : Redis.M C unit :=
  Redis.ret tt.
Definition getCachedUser (userId : string) : Redis.M C value :=
  Redis.ret VNull.
Definition invalidateUserCache (userId : string) : Redis.M C unit :=
  Redis.ret tt.
Definition cacheItinerary (itineraryId : string) (itineraryData : value) : Redis.M C unit :=
  Redis.ret tt.
Definition getCachedItinerary (itineraryId : string) : Redis.M C value :=
  Redis.ret VNull.
Definition invalidateItineraryCache (itineraryId : string) : Redis.M C unit :=
  Redis.ret tt.
Definition cacheItineraryList (userId : string) (filters data : value) : Redis.M C unit :=
  Redis.ret tt.
Definition getCachedItineraryList (userId : string) (filters : value) : Redis.M C value :=
  Redis.ret VNull.
Definition invalidateUserItineraryCaches (userId : string) : Redis.M C unit :=
  Redis.ret tt.
Definition cachePublicItineraries (filters data : value) : Redis.M C unit :=
  Redis.ret tt.
Definition getCachedPublicItineraries (filters : value) : Redis.M C value :=
  Redis.ret VNull.
Definition invalidatePublicItineraryCaches : Redis.M C unit :=
  Redis.ret tt.
Definition cache (key : string) (data : value) (ttl : option Z) : Redis.M C unit :=
  Redis.ret tt.
Definition getCache (key : string) : Redis.M C value :=
  Redis.ret VNull.
Definition deleteCache (key : string) : Redis.M C unit :=
  Redis.ret tt.
Definition closeRedis : Redis.M C unit :=
  Redis.ret tt.

End mocked.
End MockedRedis.

(** ** What a read finds under a key *)

Module Reads.

(** The value a read function returns for the entry of its key: the
    entry parsed, and [null] when there is no entry, when it is empty and
    when [JSON.parse] does not read it: a text that is not of the
    grammar, or one of the two forms outside the values of the model. *)
Definition read_of (entry : option (string * Z)) : value :=
  match entry with
  | Some ("", _) => VNull
  | Some (data, _) =>
      match JSON.parse data with
      | Some v => v
      | None => VNull
      end
  | None => VNull
  end.

(** The cache has nothing to serve under [key]: there is no client, the
    client throws, the key holds nothing or the empty text, what it
    holds is not a text of the JSON grammar, or it is the text of a
    value that is falsy. *)
Definition nothing_to_serve {C : Type} {client : RedisClient C} (st : Redis.state C)
    (key : string) : Prop :=
  match Redis.redisClient st with
  | None => True
  | Some c =>
      match fst (client_get c key) with
      | Thrown _ => True
      | Returned None => True
      | Returned (Some d) =>
          d = "" \/ JSON.well_formed d = false
          \/ exists v, JSON.parse d = Some v /\ JS.truthy v = false
      end
  end.

(** The keys of the two list namespaces, from the serialized filters. *)
Definition list_key (userId : string) (filters : value) : option string :=
  (fun t => "itineraries:" ++ userId ++ ":" ++ Buffer.base64 (Buffer.from t))
    <$> JSON.stringify filters.

Definition public_list_key (filters : value) : option string :=
  (fun t => "public_itineraries:" ++ Buffer.base64 (Buffer.from t))
    <$> JSON.stringify filters.

End Reads.

(** The data of further examples. *)
Module Cases.

(** The key of the first page of the lists of a user whose id has a
    colon in it. *)
Definition colon_user_key : string :=
  Eval vm_compute in
    match Observed.key_of_cacheItineraryList "42:7" (Sample.filters_page 1) with
    | Some k => k
    | None => ""
    end.


(** [GET /api/itineraries] by alice with no query string, and with
    [?limit=5&page=2] in two orders and with one more parameter. *)
Definition first_page : ListController.ListRequest :=
  ListController.ListReq [] Sample.alice.

Definition second_page : ListController.ListRequest :=
  ListController.ListReq [("page", VStr "2"); ("limit", VStr "5")] Sample.alice.

Definition second_page' : ListController.ListRequest :=
  ListController.ListReq [("utm", VStr "x"); ("limit", VStr "5"); ("page", VStr "2")]
    Sample.alice.

(** A collection that answers with the one itinerary of alice. *)
Definition one_trip : MockItinerary.t := MockItinerary.Mock [Sample.stored_trip] 1 [].


(** The payload of the answer to [first_page] from [one_trip]. *)
Definition first_answer : value :=
  Eval vm_compute in
    Sample.payload_of
      (fst (ListController.getItineraries first_page
              (Controller.World (MemRedis.connected Observed.empty) one_trip))).


(** [POST /api/itineraries/<trip>/share] by alice, and the plain
    document of a week in Paris by a user that is known by name. *)
Definition share : ShareController.ShareRequest :=
  ShareController.ShareReq (hex Sample.trip) Sample.alice "https" (VStr "api.example.com").

Definition week : Lean :=
  MkLean Sample.trip (VStr "Paris Trip") (VStr "Paris, France")
    (ADate (Itinerary.Time 1717200000000)) (ADate (Itinerary.Time 1717718400000))
    (VArr []) (ADate (Itinerary.Time 1717000000000)) (ADate (Itinerary.Time 1717000000000))
    (Some [("_id", VStr (hex Sample.alice)); ("name", VStr "John Doe")]).


Definition share_answer : value :=
  Eval vm_compute in
    Sample.payload_of (fst (ShareController.shareItinerary share Sample.world0)).


(** The collection before the [POST] of alice, with the answers to the
    queries of the lists beside it. *)
Definition before_add : MemMongo.t * MockItinerary.t :=
  (MemMongo.DB ∅ [Sample.trip] [], one_trip).

Definition itineraries : ItineraryModel (MemMongo.t * MockItinerary.t) MemMongo.doc :=
  TwoParts.itineraries.

Definition queries : ListModel (MemMongo.t * MockItinerary.t) string :=
  TwoParts.queries.


(** [PUT] and [DELETE /api/itineraries/<trip>] by bob, who does not own
    the itinerary, and what [findById] answers for it. *)
Definition intrude : Controller.Request :=
  Controller.Req (hex Sample.trip) Sample.bob [("title", VStr "Hacked Title")].

Definition found_trip : MemMongo.doc :=
  MemMongo.Doc Sample.trip Sample.alice Sample.paris false.

Definition library_asked : MemMongo.t :=
  MemMongo.logged (MemMongo.FindById (hex Sample.trip)) Sample.library.

(** [GET /api/itineraries?page=1&limit=1] by alice, on a collection
    that counts two itineraries and answers with one. *)
Definition one_of_two : ListController.ListRequest :=
  ListController.ListReq [("page", VStr "1"); ("limit", VStr "1")] Sample.alice.

Definition two_trips : MockItinerary.t := MockItinerary.Mock [Sample.stored_trip] 2 [].

(** The keys of the first page of the lists of alice and of the public
    lists, and a server that holds under each the beginning of an
    envelope, cut short. *)
Definition first_page_key : string :=
  Eval vm_compute in
    match Reads.list_key (hex Sample.alice)
            (ListController.cacheKey (ListController.req_query first_page)) with
    | Some k => k
    | None => ""
    end.

Definition first_public_key : string :=
  Eval vm_compute in
    match Reads.public_list_key
            (ListController.public_cacheKey (ListController.req_query first_page)) with
    | Some k => k
    | None => ""
    end.

Definition cut_short : MemRedis.t :=
  MemRedis.Server
    (<[first_page_key := ("{" ++ JSON.QuoteJSONString "itineraries" ++ ":[", 600)]>
       (<[first_public_key := ("{" ++ JSON.QuoteJSONString "itineraries" ++ ":[", 300)]> ∅))
    [].

(** The payload of the answer to [first_page] on the public lists. *)
Definition first_public_answer : value :=
  Eval vm_compute in
    Sample.payload_of
      (fst (ListController.getPublicItineraries first_page
              (Controller.World (MemRedis.connected Observed.empty) one_trip))).

(** The collection with the itinerary of alice in it, with the answers
    to the queries of the lists beside it, and the payload of a
    deletion. *)
Definition before_change : MemMongo.t * MockItinerary.t := (Sample.library, one_trip).

Definition removed : value :=
  VObj [("success", VBool true); ("message", VStr "Itinerary deleted successfully")].

End Cases.
(** * Facts about the JavaScript runtime *)

Module JSONLemmas.
Import JSON JSONFacts.

Lemma app_cons c s r : String c s ++ r = String c (s ++ r).
Proof. reflexivity. Qed.

Lemma app_nil_l r : "" ++ r = r.
Proof. reflexivity. Qed.

Lemma app_nil_r s : s ++ "" = s.
Proof. induction s as [|c s IH]; [reflexivity|]. rewrite app_cons, IH. reflexivity. Qed.

Lemma app_assoc s t r : (s ++ t) ++ r = s ++ (t ++ r).
Proof.
  induction s as [|c s IH]; [reflexivity|].
  rewrite !app_cons, IH. reflexivity.
Qed.

Lemma length_app s t : String.length (s ++ t) = (String.length s + String.length t)%nat.
Proof.
  induction s as [|c s IH]; [reflexivity|].
  rewrite app_cons. simpl. rewrite IH. reflexivity.
Qed.

Ltac each_ascii c :=
  destruct c as [[] [] [] [] [] [] [] []].

Lemma parse_chars_quote_char c r :
  parse_chars (quote_char c ++ r) =
  match parse_chars r with
  | Some (t, r') => Some (String c t, r')
  | None => None
  end.
Proof. each_ascii c; reflexivity. Qed.

Lemma parse_chars_quote_chars s r :
  parse_chars (quote_chars s ++ String "034" r) = Some (s, r).
Proof.
  induction s as [|c s IH].
  - reflexivity.
  - simpl quote_chars. rewrite app_assoc, parse_chars_quote_char, IH. reflexivity.
Qed.

Lemma read_digits_digits_string d r :
  match r with String c _ => digit_of c = None | "" => True end ->
  read_digits (digits_string d ++ r) = (d, r).
Proof.
  intros Hr. induction d; simpl digits_string; rewrite ?app_cons;
    try (simpl read_digits; rewrite IHd; reflexivity).
  rewrite app_nil_l. destruct r as [|c r]; [reflexivity|].
  simpl. rewrite Hr. reflexivity.
Qed.

Lemma unorm_int_grammar d : Decimal.unorm d = d -> int_grammar d = true.
Proof.
  destruct d as [|d| | | | | | | | |]; try reflexivity; [discriminate|].
  intros H. destruct d as [|d| | | | | | | | |]; [reflexivity|exfalso..];
    rewrite DecimalFacts.unorm_D0 in H;
    apply (f_equal Decimal.nb_digits) in H;
    match type of H with
    | Decimal.nb_digits (Decimal.unorm ?x) = _ =>
        assert (x <> Nil) as Hx by discriminate;
        pose proof (DecimalFacts.nb_digits_unorm x Hx) as Hle
    end;
    rewrite H in Hle; simpl in Hle; lia.
Qed.

Lemma unorm_to_uint p : Decimal.unorm (Pos.to_uint p) = Pos.to_uint p.
Proof.
  rewrite <- (DecimalPos.Unsigned.to_of (Pos.to_uint p)).
  rewrite DecimalPos.Unsigned.of_to. reflexivity.
Qed.

Lemma digits_string_nonnil d r :
  d <> Nil -> exists c s, digits_string d ++ r = String c s /\ digit_of c <> None.
Proof.
  destruct d; intros H; try congruence; simpl digits_string; rewrite app_cons;
    eexists _, _; (split; [reflexivity|discriminate]).
Qed.

Lemma parse_number_toString n r :
  continues_number r = false ->
  parse_number (Number_toString n ++ r) = Some (VNum n, r).
Proof.
  intros Hr.
  assert (Hd : match r with String c _ => digit_of c = None | "" => True end).
  { destruct r as [|c r]; [exact I|]. simpl in Hr.
    apply orb_false_elim in Hr as [Hr _].
    apply bool_decide_eq_false in Hr. destruct (digit_of c); [|reflexivity].
    exfalso. apply Hr. discriminate. }
  assert (Hf : starts_fraction r = false).
  { destruct r as [|c r]; [reflexivity|]. simpl in Hr.
    apply orb_false_elim in Hr as [_ Hr]. exact Hr. }
  unfold Number_toString.
  pose proof (DecimalZ.of_to n) as Hn.
  destruct (Z.to_int n) as [d|d] eqn:E.
  - assert (Hg : int_grammar d = true).
    { destruct n as [|p|p]; simpl in E; inversion E; subst.
      - reflexivity.
      - apply unorm_int_grammar, unorm_to_uint. }
    assert (Hnil : d <> Nil) by (intros ->; discriminate).
    destruct (digits_string_nonnil d r Hnil) as (c & s & Hs & Hc).
    unfold parse_number.
    assert (Hm : (match digits_string d ++ r with
                 | String "-" s' => (true, s')
                 | _ => (false, digits_string d ++ r)
                 end) = (false, digits_string d ++ r)).
    { rewrite Hs. clear - Hc. each_ascii c; try reflexivity. exfalso. apply Hc. reflexivity. }
    rewrite Hm, read_digits_digits_string, Hg, Hf by exact Hd.
    simpl andb. cbv iota. rewrite Hn. reflexivity.
  - assert (Hg : int_grammar d = true).
    { destruct n as [|p|p]; simpl in E; inversion E; subst.
      apply unorm_int_grammar, unorm_to_uint. }
    rewrite app_cons. unfold parse_number.
    rewrite read_digits_digits_string, Hg, Hf by exact Hd.
    simpl andb. cbv iota. rewrite Hn. reflexivity.
Qed.

Lemma Number_toString_start n r :
  exists c s, Number_toString n ++ r = String c s /\ (digit_of c <> None \/ c = "-"%char).
Proof.
  unfold Number_toString. destruct (Z.to_int n) as [d|d] eqn:E.
  - assert (Hnil : d <> Nil).
    { intros ->. destruct n; simpl in E; inversion E.
      eapply DecimalPos.Unsigned.to_uint_nonnil; eauto. }
    destruct (digits_string_nonnil d r Hnil) as (c & s & Hs & Hc). eauto.
  - rewrite app_cons. eauto.
Qed.

Lemma text_start v r : exists c s, text v ++ r = String c s /\ value_start c = true.
Proof.
  destruct v as [| |[]|n|s|l|l]; try (eexists _, _; split; reflexivity).
  destruct (Number_toString_start n r) as (c & s & Hs & Hc).
  exists c, s. split; [exact Hs|].
  unfold value_start. destruct Hc as [Hc| ->]; [|reflexivity].
  destruct (digit_of c); [reflexivity|congruence].
Qed.

Lemma parse_value_number f c s :
  digit_of c <> None \/ c = "-"%char ->
  parse_value (S f) (String c s) = parse_number (String c s).
Proof.
  intros [H| ->]; [|reflexivity].
  each_ascii c; try reflexivity; exfalso; apply H; reflexivity.
Qed.

Lemma parse_value_array f c s :
  value_start c = true ->
  parse_value (S f) (String "[" (String c s)) =
  match parse_elements f (String c s) with
  | Some (l, r') => Some (VArr l, r')
  | None => None
  end.
Proof. intros H. each_ascii c; try discriminate H; reflexivity. Qed.

Lemma parse_value_object f s :
  parse_value (S f) (String "{" (String "034" s)) =
  match parse_members f (String "034" s) with
  | Some (l, r') => Some (VObj l, r')
  | None => None
  end.
Proof. reflexivity. Qed.

Lemma delimited_continues r : delimited r = true -> continues_number r = false.
Proof.
  destruct r as [|c r]; [reflexivity|]. simpl. intros H.
  each_ascii c; try discriminate H; reflexivity.
Qed.

Lemma parse_elements_S fuel s :
  parse_elements (S fuel) s =
  match parse_value fuel s with
  | Some (v, r) =>
      let t := skip_ws r in
      if starts_with "," t then
        match parse_elements fuel (drop 1 t) with
        | Some (l, r') => Some (v :: l, r')
        | None => None
        end
      else if starts_with "]" t then Some ([v], drop 1 t)
      else None
  | None => None
  end.
Proof. reflexivity. Qed.

Lemma parse_members_S fuel k s :
  parse_members (S fuel) (QuoteJSONString k ++ s) =
  if starts_with ":" (skip_ws s) then
    match parse_value fuel (drop 1 (skip_ws s)) with
    | Some (v, r3) =>
        let t := skip_ws r3 in
        if starts_with "," t then
          match parse_members fuel (drop 1 t) with
          | Some (l, r5) => Some ((k, v) :: l, r5)
          | None => None
          end
        else if starts_with "}" t then Some ([(k, v)], drop 1 t)
        else None
    | None => None
    end
  else None.
Proof.
  unfold QuoteJSONString. rewrite app_cons, app_assoc, app_cons, app_nil_l.
  simpl. rewrite parse_chars_quote_chars. reflexivity.
Qed.

Lemma parse_elements_text l :
  l <> [] -> Forall parses_back l ->
  forall fuel r, (list_sum (List.map (fun x => S (size x)) l) <= fuel)%nat ->
    parse_elements fuel (join "," (List.map text l) ++ String "]" r) = Some (l, r).
Proof.
  intros Hne Hall. induction Hall as [|x l Hx Hall IH]; [congruence|].
  intros fuel r Hfuel. simpl in Hfuel.
  destruct fuel as [|fuel]; [lia|].
  rewrite parse_elements_S. destruct l as [|y l].
  - simpl join. rewrite Hx by (reflexivity || lia). reflexivity.
  - change (join "," (List.map text (x :: y :: l)))
      with (text x ++ "," ++ join "," (List.map text (y :: l))).
    rewrite !app_assoc, app_cons, app_nil_l.
    rewrite Hx by (reflexivity || lia).
    cbn [skip_ws is_ws starts_with drop]. cbv zeta.
    change (starts_with "," (String "," ?t)) with true. cbv iota.
    rewrite IH by (congruence || (simpl in *; lia)). reflexivity.
Qed.

Lemma parse_members_text l :
  l <> [] -> Forall (fun p => parses_back (snd p)) l ->
  forall fuel r, (list_sum (List.map (fun p => S (size (snd p))) l) <= fuel)%nat ->
    parse_members fuel (join "," (List.map member_text l) ++ String "}" r) = Some (l, r).
Proof.
  intros Hne Hall. induction Hall as [|[k x] l Hx Hall IH]; [congruence|].
  intros fuel r Hfuel. simpl in Hfuel, Hx.
  destruct fuel as [|fuel]; [lia|].
  destruct l as [|q l].
  - simpl join. unfold member_text. simpl fst; simpl snd.
    rewrite !app_assoc, parse_members_S, app_cons, app_nil_l.
    change (skip_ws (String ":" ?t)) with (String ":" t).
    change (starts_with ":" (String ":" ?t)) with true. cbv iota.
    change (drop 1 (String ":" ?t)) with t.
    rewrite Hx by (reflexivity || lia). reflexivity.
  - change (join "," (List.map member_text ((k, x) :: q :: l)))
      with (member_text (k, x) ++ "," ++ join "," (List.map member_text (q :: l))).
    unfold member_text at 1. simpl fst; simpl snd.
    rewrite !app_assoc, parse_members_S, !app_cons, !app_nil_l.
    change (skip_ws (String ":" ?t)) with (String ":" t).
    change (starts_with ":" (String ":" ?t)) with true. cbv iota.
    change (drop 1 (String ":" ?t)) with t.
    rewrite Hx by (reflexivity || lia).
    cbv zeta. change (skip_ws (String "," ?t)) with (String "," t).
    change (starts_with "," (String "," ?t)) with true. cbv iota.
    change (drop 1 (String "," ?t)) with t.
    rewrite IH by (congruence || (simpl in *; lia)). reflexivity.
Qed.

Lemma representable_stringify v :
  representable v = true -> stringify v = Some (text v).
Proof. destruct v as [| |[]| | | |]; (discriminate || reflexivity). Qed.

Lemma text_arr l : text (VArr l) = "[" ++ join "," (List.map text l) ++ "]".
Proof. reflexivity. Qed.

Lemma text_obj l :
  forallb (fun p => representable (snd p)) l = true ->
  text (VObj l) = "{" ++ join "," (List.map member_text l) ++ "}".
Proof.
  intros H. unfold text. simpl. do 3 f_equal.
  induction l as [|[k x] l IH]; [reflexivity|].
  simpl in H. apply andb_prop in H as [Hx Hl]. simpl.
  rewrite IH by exact Hl. unfold member_text at 2. simpl.
  unfold text. destruct x as [| |[]| | | |]; try discriminate Hx; reflexivity.
Qed.

Lemma forallb_Forall_imp {A} (f : A -> bool) (P : A -> Prop) l :
  Forall (fun x => f x = true -> P x) l -> forallb f l = true -> Forall P l.
Proof.
  induction 1 as [|x l Hx _ IH]; simpl; [constructor|].
  intros H. apply andb_prop in H as [H1 H2]. constructor; auto.
Qed.

Lemma representable_parses_back v : representable v = true -> parses_back v.
Proof.
  induction v as [| |b|n|s|l IH|l IH] using value_nested_ind; intros Hv fuel r Hfuel Hr;
    (destruct fuel as [|fuel]; [simpl in Hfuel; lia|]).
  - discriminate.
  - reflexivity.
  - destruct b; reflexivity.
  - destruct (Number_toString_start n r) as (c & s & Hs & Hc).
    change (text (VNum n)) with (Number_toString n).
    rewrite Hs, parse_value_number by exact Hc. rewrite <- Hs.
    apply parse_number_toString, delimited_continues, Hr.
  - change (text (VStr s)) with (QuoteJSONString s). unfold QuoteJSONString.
    rewrite app_cons, app_assoc, app_cons, app_nil_l.
    simpl. rewrite parse_chars_quote_chars. reflexivity.
  - simpl in Hv, Hfuel. rewrite text_arr.
    destruct l as [|x l]; [reflexivity|].
    assert (Hall : Forall parses_back (x :: l)) by (eapply forallb_Forall_imp; eauto).
    pose proof (parse_elements_text (x :: l) ltac:(congruence) Hall fuel r) as He.
    assert (Hq : exists c s, join "," (List.map text (x :: l)) ++ String "]" r = String c s
                             /\ value_start c = true).
    { destruct l as [|y l].
      - apply text_start.
      - change (join "," (List.map text (x :: y :: l)))
          with (text x ++ "," ++ join "," (List.map text (y :: l))).
        rewrite app_assoc. apply text_start. }
    destruct Hq as (c & s & Hs & Hc).
    rewrite app_assoc, app_cons, app_nil_l, app_assoc, app_cons, app_nil_l.
    rewrite Hs in *. rewrite parse_value_array by exact Hc.
    rewrite He by (simpl in *; lia). reflexivity.
  - simpl in Hv, Hfuel. apply andb_prop in Hv as [Hv _]. rewrite text_obj by exact Hv.
    destruct l as [|[k x] l]; [reflexivity|].
    rewrite app_assoc, app_cons, app_nil_l, app_assoc, app_cons, app_nil_l.
    assert (Hall : Forall (fun p => parses_back (snd p)) ((k, x) :: l)).
    { eapply (forallb_Forall_imp (fun p => representable (snd p))); eauto. }
    pose proof (parse_members_text ((k, x) :: l) ltac:(congruence) Hall fuel r) as He.
    assert (Hq : exists s, join "," (List.map member_text ((k, x) :: l)) ++ String "}" r
                           = String "034" s).
    { destruct l; simpl join; unfold member_text at 1, QuoteJSONString;
        rewrite ?app_cons; eauto. }
    destruct Hq as (s & Hs). rewrite Hs in *.
    rewrite parse_value_object, He by (simpl in *; lia). reflexivity.
Qed.

Lemma CreateDataProperty_fresh o k v :
  existsb (String.eqb k) (List.map fst o) = false ->
  CreateDataProperty o k v = (o ++ [(k, v)])%list.
Proof.
  induction o as [|[k' v'] o IH]; simpl; [reflexivity|].
  intros H. apply orb_false_elim in H as [Hk Ho].
  rewrite String.eqb_sym, Hk, IH by exact Ho. reflexivity.
Qed.

Lemma define_all (l : list (string * value)) : forall acc,
  distinct (List.map fst l) = true ->
  (forall k, existsb (String.eqb k) (List.map fst acc) = true ->
             existsb (String.eqb k) (List.map fst l) = false) ->
  fold_left (fun o p => CreateDataProperty o (fst p) (snd p)) l acc = (acc ++ l)%list.
Proof.
  induction l as [|[k v] l IH]; intros acc Hd Hacc; simpl.
  - rewrite List.app_nil_r. reflexivity.
  - simpl in Hd. apply andb_prop in Hd as [Hk Hd]. apply negb_true_iff in Hk.
    rewrite CreateDataProperty_fresh.
    + rewrite IH; [rewrite <- List.app_assoc; reflexivity|exact Hd|].
      intros k' Hk'. rewrite List.map_app, existsb_app in Hk'. simpl in Hk'.
      apply orb_prop in Hk' as [Hk'|Hk'].
      * specialize (Hacc k' Hk'). simpl in Hacc.
        apply orb_false_elim in Hacc as [_ Hacc]. exact Hacc.
      * rewrite orb_false_r in Hk'. apply String.eqb_eq in Hk'. subst k'. exact Hk.
    + destruct (existsb (String.eqb k) (List.map fst acc)) eqn:E; [|reflexivity].
      specialize (Hacc k E). simpl in Hacc. rewrite String.eqb_refl in Hacc. discriminate.
Qed.

Lemma representable_internalize v : representable v = true -> internalize v = v.
Proof.
  induction v as [| |b|n|s|l IH|l IH] using value_nested_ind; intros Hv;
    try reflexivity; simpl in *.
  - f_equal. induction IH as [|x l Hx _ IHl]; [reflexivity|].
    simpl in Hv. apply andb_prop in Hv as [H1 H2]. simpl. f_equal; auto.
  - apply andb_prop in Hv as [Hv Hd]. f_equal.
    transitivity (fold_left (fun o p => CreateDataProperty o (fst p) (snd p)) l []).
    + generalize (@nil (string * value)).
      induction IH as [|[k x] l Hx _ IHl]; intros acc; [reflexivity|].
      simpl in Hv, Hd, Hx |- *. apply andb_prop in Hv as [H1 H2].
      apply andb_prop in Hd as [_ Hd].
      rewrite Hx by exact H1. apply IHl; assumption.
    + rewrite define_all; [reflexivity|exact Hd|]. intros k Hk. discriminate Hk.
Qed.

Lemma text_nonempty v : (1 <= String.length (text v))%nat.
Proof.
  destruct (text_start v "") as (c & s & Hs & _). rewrite app_nil_r in Hs.
  rewrite Hs. simpl. lia.
Qed.

Lemma size_join_text l :
  Forall (fun x => (size x <= String.length (text x))%nat) l ->
  (list_sum (List.map (fun x => S (size x)) l)
   <= S (String.length (join "," (List.map text l))))%nat.
Proof.
  induction 1 as [|x l Hx Hl IH]; [simpl; lia|].
  destruct l as [|y l]; [simpl in *; lia|].
  change (join "," (List.map text (x :: y :: l)))
    with (text x ++ "," ++ join "," (List.map text (y :: l))).
  rewrite !length_app. simpl in *. lia.
Qed.

Lemma size_join_member_text l :
  Forall (fun p => (size (snd p) <= String.length (text (snd p)))%nat) l ->
  (list_sum (List.map (fun p => S (size (snd p))) l)
   <= S (String.length (join "," (List.map member_text l))))%nat.
Proof.
  induction 1 as [|[k x] l Hx Hl IH]; [simpl; lia|].
  destruct l as [|q l].
  - simpl in *. unfold member_text. rewrite !length_app. simpl. lia.
  - change (join "," (List.map member_text ((k, x) :: q :: l)))
      with (member_text (k, x) ++ "," ++ join "," (List.map member_text (q :: l))).
    unfold member_text at 1. rewrite !length_app. simpl in *. lia.
Qed.

Lemma representable_size v :
  representable v = true -> (size v <= String.length (text v))%nat.
Proof.
  induction v as [| |b|n|s|l IH|l IH] using value_nested_ind; intros Hv;
    try apply text_nonempty.
  - simpl in Hv. rewrite text_arr, !length_app.
    assert (Hall : Forall (fun x => (size x <= String.length (text x))%nat) l)
      by (eapply forallb_Forall_imp; eauto).
    pose proof (size_join_text l Hall). simpl in *. lia.
  - simpl in Hv. apply andb_prop in Hv as [Hv _].
    rewrite text_obj, !length_app by exact Hv.
    assert (Hall : Forall (fun p => (size (snd p) <= String.length (text (snd p)))%nat) l).
    { eapply (forallb_Forall_imp (fun p => representable (snd p))); eauto. }
    pose proof (size_join_member_text l Hall). simpl in *. lia.
Qed.

(** [JSON.parse] reads back what [JSON.stringify] wrote. *)
Lemma parse_stringify v :
  representable v = true ->
  exists t, stringify v = Some t /\ t <> "" /\ parse t = Some v.
Proof.
  intros Hv. exists (text v). split; [apply representable_stringify, Hv|]. split.
  { pose proof (text_nonempty v). destruct (text v); [simpl in *; lia|discriminate]. }
  unfold parse.
  pose proof (representable_parses_back v Hv (S (String.length (text v))) "") as Hp.
  rewrite app_nil_r in Hp. rewrite Hp.
  - simpl. rewrite representable_internalize by exact Hv. reflexivity.
  - pose proof (representable_size v Hv). lia.
  - reflexivity.
Qed.

End JSONLemmas.

(** * The counter of the parser *)

Module JSONFuel.
Import JSON JSONFacts JSONLemmas.

Lemma skip_ws_length s : (String.length (skip_ws s) <= String.length s)%nat.
Proof.
  induction s as [|c s IH]; simpl; [lia|].
  destruct (is_ws c); simpl; lia.
Qed.

Lemma drop_1_length c t : drop 1 (String c t) = t.
Proof. reflexivity. Qed.

Lemma starts_with_length p t :
  starts_with p t = true ->
  (String.length (drop (String.length p) t) + String.length p = String.length t)%nat.
Proof.
  revert t. induction p as [|a p IH]; intros t H; simpl in *; [destruct t; simpl; lia|].
  destruct t as [|b t]; [discriminate|].
  apply andb_prop in H as [_ H]. specialize (IH t H). simpl. lia.
Qed.

Lemma parse_chars_length s x r :
  parse_chars s = Some (x, r) -> (String.length r < String.length s)%nat.
Proof.
  remember (String.length s) as n eqn:Hn. revert s x r Hn.
  induction n as [n IH] using lt_wf_ind. intros s x r Hn H.
  destruct s as [|c s]; [discriminate|]. simpl in Hn.
  cbn [parse_chars] in H.
  destruct (Ascii.eqb c "034"); [injection H as _ <-; simpl; lia|].
  destruct (Ascii.eqb c "\").
  - destruct s as [|e s]; [discriminate|].
    assert (Hu : forall y q, parse_chars s = Some (y, q) ->
                             (String.length q < String.length s)%nat).
    { intros y q Hq. eapply (IH (String.length s)); [simpl in Hn; lia|reflexivity|exact Hq]. }
    assert (Hgen :
      match unescape e with
      | Some c' =>
          match parse_chars s with
          | Some (t, r0) => Some (String c' t, r0)
          | None => None
          end
      | None => None
      end = Some (x, r) -> (String.length r < n)%nat).
    { destruct (unescape e); [|discriminate].
      destruct (parse_chars s) as [[y q]|] eqn:E; [|discriminate].
      intros Hx. injection Hx as _ <-. specialize (Hu _ _ eq_refl). simpl in Hn. lia. }
    destruct (Ascii.eqb e "u") eqn:Eu.
    + apply Ascii.eqb_eq in Eu. subst e.
      destruct s as [|h1 [|h2 [|h3 [|h4 s4]]]]; try (apply Hgen; exact H).
      destruct (hex4 h1 h2 h3 h4); [|discriminate].
      destruct (_ <? _)%N; [|discriminate].
      destruct (parse_chars s4) as [[y q]|] eqn:E; [|discriminate].
      injection H as _ <-.
      apply (IH (String.length s4)) in E; [|simpl in Hn; lia|reflexivity].
      simpl in Hn. lia.
    + apply Hgen. revert H. clear - Eu.
      destruct e as [[] [] [] [] [] [] [] []]; try discriminate Eu; exact (fun H => H).
  - destruct (_ <? _)%N; [discriminate|].
    destruct (parse_chars s) as [[y q]|] eqn:E; [|discriminate].
    injection H as _ <-.
    apply (IH (String.length s)) in E; [|lia|reflexivity]. lia.
Qed.

Lemma read_digits_length s :
  (String.length (snd (read_digits s)) <= String.length s)%nat
  /\ (fst (read_digits s) <> Nil ->
      (String.length (snd (read_digits s)) < String.length s)%nat).
Proof.
  induction s as [|c s [IH1 IH2]]; simpl; [split; [lia|congruence]|].
  destruct (digit_of c) as [D|]; [|simpl; split; [lia|congruence]].
  destruct (read_digits s) as [d r]. simpl in *. split; intros; lia.
Qed.

Lemma parse_number_length s v r :
  parse_number s = Some (v, r) -> (String.length r < String.length s)%nat.
Proof.
  unfold parse_number.
  set (p := match s with String "-" s' => (true, s') | _ => (false, s) end).
  assert (Hp : (String.length (snd p) <= String.length s)%nat).
  { subst p. destruct s as [|c s]; [simpl; lia|].
    each_ascii c; simpl; lia. }
  destruct p as [negative s']. simpl in Hp.
  pose proof (read_digits_length s') as [H1 H2].
  destruct (read_digits s') as [d r']. simpl in *.
  destruct (int_grammar d) eqn:Hg; [|discriminate].
  destruct (negb (starts_fraction r')); [|discriminate].
  simpl. intros H. injection H as _ <-.
  assert (d <> Nil) by (intros ->; discriminate). specialize (H2 ltac:(assumption)). lia.
Qed.

Lemma parse_value_S fuel s :
  parse_value (S fuel) s =
  let t := skip_ws s in
  if starts_with "null" t then Some (VNull, drop 4 t)
  else if starts_with "true" t then Some (VBool true, drop 4 t)
  else if starts_with "false" t then Some (VBool false, drop 5 t)
  else
    match t with
    | "" => None
    | String c r =>
        if Ascii.eqb c "034" then
          match parse_chars r with
          | Some (x, r') => Some (VStr x, r')
          | None => None
          end
        else if Ascii.eqb c "[" then
          if starts_with "]" (skip_ws r) then Some (VArr [], drop 1 (skip_ws r))
          else
            match parse_elements fuel r with
            | Some (l, r') => Some (VArr l, r')
            | None => None
            end
        else if Ascii.eqb c "{" then
          if starts_with "}" (skip_ws r) then Some (VObj [], drop 1 (skip_ws r))
          else
            match parse_members fuel r with
            | Some (l, r') => Some (VObj l, r')
            | None => None
            end
        else parse_number t
    end.
Proof. reflexivity. Qed.

Lemma parse_members_S' fuel s :
  parse_members (S fuel) s =
  match skip_ws s with
  | "" => None
  | String c r =>
      if Ascii.eqb c "034" then
        match parse_chars r with
        | Some (k, r1) =>
            if starts_with ":" (skip_ws r1) then
              match parse_value fuel (drop 1 (skip_ws r1)) with
              | Some (v, r3) =>
                  let t := skip_ws r3 in
                  if starts_with "," t then
                    match parse_members fuel (drop 1 t) with
                    | Some (l, r5) => Some ((k, v) :: l, r5)
                    | None => None
                    end
                  else if starts_with "}" t then Some ([(k, v)], drop 1 t)
                  else None
              | None => None
              end
            else None
        | None => None
        end
      else None
  end.
Proof. reflexivity. Qed.

Ltac need_fuel f :=
  destruct f as [|f]; [cbn [drop String.length] in *; lia|].

Lemma enough_step fuel :
  enough parse_value fuel /\ enough parse_elements fuel /\ enough parse_members fuel.
Proof.
  unfold enough.
  induction fuel as [|fuel (IHv & IHe & IHm)];
    [split; [|split]; intros s a r H; discriminate H|].
  assert (Hdrop1 : forall p t, starts_with (String p "") t = true ->
            (S (String.length (drop 1 t)) = String.length t)%nat).
  { intros p t H. pose proof (starts_with_length _ _ H). simpl in *. lia. }
  split; [|split]; intros s a r H.
  - rewrite parse_value_S in H. cbv zeta in H.
    pose proof (skip_ws_length s) as Hws.
    destruct (starts_with "null" (skip_ws s)) eqn:E1.
    { injection H as <- <-. pose proof (starts_with_length _ _ E1) as Hl. simpl in Hl.
      split; [cbn [drop] in *; lia|]. intros f' Hf'. need_fuel f'.
      rewrite parse_value_S. cbv zeta. rewrite E1. reflexivity. }
    destruct (starts_with "true" (skip_ws s)) eqn:E2.
    { injection H as <- <-. pose proof (starts_with_length _ _ E2) as Hl. simpl in Hl.
      split; [cbn [drop] in *; lia|]. intros f' Hf'. need_fuel f'.
      rewrite parse_value_S. cbv zeta. rewrite E1, E2. reflexivity. }
    destruct (starts_with "false" (skip_ws s)) eqn:E3.
    { injection H as <- <-. pose proof (starts_with_length _ _ E3) as Hl. simpl in Hl.
      split; [cbn [drop] in *; lia|]. intros f' Hf'. need_fuel f'.
      rewrite parse_value_S. cbv zeta. rewrite E1, E2, E3. reflexivity. }
    destruct (skip_ws s) as [|c t] eqn:Et; [discriminate|]. simpl in Hws.
    destruct (Ascii.eqb c "034") eqn:E4.
    { destruct (parse_chars t) as [[x r']|] eqn:Ec; [|discriminate].
      injection H as <- <-. apply parse_chars_length in Ec as Hl.
      split; [cbn [drop] in *; lia|]. intros f' Hf'. need_fuel f'.
      rewrite parse_value_S. cbv zeta. rewrite Et, E1, E2, E3, E4, Ec. reflexivity. }
    destruct (Ascii.eqb c "[") eqn:E5.
    { pose proof (skip_ws_length t) as Hwt.
      destruct (starts_with "]" (skip_ws t)) eqn:E6.
      - injection H as <- <-. pose proof (Hdrop1 _ _ E6) as Hl.
        split; [cbn [drop] in *; lia|]. intros f' Hf'. need_fuel f'.
        rewrite parse_value_S. cbv zeta. rewrite Et, E1, E2, E3, E4, E5, E6. reflexivity.
      - destruct (parse_elements fuel t) as [[l r']|] eqn:Ee; [|discriminate].
        injection H as <- <-. destruct (IHe _ _ _ Ee) as [Hl Hmore].
        split; [cbn [drop] in *; lia|]. intros f' Hf'. need_fuel f'.
        rewrite parse_value_S. cbv zeta. rewrite Et, E1, E2, E3, E4, E5, E6.
        rewrite Hmore by (cbn [drop] in *; lia). reflexivity. }
    destruct (Ascii.eqb c "{") eqn:E7.
    { pose proof (skip_ws_length t) as Hwt.
      destruct (starts_with "}" (skip_ws t)) eqn:E6.
      - injection H as <- <-. pose proof (Hdrop1 _ _ E6) as Hl.
        split; [cbn [drop] in *; lia|]. intros f' Hf'. need_fuel f'.
        rewrite parse_value_S. cbv zeta. rewrite Et, E1, E2, E3, E4, E5, E7, E6. reflexivity.
      - destruct (parse_members fuel t) as [[l r']|] eqn:Ee; [|discriminate].
        injection H as <- <-. destruct (IHm _ _ _ Ee) as [Hl Hmore].
        split; [cbn [drop] in *; lia|]. intros f' Hf'. need_fuel f'.
        rewrite parse_value_S. cbv zeta. rewrite Et, E1, E2, E3, E4, E5, E7, E6.
        rewrite Hmore by (cbn [drop] in *; lia). reflexivity. }
    apply parse_number_length in H as Hl. simpl in Hl.
    split; [cbn [drop] in *; lia|]. intros f' Hf'. need_fuel f'.
    rewrite parse_value_S. cbv zeta. rewrite Et, E1, E2, E3, E4, E5, E7. exact H.
  - rewrite parse_elements_S in H.
    destruct (parse_value fuel s) as [[v r1]|] eqn:Ev; [|discriminate].
    destruct (IHv _ _ _ Ev) as [Hl1 Hmore1]. cbv zeta in H.
    pose proof (skip_ws_length r1) as Hws.
    destruct (starts_with "," (skip_ws r1)) eqn:E1.
    { destruct (parse_elements fuel (drop 1 (skip_ws r1))) as [[l r']|] eqn:Ee; [|discriminate].
      injection H as <- <-. destruct (IHe _ _ _ Ee) as [Hl2 Hmore2].
      pose proof (Hdrop1 _ _ E1) as Hd.
      split; [cbn [drop] in *; lia|]. intros f' Hf'. need_fuel f'.
      rewrite parse_elements_S, Hmore1 by (cbn [drop] in *; lia). cbv zeta. rewrite E1, Hmore2 by (cbn [drop] in *; lia).
      reflexivity. }
    destruct (starts_with "]" (skip_ws r1)) eqn:E2; [|discriminate].
    injection H as <- <-. pose proof (Hdrop1 _ _ E2) as Hd.
    split; [cbn [drop] in *; lia|]. intros f' Hf'. need_fuel f'.
    rewrite parse_elements_S, Hmore1 by (cbn [drop] in *; lia). cbv zeta. rewrite E1, E2. reflexivity.
  - rewrite parse_members_S' in H.
    pose proof (skip_ws_length s) as Hws.
    destruct (skip_ws s) as [|c t] eqn:Et; [discriminate|]. simpl in Hws.
    destruct (Ascii.eqb c "034") eqn:E0; [|discriminate].
    destruct (parse_chars t) as [[k r1]|] eqn:Ec; [|discriminate].
    apply parse_chars_length in Ec as Hlc.
    pose proof (skip_ws_length r1) as Hw1.
    destruct (starts_with ":" (skip_ws r1)) eqn:E1; [|discriminate].
    pose proof (Hdrop1 _ _ E1) as Hd1.
    destruct (parse_value fuel (drop 1 (skip_ws r1))) as [[v r3]|] eqn:Ev; [|discriminate].
    destruct (IHv _ _ _ Ev) as [Hl1 Hmore1]. cbv zeta in H.
    pose proof (skip_ws_length r3) as Hw3.
    destruct (starts_with "," (skip_ws r3)) eqn:E2.
    { destruct (parse_members fuel (drop 1 (skip_ws r3))) as [[l r']|] eqn:Ee; [|discriminate].
      injection H as <- <-. destruct (IHm _ _ _ Ee) as [Hl2 Hmore2].
      pose proof (Hdrop1 _ _ E2) as Hd.
      split; [cbn [drop] in *; lia|]. intros f' Hf'. need_fuel f'.
      rewrite parse_members_S', Et, E0, Ec, E1, Hmore1 by (cbn [drop] in *; lia). cbv zeta.
      rewrite E2, Hmore2 by (cbn [drop] in *; lia). reflexivity. }
    destruct (starts_with "}" (skip_ws r3)) eqn:E3; [|discriminate].
    injection H as <- <-. pose proof (Hdrop1 _ _ E3) as Hd.
    split; [cbn [drop] in *; lia|]. intros f' Hf'. need_fuel f'.
    rewrite parse_members_S', Et, E0, Ec, E1, Hmore1 by (cbn [drop] in *; lia). cbv zeta.
    rewrite E2, E3. reflexivity.
Qed.

(** The counter of [JSON.parse] never runs out: what any counter parses,
    the counter of [parse] parses. *)
Lemma parse_fuel_suffices fuel s v r :
  parse_value fuel s = Some (v, r) ->
  parse_value (S (String.length s)) s = Some (v, r).
Proof.
  intros H. destruct (enough_step fuel) as [Hv _]. unfold enough in Hv.
  destruct (Hv _ _ _ H) as [_ Hmore]. apply Hmore. lia.
Qed.

(** [JSON.parse] answers [None] only for a text that no counter parses
    to its end. *)
Lemma parse_None text :
  parse text = None ->
  forall fuel v r, parse_value fuel text = Some (v, r) -> skip_ws r <> "".
Proof.
  unfold parse. intros H fuel v r Hp.
  rewrite (parse_fuel_suffices _ _ _ _ Hp) in H.
  destruct (skip_ws r); [discriminate H|discriminate].
Qed.

End JSONFuel.

(** * The grammar and the parser

    [JSON.parse] reads the texts of the grammar only: a text that is
    not of the grammar is a [SyntaxError]. *)

Module GrammarLemmas.
Import JSON JSONFacts JSONLemmas.

Lemma accept_chars_parse s x r : parse_chars s = Some (x, r) -> accept_chars s = Some r.
Proof.
  remember (String.length s) as n eqn:Hn. revert s x r Hn.
  induction n as [n IH] using lt_wf_ind. intros s x r Hn H.
  destruct s as [|c s]; [discriminate|]. simpl in Hn.
  cbn [parse_chars] in H. cbn [accept_chars].
  destruct (Ascii.eqb c "034"); [injection H as _ <-; reflexivity|].
  destruct (Ascii.eqb c "\").
  - destruct s as [|e s]; [discriminate|].
    assert (Hgen :
      match unescape e with
      | Some c' =>
          match parse_chars s with
          | Some (t, r0) => Some (String c' t, r0)
          | None => None
          end
      | None => None
      end = Some (x, r) ->
      match unescape e with
      | Some _ => accept_chars s
      | None => None
      end = Some r).
    { destruct (unescape e); [|discriminate].
      destruct (parse_chars s) as [[y q]|] eqn:E; [|discriminate].
      intros Hx. injection Hx as _ <-.
      eapply (IH (String.length s)); [simpl in Hn; lia|reflexivity|exact E]. }
    destruct (Ascii.eqb e "u") eqn:Eu.
    + apply Ascii.eqb_eq in Eu. subst e.
      destruct s as [|h1 [|h2 [|h3 [|h4 s4]]]]; try (apply Hgen; exact H).
      destruct (hex4 h1 h2 h3 h4); [|discriminate].
      destruct (_ <? _)%N; [|discriminate].
      destruct (parse_chars s4) as [[y q]|] eqn:E; [|discriminate].
      injection H as _ <-.
      eapply (IH (String.length s4)); [simpl in Hn; lia|reflexivity|exact E].
    + revert H Hgen. clear - Eu.
      destruct e as [[] [] [] [] [] [] [] []]; try discriminate Eu;
        intros H Hgen; apply Hgen; exact H.
  - destruct (_ <? _)%N; [discriminate|].
    destruct (parse_chars s) as [[y q]|] eqn:E; [|discriminate].
    injection H as _ <-.
    eapply (IH (String.length s)); [lia|reflexivity|exact E].
Qed.

Lemma accept_number_parse s v r : parse_number s = Some (v, r) -> accept_number s = Some r.
Proof.
  unfold parse_number, accept_number.
  set (p := match s with String "-" s' => (true, s') | _ => (false, s) end).
  assert (Hs : match s with String "-" s' => s' | _ => s end = snd p).
  { subst p. destruct s as [|c s]; [reflexivity|]. each_ascii c; reflexivity. }
  rewrite Hs. destruct p as [negative s']. cbn [snd].
  destruct (read_digits s') as [d r'].
  destruct (int_grammar d); [|discriminate]. cbn [andb].
  destruct (starts_fraction r') eqn:Ef; [discriminate|]. cbn [negb].
  intros H. injection H as _ <-.
  destruct r' as [|c x]; [reflexivity|].
  unfold starts_fraction in Ef. each_ascii c; try discriminate Ef; reflexivity.
Qed.

Lemma accept_value_S fuel s :
  accept_value (S fuel) s =
  let t := skip_ws s in
  if starts_with "null" t then Some (drop 4 t)
  else if starts_with "true" t then Some (drop 4 t)
  else if starts_with "false" t then Some (drop 5 t)
  else
    match t with
    | "" => None
    | String c r =>
        if Ascii.eqb c "034" then accept_chars r
        else if Ascii.eqb c "[" then
          if starts_with "]" (skip_ws r) then Some (drop 1 (skip_ws r))
          else accept_elements fuel r
        else if Ascii.eqb c "{" then
          if starts_with "}" (skip_ws r) then Some (drop 1 (skip_ws r))
          else accept_members fuel r
        else accept_number t
    end.
Proof. reflexivity. Qed.

Lemma accept_elements_S fuel s :
  accept_elements (S fuel) s =
  match accept_value fuel s with
  | Some r =>
      let t := skip_ws r in
      if starts_with "," t then accept_elements fuel (drop 1 t)
      else if starts_with "]" t then Some (drop 1 t)
      else None
  | None => None
  end.
Proof. reflexivity. Qed.

Lemma accept_members_S fuel s :
  accept_members (S fuel) s =
  match skip_ws s with
  | "" => None
  | String c r =>
      if Ascii.eqb c "034" then
        match accept_chars r with
        | Some r1 =>
            if starts_with ":" (skip_ws r1) then
              match accept_value fuel (drop 1 (skip_ws r1)) with
              | Some r3 =>
                  let t := skip_ws r3 in
                  if starts_with "," t then accept_members fuel (drop 1 t)
                  else if starts_with "}" t then Some (drop 1 t)
                  else None
              | None => None
              end
            else None
        | None => None
        end
      else None
  end.
Proof. reflexivity. Qed.

Lemma parse_elements_step fuel s :
  parse_elements (S fuel) s =
  match parse_value fuel s with
  | Some (v, r) =>
      let t := skip_ws r in
      if starts_with "," t then
        match parse_elements fuel (drop 1 t) with
        | Some (l, r') => Some (v :: l, r')
        | None => None
        end
      else if starts_with "]" t then Some ([v], drop 1 t)
      else None
  | None => None
  end.
Proof. reflexivity. Qed.

(** What the parser reads, the grammar accepts, up to the same place. *)
Lemma accept_parse fuel :
  (forall s v r, parse_value fuel s = Some (v, r) -> accept_value fuel s = Some r)
  /\ (forall s l r, parse_elements fuel s = Some (l, r) -> accept_elements fuel s = Some r)
  /\ (forall s l r, parse_members fuel s = Some (l, r) -> accept_members fuel s = Some r).
Proof.
  induction fuel as [|fuel (IHv & IHe & IHm)];
    [split; [|split]; intros s a r H; discriminate H|].
  split; [|split]; intros s a r H.
  - rewrite JSONFuel.parse_value_S in H. rewrite accept_value_S. cbv zeta in *.
    destruct (starts_with "null" (skip_ws s)); [injection H as _ <-; reflexivity|].
    destruct (starts_with "true" (skip_ws s)); [injection H as _ <-; reflexivity|].
    destruct (starts_with "false" (skip_ws s)); [injection H as _ <-; reflexivity|].
    destruct (skip_ws s) as [|c t]; [discriminate|].
    destruct (Ascii.eqb c "034").
    { destruct (parse_chars t) as [[x r']|] eqn:Ec; [|discriminate].
      injection H as _ <-. exact (accept_chars_parse _ _ _ Ec). }
    destruct (Ascii.eqb c "[").
    { destruct (starts_with "]" (skip_ws t)); [injection H as _ <-; reflexivity|].
      destruct (parse_elements fuel t) as [[l r']|] eqn:Ee; [|discriminate].
      injection H as _ <-. exact (IHe _ _ _ Ee). }
    destruct (Ascii.eqb c "{").
    { destruct (starts_with "}" (skip_ws t)); [injection H as _ <-; reflexivity|].
      destruct (parse_members fuel t) as [[l r']|] eqn:Ee; [|discriminate].
      injection H as _ <-. exact (IHm _ _ _ Ee). }
    exact (accept_number_parse _ _ _ H).
  - rewrite parse_elements_step in H. rewrite accept_elements_S. cbv zeta in *.
    destruct (parse_value fuel s) as [[v r1]|] eqn:Ev; [|discriminate].
    rewrite (IHv _ _ _ Ev).
    destruct (starts_with "," (skip_ws r1)).
    { destruct (parse_elements fuel (drop 1 (skip_ws r1))) as [[l r']|] eqn:Ee;
        [|discriminate].
      injection H as _ <-. exact (IHe _ _ _ Ee). }
    destruct (starts_with "]" (skip_ws r1)); [|discriminate].
    injection H as _ <-. reflexivity.
  - rewrite JSONFuel.parse_members_S' in H. rewrite accept_members_S.
    destruct (skip_ws s) as [|c t]; [discriminate|].
    destruct (Ascii.eqb c "034"); [|discriminate].
    destruct (parse_chars t) as [[k r1]|] eqn:Ec; [|discriminate].
    rewrite (accept_chars_parse _ _ _ Ec).
    destruct (starts_with ":" (skip_ws r1)); [|discriminate].
    destruct (parse_value fuel (drop 1 (skip_ws r1))) as [[v r3]|] eqn:Ev; [|discriminate].
    rewrite (IHv _ _ _ Ev). cbv zeta in *.
    destruct (starts_with "," (skip_ws r3)).
    { destruct (parse_members fuel (drop 1 (skip_ws r3))) as [[l r5]|] eqn:Em;
        [|discriminate].
      injection H as _ <-. exact (IHm _ _ _ Em). }
    destruct (starts_with "}" (skip_ws r3)); [|discriminate].
    injection H as _ <-. reflexivity.
Qed.

(** The counter of [well_formed] never runs out either. *)
Lemma accept_chars_length s r :
  accept_chars s = Some r -> (String.length r < String.length s)%nat.
Proof.
  remember (String.length s) as n eqn:Hn. revert s r Hn.
  induction n as [n IH] using lt_wf_ind. intros s r Hn H.
  destruct s as [|c s]; [discriminate|]. simpl in Hn.
  cbn [accept_chars] in H.
  destruct (Ascii.eqb c "034"); [injection H as <-; simpl; lia|].
  destruct (Ascii.eqb c "\").
  - destruct s as [|e s]; [discriminate|].
    assert (Hgen :
      match unescape e with
      | Some _ => accept_chars s
      | None => None
      end = Some r -> (String.length r < n)%nat).
    { destruct (unescape e); [|discriminate]. intros Hx.
      apply (IH (String.length s)) in Hx; [|simpl in Hn; lia|reflexivity].
      simpl in Hn. lia. }
    destruct (Ascii.eqb e "u") eqn:Eu.
    + apply Ascii.eqb_eq in Eu. subst e.
      destruct s as [|h1 [|h2 [|h3 [|h4 s4]]]]; try (apply Hgen; exact H).
      destruct (hex4 h1 h2 h3 h4); [|discriminate].
      apply (IH (String.length s4)) in H; [|simpl in Hn; lia|reflexivity].
      simpl in Hn. lia.
    + apply Hgen. revert H. clear - Eu.
      destruct e as [[] [] [] [] [] [] [] []]; try discriminate Eu; exact (fun H => H).
  - destruct (_ <? _)%N; [discriminate|].
    apply (IH (String.length s)) in H; [|lia|reflexivity]. lia.
Qed.

Lemma accept_digits_length s r :
  accept_digits s = Some r -> (String.length r < String.length s)%nat.
Proof.
  unfold accept_digits. pose proof (JSONFuel.read_digits_length s) as [_ H2].
  destruct (read_digits s) as [d r']. cbn [fst snd] in H2.
  destruct d; [discriminate| ..]; intros H; injection H as <-; apply H2; discriminate.
Qed.

Lemma accept_fraction_length s r :
  accept_fraction s = Some r -> (String.length r <= String.length s)%nat.
Proof.
  unfold accept_fraction. destruct s as [|c s]; [intros H; injection H as <-; lia|].
  each_ascii c; intros H; try (injection H as <-; lia).
  apply accept_digits_length in H. simpl. lia.
Qed.

Lemma accept_exponent_length s r :
  accept_exponent s = Some r -> (String.length r <= String.length s)%nat.
Proof.
  unfold accept_exponent. destruct s as [|c s]; [intros H; injection H as <-; lia|].
  destruct (Ascii.eqb c "e" || Ascii.eqb c "E"); [|intros H; injection H as <-; lia].
  intros H. apply accept_digits_length in H.
  assert (String.length match s with
                        | String "+" y => y
                        | String "-" y => y
                        | _ => s
                        end <= String.length s)%nat.
  { destruct s as [|a s]; [lia|]. each_ascii a; simpl; lia. }
  simpl. lia.
Qed.

Lemma accept_number_length s r :
  accept_number s = Some r -> (String.length r < String.length s)%nat.
Proof.
  unfold accept_number.
  assert (Hp : (String.length match s with String "-" s' => s' | _ => s end
                <= String.length s)%nat).
  { destruct s as [|c s]; [simpl; lia|]. each_ascii c; simpl; lia. }
  revert Hp. generalize (match s with String "-" s' => s' | _ => s end). intros s' Hp.
  pose proof (JSONFuel.read_digits_length s') as [H1 H2].
  destruct (read_digits s') as [d r']. cbn [fst snd] in *.
  destruct (int_grammar d) eqn:Hg; [|discriminate].
  assert (d <> Nil) by (intros ->; discriminate). specialize (H2 ltac:(assumption)).
  destruct (accept_fraction r') as [r1|] eqn:Ef; [|discriminate].
  apply accept_fraction_length in Ef. intros He. apply accept_exponent_length in He. lia.
Qed.

Lemma accepts_enough_step fuel :
  accepts_enough accept_value fuel /\ accepts_enough accept_elements fuel
  /\ accepts_enough accept_members fuel.
Proof.
  unfold accepts_enough.
  induction fuel as [|fuel (IHv & IHe & IHm)];
    [split; [|split]; intros s r H; discriminate H|].
  assert (Hdrop1 : forall p t, starts_with (String p "") t = true ->
            (S (String.length (drop 1 t)) = String.length t)%nat).
  { intros p t H. pose proof (JSONFuel.starts_with_length _ _ H). simpl in *. lia. }
  split; [|split]; intros s r H.
  - rewrite accept_value_S in H. cbv zeta in H.
    pose proof (JSONFuel.skip_ws_length s) as Hws.
    destruct (starts_with "null" (skip_ws s)) eqn:E1.
    { injection H as <-. pose proof (JSONFuel.starts_with_length _ _ E1) as Hl. simpl in Hl.
      split; [cbn [drop] in *; lia|]. intros f' Hf'. JSONFuel.need_fuel f'.
      rewrite accept_value_S. cbv zeta. rewrite E1. reflexivity. }
    destruct (starts_with "true" (skip_ws s)) eqn:E2.
    { injection H as <-. pose proof (JSONFuel.starts_with_length _ _ E2) as Hl. simpl in Hl.
      split; [cbn [drop] in *; lia|]. intros f' Hf'. JSONFuel.need_fuel f'.
      rewrite accept_value_S. cbv zeta. rewrite E1, E2. reflexivity. }
    destruct (starts_with "false" (skip_ws s)) eqn:E3.
    { injection H as <-. pose proof (JSONFuel.starts_with_length _ _ E3) as Hl. simpl in Hl.
      split; [cbn [drop] in *; lia|]. intros f' Hf'. JSONFuel.need_fuel f'.
      rewrite accept_value_S. cbv zeta. rewrite E1, E2, E3. reflexivity. }
    destruct (skip_ws s) as [|c t] eqn:Et; [discriminate|]. simpl in Hws.
    destruct (Ascii.eqb c "034") eqn:E4.
    { apply accept_chars_length in H as Hl.
      split; [cbn [drop] in *; lia|]. intros f' Hf'. JSONFuel.need_fuel f'.
      rewrite accept_value_S. cbv zeta. rewrite Et, E1, E2, E3, E4. exact H. }
    destruct (Ascii.eqb c "[") eqn:E5.
    { pose proof (JSONFuel.skip_ws_length t) as Hwt.
      destruct (starts_with "]" (skip_ws t)) eqn:E6.
      - injection H as <-. pose proof (Hdrop1 _ _ E6) as Hl.
        split; [cbn [drop] in *; lia|]. intros f' Hf'. JSONFuel.need_fuel f'.
        rewrite accept_value_S. cbv zeta. rewrite Et, E1, E2, E3, E4, E5, E6. reflexivity.
      - destruct (IHe _ _ H) as [Hl Hmore].
        split; [cbn [drop] in *; lia|]. intros f' Hf'. JSONFuel.need_fuel f'.
        rewrite accept_value_S. cbv zeta. rewrite Et, E1, E2, E3, E4, E5, E6.
        apply Hmore. cbn [drop] in *; lia. }
    destruct (Ascii.eqb c "{") eqn:E7.
    { pose proof (JSONFuel.skip_ws_length t) as Hwt.
      destruct (starts_with "}" (skip_ws t)) eqn:E6.
      - injection H as <-. pose proof (Hdrop1 _ _ E6) as Hl.
        split; [cbn [drop] in *; lia|]. intros f' Hf'. JSONFuel.need_fuel f'.
        rewrite accept_value_S. cbv zeta. rewrite Et, E1, E2, E3, E4, E5, E7, E6.
        reflexivity.
      - destruct (IHm _ _ H) as [Hl Hmore].
        split; [cbn [drop] in *; lia|]. intros f' Hf'. JSONFuel.need_fuel f'.
        rewrite accept_value_S. cbv zeta. rewrite Et, E1, E2, E3, E4, E5, E7, E6.
        apply Hmore. cbn [drop] in *; lia. }
    apply accept_number_length in H as Hl. simpl in Hl.
    split; [cbn [drop] in *; lia|]. intros f' Hf'. JSONFuel.need_fuel f'.
    rewrite accept_value_S. cbv zeta. rewrite Et, E1, E2, E3, E4, E5, E7. exact H.
  - rewrite accept_elements_S in H.
    destruct (accept_value fuel s) as [r1|] eqn:Ev; [|discriminate].
    destruct (IHv _ _ Ev) as [Hl1 Hmore1]. cbv zeta in H.
    pose proof (JSONFuel.skip_ws_length r1) as Hws.
    destruct (starts_with "," (skip_ws r1)) eqn:E1.
    { destruct (IHe _ _ H) as [Hl2 Hmore2].
      pose proof (Hdrop1 _ _ E1) as Hd.
      split; [cbn [drop] in *; lia|]. intros f' Hf'. JSONFuel.need_fuel f'.
      rewrite accept_elements_S, Hmore1 by (cbn [drop] in *; lia). cbv zeta. rewrite E1.
      apply Hmore2. cbn [drop] in *; lia. }
    destruct (starts_with "]" (skip_ws r1)) eqn:E2; [|discriminate].
    injection H as <-. pose proof (Hdrop1 _ _ E2) as Hd.
    split; [cbn [drop] in *; lia|]. intros f' Hf'. JSONFuel.need_fuel f'.
    rewrite accept_elements_S, Hmore1 by (cbn [drop] in *; lia). cbv zeta.
    rewrite E1, E2. reflexivity.
  - rewrite accept_members_S in H.
    pose proof (JSONFuel.skip_ws_length s) as Hws.
    destruct (skip_ws s) as [|c t] eqn:Et; [discriminate|]. simpl in Hws.
    destruct (Ascii.eqb c "034") eqn:E0; [|discriminate].
    destruct (accept_chars t) as [r1|] eqn:Ec; [|discriminate].
    apply accept_chars_length in Ec as Hlc.
    pose proof (JSONFuel.skip_ws_length r1) as Hw1.
    destruct (starts_with ":" (skip_ws r1)) eqn:E1; [|discriminate].
    pose proof (Hdrop1 _ _ E1) as Hd1.
    destruct (accept_value fuel (drop 1 (skip_ws r1))) as [r3|] eqn:Ev; [|discriminate].
    destruct (IHv _ _ Ev) as [Hl1 Hmore1]. cbv zeta in H.
    pose proof (JSONFuel.skip_ws_length r3) as Hw3.
    destruct (starts_with "," (skip_ws r3)) eqn:E2.
    { destruct (IHm _ _ H) as [Hl2 Hmore2].
      pose proof (Hdrop1 _ _ E2) as Hd.
      split; [cbn [drop] in *; lia|]. intros f' Hf'. JSONFuel.need_fuel f'.
      rewrite accept_members_S, Et, E0, Ec, E1, Hmore1 by (cbn [drop] in *; lia).
      cbv zeta. rewrite E2. apply Hmore2. cbn [drop] in *; lia. }
    destruct (starts_with "}" (skip_ws r3)) eqn:E3; [|discriminate].
    injection H as <-. pose proof (Hdrop1 _ _ E3) as Hd.
    split; [cbn [drop] in *; lia|]. intros f' Hf'. JSONFuel.need_fuel f'.
    rewrite accept_members_S, Et, E0, Ec, E1, Hmore1 by (cbn [drop] in *; lia). cbv zeta.
    rewrite E2, E3. reflexivity.
Qed.

(** A text is of the grammar exactly when some counter accepts it to
    its end. *)
Lemma well_formed_any_counter text :
  well_formed text = true
  <-> exists fuel r, accept_value fuel text = Some r /\ skip_ws r = "".
Proof.
  unfold well_formed. split.
  - destruct (accept_value (S (String.length text)) text) as [r|] eqn:E; [|discriminate].
    destruct (skip_ws r) eqn:Er; [|discriminate]. intros _. eauto.
  - intros (fuel & r & H & Hr).
    destruct (accepts_enough_step fuel) as [Hv _].
    destruct (Hv _ _ H) as [_ Hmore]. rewrite Hmore by lia. rewrite Hr. reflexivity.
Qed.

(** What [JSON.parse] reads is a text of the grammar. *)
Lemma parse_well_formed text v : parse text = Some v -> well_formed text = true.
Proof.
  unfold parse, well_formed.
  destruct (parse_value (S (String.length text)) text) as [[x r]|] eqn:E; [|discriminate].
  destruct (accept_parse (S (String.length text))) as [Hv _].
  rewrite (Hv _ _ _ E). destruct (skip_ws r); [reflexivity|discriminate].
Qed.

(** A text that is not of the grammar is a [SyntaxError]. *)
Lemma malformed_parse text : well_formed text = false -> parse text = None.
Proof.
  intros H. destruct (parse text) as [v|] eqn:E; [|reflexivity].
  apply parse_well_formed in E. congruence.
Qed.

End GrammarLemmas.

Module BufferLemmas.
Import Buffer BufferFacts JSONLemmas.

Lemma utf8_decode_char c l :
  utf8_decode (utf8_char c ++ l) = option_map (String c) (utf8_decode l).
Proof. each_ascii c; reflexivity. Qed.

Lemma utf8_decode_from s : utf8_decode (from s) = Some s.
Proof.
  induction s as [|c s IH]; [reflexivity|].
  simpl from. rewrite utf8_decode_char, IH. reflexivity.
Qed.

Lemma sextet_of_char n : (n < 64)%N -> sextet_of (sextet_char n) = Some n.
Proof.
  intros Hn.
  assert (H : forallb (fun k => bool_decide (sextet_of (sextet_char (N.of_nat k))
                                              = Some (N.of_nat k)))
                (seq 0 64) = true) by (vm_compute; reflexivity).
  rewrite forallb_forall in H.
  specialize (H (N.to_nat n)). rewrite N2Nat.id in H.
  apply bool_decide_eq_true in H; [exact H|].
  apply in_seq. lia.
Qed.

Lemma sextet_of_pad : sextet_of "=" = None.
Proof. reflexivity. Qed.

Ltac Zify.zify_post_hook ::= Z.to_euclidean_division_equations.

Lemma base64_decode_group a b c rest :
  base64_decode (base64 (a :: b :: c :: rest)) =
  option_map (fun l => a :: b :: c :: l) (base64_decode (base64 rest)).
Proof.
  pose proof (N_ascii_bounded a) as Ha.
  pose proof (N_ascii_bounded b) as Hb.
  pose proof (N_ascii_bounded c) as Hc.
  simpl base64. cbv zeta.
  set (x := N_of_ascii a) in *. set (y := N_of_ascii b) in *. set (z := N_of_ascii c) in *.
  change (base64_decode (String ?c1 (String ?c2 (String ?c3 (String ?c4 ?r)))))
    with (match sextet_of c1, sextet_of c2 with
      | Some x1, Some x2 =>
          let a := ascii_of_N (x1 * 4 + x2 / 16) in
          match sextet_of c3 with
          | None => Some [a]
          | Some x3 =>
              let b := ascii_of_N (x2 mod 16 * 16 + x3 / 4) in
              match sextet_of c4 with
              | None => Some [a; b]
              | Some x4 =>
                  option_map
                    (fun l => a :: b :: ascii_of_N (x3 mod 4 * 64 + x4) :: l)
                    (base64_decode r)
              end
          end
      | _, _ => None
      end).
  rewrite !sextet_of_char by lia. cbv zeta.
  replace (x / 4 * 4 + (x mod 4 * 16 + y / 16) / 16)%N with x by lia.
  replace ((x mod 4 * 16 + y / 16) mod 16 * 16 + (y mod 16 * 4 + z / 64) / 4)%N with y by lia.
  replace ((y mod 16 * 4 + z / 64) mod 4 * 64 + z mod 64)%N with z by lia.
  subst x y z. rewrite !ascii_N_embedding. reflexivity.
Qed.

Lemma base64_decode_base64 l : base64_decode (base64 l) = Some l.
Proof.
  remember (List.length l) as n eqn:Hn. revert l Hn.
  induction n as [n IH] using lt_wf_ind. intros l Hn.
  destruct l as [|a [|b [|c rest]]].
  - reflexivity.
  - pose proof (N_ascii_bounded a) as Ha.
    simpl base64. cbv zeta. set (x := N_of_ascii a) in *.
    unfold base64_decode. rewrite !sextet_of_char by lia.
    rewrite sextet_of_pad. cbv zeta.
    replace (x / 4 * 4 + x mod 4 * 16 / 16)%N with x by lia.
    subst x. rewrite ascii_N_embedding. reflexivity.
  - pose proof (N_ascii_bounded a) as Ha. pose proof (N_ascii_bounded b) as Hb.
    simpl base64. cbv zeta.
    set (x := N_of_ascii a) in *. set (y := N_of_ascii b) in *.
    unfold base64_decode. rewrite !sextet_of_char by lia.
    rewrite sextet_of_pad. cbv zeta.
    replace (x / 4 * 4 + (x mod 4 * 16 + y / 16) / 16)%N with x by lia.
    replace ((x mod 4 * 16 + y / 16) mod 16 * 16 + y mod 16 * 4 / 4)%N with y by lia.
    subst x y. rewrite !ascii_N_embedding. reflexivity.
  - rewrite base64_decode_group.
    rewrite (IH (List.length rest)) by (subst n; simpl; lia || reflexivity).
    reflexivity.
Qed.

Lemma base64_from_inj s t :
  base64 (from s) = base64 (from t) -> s = t.
Proof.
  intros H. apply (f_equal base64_decode) in H.
  rewrite !base64_decode_base64 in H. injection H as H.
  apply (f_equal utf8_decode) in H. rewrite !utf8_decode_from in H.
  congruence.
Qed.
End BufferLemmas.

Module GlobLemmas.
Import Glob GlobFacts JSONLemmas.

Lemma tokens_literal_char c p :
  is_meta c = false -> tokens Top (String c p) = TChar c :: tokens Top p.
Proof. intros H. each_ascii c; try discriminate H; reflexivity. Qed.

Lemma tokens_literal s p :
  glob_free s = true -> tokens Top (s ++ p) = (literal s ++ tokens Top p)%list.
Proof.
  induction s as [|c s IH]; intros H; [reflexivity|].
  simpl in H. apply andb_prop in H as [Hc Hs]. apply negb_true_iff in Hc.
  rewrite app_cons, tokens_literal_char, IH by assumption. reflexivity.
Qed.

Lemma match_star_end s : match_tokens [TStar] s = true.
Proof. induction s as [|c s IH]; [reflexivity|exact IH]. Qed.

Lemma match_literal_star lit s :
  match_tokens (literal lit ++ [TStar]) s = String.prefix lit s.
Proof.
  revert s. induction lit as [|c lit IH]; intros s.
  - simpl literal. simpl app. rewrite match_star_end. destruct s; reflexivity.
  - destruct s as [|c' s]; [reflexivity|].
    simpl. rewrite IH. destruct (ascii_dec c c') as [->|Hne].
    + rewrite Ascii.eqb_refl. reflexivity.
    + apply Ascii.eqb_neq in Hne. rewrite Hne. reflexivity.
Qed.

Lemma stringmatch_prefix lit s :
  glob_free lit = true -> lit <> "" ->
  stringmatch (lit ++ "*") s = String.prefix lit s.
Proof.
  intros Hg Hne. unfold stringmatch. destruct s as [|c s].
  - destruct lit; [congruence|reflexivity].
  - rewrite tokens_literal by exact Hg.
    change (tokens Top "*") with [TStar]. apply match_literal_star.
Qed.

Lemma prefix_app lit s : String.prefix lit (lit ++ s) = true.
Proof.
  induction lit as [|c lit IH]; [destruct s; reflexivity|].
  rewrite app_cons. simpl. destruct (ascii_dec c c); [exact IH|congruence].
Qed.

End GlobLemmas.

Module MemRedisLemmas.
Import GlobFacts GlobLemmas JSONLemmas MemRedisFacts.

Lemma elem_of_keys (m : gmap string (string * Z)) (f : string -> bool) k :
  k ∈ List.filter f (fst <$> map_to_list m) <-> f k = true /\ is_Some (m !! k).
Proof.
  rewrite list_elem_of_In, filter_In, <- list_elem_of_In, list_elem_of_fmap. split.
  - intros [([k' x] & -> & Hin) Hf]. apply elem_of_map_to_list in Hin. simpl in *. eauto.
  - intros [Hf [x Hx]]. split; [|exact Hf]. exists (k, x). split; [reflexivity|].
    apply elem_of_map_to_list. exact Hx.
Qed.

Lemma keys_then_del_spec lit c log :
  glob_free lit = true -> lit <> "" ->
  exists c',
    keys_then_del (lit ++ "*") (Redis.State (Some c) log)
      = (Returned tt, Redis.State (Some c') log)
    /\ forall k, MemRedis.store c' !! k
                 = if String.prefix lit k then None else MemRedis.store c !! k.
Proof.
  intros Hg Hne.
  unfold keys_then_del, Redis.bind, Redis.call, Redis.ret. simpl.
  set (ks := List.filter _ _).
  assert (Hks : forall k, k ∈ ks <-> String.prefix lit k = true /\ is_Some (MemRedis.store c !! k)).
  { intros k. unfold ks. rewrite elem_of_keys, stringmatch_prefix by assumption. reflexivity. }
  destruct ks as [|k0 ks'] eqn:E.
  - simpl. eexists. split; [reflexivity|]. simpl. intros k.
    destruct (String.prefix lit k) eqn:Hp; [|reflexivity].
    destruct (MemRedis.store c !! k) eqn:Hk; [|reflexivity].
    exfalso. eapply not_elem_of_nil. apply Hks. eauto.
  - replace (0 <? Z.of_nat (List.length (k0 :: ks'))) with true
      by (symmetry; apply Z.ltb_lt; simpl; lia).
    unfold MemRedis.del. eexists. split; [reflexivity|]. simpl. intros k.
    change (delete k0 (foldr delete (MemRedis.store c) ks') !! k)
      with (foldr delete (MemRedis.store c) (k0 :: ks') !! k).
    destruct (String.prefix lit k) eqn:Hp.
    + destruct (MemRedis.store c !! k) eqn:Hk.
      * apply lookup_foldr_delete. apply Hks. eauto.
      * rewrite lookup_foldr_delete_not_elem_of; [exact Hk|].
        intros Hin. apply Hks in Hin as [_ [x Hx]]. congruence.
    + apply lookup_foldr_delete_not_elem_of.
      intros Hin. apply Hks in Hin as [Hin _]. congruence.
Qed.

Lemma all_chars_app f s t : all_chars f (s ++ t) = all_chars f s && all_chars f t.
Proof.
  induction s as [|c s IH]; [reflexivity|].
  rewrite app_cons. simpl. rewrite IH, andb_assoc. reflexivity.
Qed.

Lemma all_chars_impl (f g : ascii -> bool) s :
  (forall c, f c = true -> g c = true) -> all_chars f s = true -> all_chars g s = true.
Proof.
  intros Hfg. induction s as [|c s IH]; [reflexivity|]. simpl.
  intros H. apply andb_prop in H as [Hc Hs]. rewrite (Hfg c Hc), IH by exact Hs. reflexivity.
Qed.

(** The digits of an [ObjectId] are no metacharacters and no colons. *)
Lemma ObjectId_glob_free (o : ObjectId) : glob_free (hex o) = true.
Proof.
  pose proof (hex_ok o) as H. unfold is_ObjectId_hex in H.
  apply andb_prop in H as [_ H]. revert H. apply all_chars_impl.
  intros c. each_ascii c; intros Hc; try discriminate Hc; reflexivity.
Qed.

Lemma ObjectId_colon_free (o : ObjectId) : colon_free (hex o) = true.
Proof.
  pose proof (hex_ok o) as H. unfold is_ObjectId_hex in H.
  apply andb_prop in H as [_ H]. revert H. apply all_chars_impl.
  intros c. each_ascii c; intros Hc; try discriminate Hc; reflexivity.
Qed.

Lemma prefix_cons a s b t :
  String.prefix (String a s) (String b t)
  = if ascii_dec a b then String.prefix s t else false.
Proof. reflexivity. Qed.

Lemma scope_prefix_inv u u' r :
  colon_free u = true -> colon_free u' = true ->
  String.prefix (u ++ ":") (u' ++ String ":" r) = true -> u = u'.
Proof.
  unfold colon_free.
  revert u'. induction u as [|a u IH]; intros [|b u'] Hu Hu' H.
  - reflexivity.
  - exfalso. rewrite app_nil_l, app_cons, prefix_cons in H.
    destruct (ascii_dec ":" b) as [<-|]; [|discriminate H].
    cbn [all_chars] in Hu'. rewrite Ascii.eqb_refl in Hu'. discriminate Hu'.
  - exfalso. rewrite app_nil_l, app_cons, prefix_cons in H.
    destruct (ascii_dec a ":") as [->|]; [|discriminate H].
    cbn [all_chars] in Hu. rewrite Ascii.eqb_refl in Hu. discriminate Hu.
  - rewrite !app_cons, prefix_cons in H. cbn [all_chars] in Hu, Hu'.
    apply andb_prop in Hu as [_ Hu]. apply andb_prop in Hu' as [_ Hu'].
    destruct (ascii_dec a b) as [->|]; [|discriminate H].
    f_equal. apply IH; assumption.
Qed.

Lemma scope_lit_glob_free u :
  glob_free u = true -> glob_free ("itineraries:" ++ u ++ ":") = true.
Proof.
  intros H. unfold glob_free in *. rewrite !all_chars_app, H. reflexivity.
Qed.

(** [invalidateUserItineraryCaches] on the reference server, for an id
    with no metacharacter: the keys that begin with the scope are gone,
    the others are as they were. *)
Lemma invalidateUserItineraryCaches_spec u c log :
  glob_free u = true ->
  exists c',
    Redis.invalidateUserItineraryCaches u (Redis.State (Some c) log)
    = (Returned tt, Redis.State (Some c') log)
    /\ forall k, MemRedis.store c' !! k
                 = if String.prefix ("itineraries:" ++ u ++ ":") k then None
                   else MemRedis.store c !! k.
Proof.
  intros Hg.
  destruct (keys_then_del_spec ("itineraries:" ++ u ++ ":") c log
              (scope_lit_glob_free u Hg) ltac:(discriminate)) as (c' & Hrun & Hc').
  exists c'. split; [|exact Hc'].
  unfold Redis.invalidateUserItineraryCaches, Redis.unless_no_client, Redis.try_catch.
  simpl Redis.redisClient. cbv iota.
  change (Redis.bind (Redis.call (fun c0 => client_keys c0 ?p)) _) with (keys_then_del p).
  replace ("itineraries:" ++ u ++ ":*") with (("itineraries:" ++ u ++ ":") ++ "*")
    by (rewrite !app_assoc; reflexivity).
  rewrite Hrun. reflexivity.
Qed.

Lemma invalidatePublicItineraryCaches_spec c log :
  exists c',
    Redis.invalidatePublicItineraryCaches (Redis.State (Some c) log)
    = (Returned tt, Redis.State (Some c') log)
    /\ forall k, MemRedis.store c' !! k
                 = if String.prefix "public_itineraries:" k then None
                   else MemRedis.store c !! k.
Proof.
  destruct (keys_then_del_spec "public_itineraries:" c log eq_refl ltac:(discriminate))
    as (c' & Hrun & Hc').
  exists c'. split; [|exact Hc'].
  unfold Redis.invalidatePublicItineraryCaches, Redis.unless_no_client, Redis.try_catch.
  simpl Redis.redisClient. cbv iota.
  change (Redis.bind (Redis.call (fun c0 => client_keys c0 ?p)) _) with (keys_then_del p).
  change "public_itineraries:*" with ("public_itineraries:" ++ "*").
  rewrite Hrun. reflexivity.
Qed.
Lemma invalidateItineraryCache_spec id c log :
  Redis.invalidateItineraryCache id (Redis.State (Some c) log)
  = (Returned tt,
     Redis.State
       (Some (MemRedis.Server (delete ("itinerary:" ++ id) (MemRedis.store c))
                (MemRedis.commands c ++ [MemRedis.DEL ["itinerary:" ++ id]])))
       log).
Proof. reflexivity. Qed.


(** For the identifiers of the program no side condition is left: the
    lists of one user go, those of every other user stay. *)
Lemma invalidateUserItineraryCaches_ObjectId (u u' : ObjectId) c log :
  exists c',
    Redis.invalidateUserItineraryCaches (hex u) (Redis.State (Some c) log)
    = (Returned tt, Redis.State (Some c') log)
    /\ (forall enc, MemRedis.store c' !! ("itineraries:" ++ hex u ++ ":" ++ enc) = None)
    /\ (hex u' <> hex u ->
        forall enc, MemRedis.store c' !! ("itineraries:" ++ hex u' ++ ":" ++ enc)
                    = MemRedis.store c !! ("itineraries:" ++ hex u' ++ ":" ++ enc)).
Proof.
  destruct (invalidateUserItineraryCaches_spec (hex u) c log (ObjectId_glob_free u))
    as (c' & Hrun & Hc').
  exists c'. split; [exact Hrun|]. split.
  - intros enc. rewrite Hc'.
    replace ("itineraries:" ++ hex u ++ ":" ++ enc) with (("itineraries:" ++ hex u ++ ":") ++ enc)
      by (rewrite !app_assoc; reflexivity).
    rewrite prefix_app. reflexivity.
  - intros Hne enc. rewrite Hc'.
    destruct (String.prefix _ _) eqn:Hp; [|reflexivity].
    exfalso. apply Hne. symmetry.
    apply (scope_prefix_inv (hex u) (hex u') enc (ObjectId_colon_free u)
             (ObjectId_colon_free u')).
    exact Hp.
Qed.
End MemRedisLemmas.

(** * Lemmas on the key space and on the reference server *)

Module KeyLemmas.
Import Buffer BufferFacts BufferLemmas Glob GlobFacts GlobLemmas JSONLemmas MemRedisFacts
  MemRedisLemmas KeyFacts.

(** The characters of the base64 alphabet and the padding: no colon. *)
Lemma sextet_char_colon n : Ascii.eqb (sextet_char n) ":" = false.
Proof.
  unfold sextet_char. generalize (N.to_nat n). intros m.
  do 64 (destruct m as [|m]; [reflexivity|]).
  reflexivity.
Qed.

Lemma base64_colon_free l : colon_free (base64 l) = true.
Proof.
  unfold colon_free.
  assert (H : forall n l, (List.length l <= n)%nat ->
                all_chars (fun c => negb (Ascii.eqb c ":")) (base64 l) = true).
  { intros n. induction n as [|n IH]; intros l0 Hl.
    - destruct l0; [reflexivity|simpl in Hl; lia].
    - destruct l0 as [|a [|b [|c rest]]]; cbn [base64 all_chars];
        rewrite ?sextet_char_colon; try reflexivity.
      simpl. apply IH. simpl in Hl. lia. }
  apply (H (List.length l)). lia.
Qed.

(** A text is cut at its last colon in one way only. *)
Lemma last_colon_inj u u' x x' :
  colon_free x = true -> colon_free x' = true ->
  u ++ ":" ++ x = u' ++ ":" ++ x' -> u = u' /\ x = x'.
Proof.
  unfold colon_free. intros Hx Hx'. revert u'.
  induction u as [|a u IH]; intros [|b u'] H.
  - rewrite !app_nil_l, !app_cons in H. injection H as H. rewrite !app_nil_l in H. auto.
  - exfalso. rewrite !app_nil_l, !app_cons in H. injection H as <- H.
    rewrite !app_nil_l in H. subst x.
    rewrite all_chars_app in Hx. cbn [all_chars] in Hx.
    rewrite Ascii.eqb_refl in Hx. simpl in Hx. rewrite andb_false_r in Hx. discriminate Hx.
  - exfalso. rewrite !app_nil_l, !app_cons in H. injection H as -> H.
    rewrite !app_nil_l in H. subst x'.
    rewrite all_chars_app in Hx'. cbn [all_chars] in Hx'.
    rewrite Ascii.eqb_refl in Hx'. simpl in Hx'. rewrite andb_false_r in Hx'.
    discriminate Hx'.
  - rewrite !app_cons in H. injection H as -> H.
    destruct (IH _ H) as [-> ->]. auto.
Qed.

(** The key of a list determines the user and the serialized filters. *)
Lemma list_key_inj2 u u' t t' :
  "itineraries:" ++ u ++ ":" ++ base64 (from t)
  = "itineraries:" ++ u' ++ ":" ++ base64 (from t') ->
  u = u' /\ t = t'.
Proof.
  intros H. apply String.app_inj in H.
  apply last_colon_inj in H; try apply base64_colon_free.
  destruct H as [-> H]. split; [reflexivity|]. apply base64_from_inj. exact H.
Qed.





(** The members [JSON.stringify] writes for an object are those of its
    properties that are not [undefined]. *)
Lemma stringify_defined l :
  JSON.stringify (VObj l) = JSON.stringify (VObj (List.filter defined l)).
Proof.
  unfold JSON.stringify. cbn [JSON.SerializeJSONProperty].
  match goal with
  | |- context [flat_map ?f l] =>
      assert (H : flat_map f l = flat_map f (List.filter defined l))
  end.
  { induction l as [|[k v] l IH]; [reflexivity|].
    cbn [List.filter flat_map]. unfold defined at 1. cbn [snd fst].
    destruct v; cbn [flat_map snd fst JSON.SerializeJSONProperty]; rewrite IH;
      reflexivity. }
  rewrite H. reflexivity.
Qed.

End KeyLemmas.

(** * Lemmas on the runtime *)

Module JSLemmas.
Import JSON JS JSONLemmas.

(** The order of the properties of an object does not change what is
    read from it. *)
Lemma Get_Permutation (q q' : list (string * value)) (k : string) :
  NoDup (List.map fst q) -> Permutation q q' -> Get q k = Get q' k.
Proof.
  intros Hnd Hp. induction Hp as [|[k1 v1] l l' Hp IH|[k1 v1] [k2 v2] l|l l' l'' Hp1 IH1 Hp2 IH2].
  - reflexivity.
  - simpl in *. apply NoDup_cons in Hnd as [_ Hnd]. rewrite IH by exact Hnd. reflexivity.
  - simpl in *. apply NoDup_cons in Hnd as [Hin _].
    destruct (String.eqb k1 k) eqn:E1, (String.eqb k2 k) eqn:E2; try reflexivity.
    apply String.eqb_eq in E1, E2. subst. exfalso. apply Hin. left.
  - rewrite IH1 by exact Hnd. apply IH2.
    assert (Hm : List.map fst l ≡ₚ List.map fst l') by (apply Permutation_map; exact Hp1).
    rewrite <- Hm. exact Hnd.
Qed.

Lemma read_int_digits_acc (d : Decimal.uint) (a : positive) :
  read_int 10 (Some (Npos a)) (digits_string d) = Some (Npos (Pos.of_uint_acc d a)).
Proof.
  revert a. induction d; intros a; cbn [digits_string]; [reflexivity|..];
    cbn [read_int];
    match goal with
    | |- context [digit_value 10 ?c] =>
        let v := eval vm_compute in (digit_value 10 c) in
        change (digit_value 10 c) with v
    end; cbv iota beta; cbn [Pos.of_uint_acc]; rewrite <- IHd; f_equal; f_equal; lia.
Qed.

Lemma read_int_digits_zero (d : Decimal.uint) :
  read_int 10 (Some 0%N) (digits_string d) = Some (Pos.of_uint d).
Proof.
  induction d; cbn [digits_string]; [reflexivity|..];
    cbn [read_int];
    match goal with
    | |- context [digit_value 10 ?c] =>
        let v := eval vm_compute in (digit_value 10 c) in
        change (digit_value 10 c) with v
    end; cbv iota beta; cbn [Pos.of_uint];
    first [ exact IHd | rewrite <- read_int_digits_acc; reflexivity ].
Qed.

Lemma read_int_digits (d : Decimal.uint) :
  d <> Nil -> read_int 10 None (digits_string d) = Some (Pos.of_uint d).
Proof.
  intros Hd. rewrite <- read_int_digits_zero.
  destruct d; [congruence|..]; reflexivity.
Qed.

(** [parseInt] reads a run of decimal digits as the number they write. *)
Lemma parseInt_string_digits (d : Decimal.uint) :
  d <> Nil -> parseInt_string (digits_string d) = Num (Z.of_N (Pos.of_uint d)).
Proof.
  intros Hd. pose proof (read_int_digits d Hd) as H.
  unfold parseInt_string.
  destruct d as [|d|d|d|d|d|d|d|d|d|d]; [congruence|..];
    cbn [digits_string trim_start] in *;
    match goal with
    | |- context [is_StrWhiteSpaceChar ?c] =>
        let v := eval vm_compute in (is_StrWhiteSpaceChar c) in
        change (is_StrWhiteSpaceChar c) with v
    end; cbv iota beta.
  1: destruct d; cbn [digits_string] in *; rewrite H; reflexivity.
  all: rewrite H; reflexivity.
Qed.

Lemma parseInt_Number (n : Z) : parseInt (VNum n) = Num n.
Proof.
  unfold parseInt. cbn [ToString]. unfold Number_toString.
  destruct n as [|p|p].
  - reflexivity.
  - change (Z.to_int (Z.pos p)) with (Decimal.Pos (Pos.to_uint p)). cbv iota.
    rewrite parseInt_string_digits by apply DecimalPos.Unsigned.to_uint_nonnil.
    rewrite DecimalPos.Unsigned.of_to. reflexivity.
  - change (Z.to_int (Z.neg p)) with (Decimal.Neg (Pos.to_uint p)). cbv iota.
    pose proof (read_int_digits (Pos.to_uint p) (DecimalPos.Unsigned.to_uint_nonnil p)) as H.
    rewrite DecimalPos.Unsigned.of_to in H.
    unfold parseInt_string. cbn [trim_start].
    change (is_StrWhiteSpaceChar "-") with false. cbv iota beta.
    destruct (Pos.to_uint p) as [|d|d|d|d|d|d|d|d|d|d] eqn:E;
      cbn [digits_string] in *.
    1: rewrite H; reflexivity.
    1: destruct d; cbn [digits_string] in *; rewrite H; reflexivity.
    all: rewrite H; reflexivity.
Qed.

End JSLemmas.

(** * The model at work *)

Module Runs.
Import Observed.

(** A refused connection: [connectRedis] returns [null], but the variable
    [redisClient] keeps the client that could not connect. *)
Example connect_refused :
  Redis.connectRedis None None (Redis.State (None : option unit) [])
  = (Returned None,
     Redis.State (Some tt) ["Redis connection error: ECONNREFUSED"]).
Proof. reflexivity. Qed.

(** Every command of that client is rejected; the read is a miss and the
    write returns, each with a line on the console. *)
Example read_through_closed_client :
  Redis.getCachedUser "507f1f77bcf86cd799439011" (Redis.State (Some tt) [])
  = (Returned VNull,
     Redis.State (Some tt)
       ["Error getting cached user: ClientClosedError: The client is closed"]).
Proof. reflexivity. Qed.

Example write_through_closed_client :
  Redis.cacheUser "507f1f77bcf86cd799439011" Sample.john (Redis.State (Some tt) [])
  = (Returned tt,
     Redis.State (Some tt)
       ["Error caching user: ClientClosedError: The client is closed"]).
Proof. reflexivity. Qed.

(** A payload that is not JSON reads as a miss. *)
Example read_of_corrupt_entry :
  result_of (Redis.getCache "user:1")
    (MemRedis.Server {["user:1" := ("{oops", 3600)]} [])
  = Returned VNull.
Proof. vm_compute. reflexivity. Qed.

(** Filters that are [undefined] have no serialization: nothing is sent. *)
Example list_of_undefined_filters :
  Redis.cacheItineraryList "42" VUndefined (VArr []) (MemRedis.connected empty)
  = (Returned tt,
     Redis.State (Some empty)
       ["Error caching itinerary list: TypeError: The first argument must be of type string"]).
Proof. reflexivity. Qed.

(** The fields of a filter record that are [undefined] are left out of
    its serialization. *)
Example serialization_of_cacheKey :
  JSON.stringify Sample.public_cacheKey = Some Sample.page_limit_sort_text.
Proof. vm_compute. reflexivity. Qed.

(** A text with white space, escapes, nesting and a key given twice. *)
Example parse_of_a_text :
  JSON.parse (Sample.quoted
    " { 'a' : [ 1 , -20 , [ [ ] , { } ] , true , null , 'x\n\u0041\/' ] , 'a' : [] , 'b' : false } ")
  = Some (VObj [("a", VArr []); ("b", VBool false)]).
Proof. vm_compute. reflexivity. Qed.

Example parse_of_nested_arrays :
  JSON.parse "[[[[[[[[0]]]]]]]]"
  = Some (VArr [VArr [VArr [VArr [VArr [VArr [VArr [VArr [VNum 0]]]]]]]]).
Proof. vm_compute. reflexivity. Qed.

Example parse_rejects :
  JSON.parse "01" = None /\ JSON.parse "[1,]" = None /\ JSON.parse "" = None
  /\ JSON.parse "nul" = None /\ JSON.parse "1 2" = None.
Proof. repeat split; vm_compute; reflexivity. Qed.

(** [invalidatePublicItineraryCaches], when it is called, empties the
    public namespace. *)
Example public_invalidation :
  result_of (Redis.getCachedPublicItineraries Sample.public_cacheKey) Sample.stocked
  = Returned (Sample.envelope "Paris Trip")
  /\ result_of (Redis.getCachedPublicItineraries Sample.public_cacheKey)
       (server_after Redis.invalidatePublicItineraryCaches Sample.stocked)
     = Returned VNull.
Proof. split; vm_compute; reflexivity. Qed.

(** [closeRedis] has no [try]: what [quit] throws reaches the caller. *)
Example closeRedis_throws :
  fst (Redis.closeRedis (Redis.State (Some tt) []))
  = Thrown "ClientClosedError: The client is closed".
Proof. reflexivity. Qed.

(** In the reference collection a document is found under the
    identifier of the request, written in lower case. *)
Lemma MemMongo_findById_id (d : MemMongo.t) (id : string) (x : MemMongo.doc) (pop : bool) :
  MemMongo.docs d !! MemMongo.lower_all id = Some x ->
  is_ObjectId_hex (MemMongo.lower_all id) = true ->
  fst (MemMongo.lookup_doc (MemMongo.FindById id) id pop d)
  = Returned (Some (MemMongo.Doc (MemMongo._id x) (MemMongo.userId x)
                      (MemMongo.fields x) pop)).
Proof.
  intros Hx Hid. unfold MemMongo.lookup_doc, MemMongo.cast, MemMongo.ObjectId_of.
  generalize (eq_refl (is_ObjectId_hex (MemMongo.lower_all id))).
  generalize (is_ObjectId_hex (MemMongo.lower_all id)) at 2 3.
  intros b Hb. destruct b; [|congruence]. simpl. rewrite Hx. reflexivity.
Qed.

End Runs.

(** * Lemmas on the functions of the module and of the controller *)

Module Support.
Import JSONFacts JSONLemmas BufferLemmas GlobFacts GlobLemmas MemRedisFacts MemRedisLemmas.
Import Observed Controller.

(** Every function of the module has the same shape: a test of the
    client, a body inside [try], a handler that logs. *)
Ltac run_redis :=
  unfold Redis.getCachedUser, Redis.getCachedItinerary, Redis.getCachedItineraryList,
    Redis.getCachedPublicItineraries, Redis.getCache, Redis.cacheUser,
    Redis.cacheItinerary, Redis.cacheItineraryList, Redis.cachePublicItineraries,
    Redis.cache, Redis.invalidateUserCache, Redis.invalidateItineraryCache,
    Redis.invalidateUserItineraryCaches, Redis.invalidatePublicItineraryCaches,
    Redis.deleteCache, Redis.unless_no_client, Redis.try_catch, Redis.bind,
    Redis.setEx, Redis.base64_of, Redis.call, Redis.ret,
    Redis.throw, Redis.console_error, JSON.stringify;
  simpl.

Ltac split_match :=
  repeat match goal with
    | |- context [match ?x with _ => _ end] => destruct x eqn:?; simpl
    end.

Lemma parse_or_null_state {C : Type} (data : option string) (st : Redis.state C) :
  snd (Redis.parse_or_null data st) = st.
Proof.
  unfold Redis.parse_or_null, Redis.ret, Redis.throw.
  destruct data as [[|a d]|]; try reflexivity.
  destruct (JSON.parse _); reflexivity.
Qed.

Ltac read_state :=
  match goal with
  | |- context [Redis.parse_or_null ?d ?st] =>
      let E := fresh in
      pose proof (parse_or_null_state d st) as E;
      destruct (Redis.parse_or_null d st) as [[?|?] ?]; simpl in E; subst; simpl
  end.

Lemma get_after_set (c : MemRedis.t) (key data : string) (seconds : Z) (v : value) :
  data <> "" -> JSON.parse data = Some v ->
  Redis.bind (Redis.call (fun c => client_get c key)) Redis.parse_or_null
    (Redis.State
       (Some (MemRedis.Server (<[key := (data, seconds)]> (MemRedis.store c))
                (MemRedis.commands c ++ [MemRedis.SETEX key seconds data])))
       [])
  = (Returned v,
     Redis.State
       (Some (MemRedis.Server (<[key := (data, seconds)]> (MemRedis.store c))
                ((MemRedis.commands c ++ [MemRedis.SETEX key seconds data])
                 ++ [MemRedis.GET key])))
       []).
Proof.
  intros Hne Hp. unfold Redis.bind, Redis.call. simpl.
  rewrite lookup_insert_eq. simpl. unfold Redis.parse_or_null.
  destruct data; [congruence|]. rewrite Hp. reflexivity.
Qed.

Lemma key_of_list_functions (userId : string) (filters : value) :
  let key t := "itineraries:" ++ userId ++ ":" ++ Buffer.base64 (Buffer.from t) in
  key_of_cacheItineraryList userId filters = key <$> JSON.stringify filters
  /\ key_of_getCachedItineraryList userId filters = key <$> JSON.stringify filters.
Proof.
  unfold key_of_cacheItineraryList, key_of_getCachedItineraryList, server_after, last_key,
    MemRedis.connected, Observed.empty.
  split; run_redis; destruct (JSON.SerializeJSONProperty filters); simpl;
    try reflexivity; read_state; reflexivity.
Qed.

Lemma key_of_public_functions (filters : value) :
  let key t := "public_itineraries:" ++ Buffer.base64 (Buffer.from t) in
  key_of_cachePublicItineraries filters = key <$> JSON.stringify filters
  /\ key_of_getCachedPublicItineraries filters = key <$> JSON.stringify filters.
Proof.
  unfold key_of_cachePublicItineraries, key_of_getCachedPublicItineraries, server_after,
    last_key, MemRedis.connected, Observed.empty.
  split; run_redis; destruct (JSON.SerializeJSONProperty filters); simpl;
    try reflexivity; read_state; reflexivity.
Qed.

Lemma list_key_inj (userId : string) (a b : option string) :
  (fun t => "itineraries:" ++ userId ++ ":" ++ Buffer.base64 (Buffer.from t)) <$> a
  = (fun t => "itineraries:" ++ userId ++ ":" ++ Buffer.base64 (Buffer.from t)) <$> b
  <-> a = b.
Proof.
  split; [|intros ->; reflexivity].
  destruct a as [s|], b as [t|]; simpl; try congruence.
  intros H. injection H as H.
  do 3 apply String.app_inj in H.
  apply base64_from_inj in H. congruence.
Qed.

Lemma public_key_inj (a b : option string) :
  (fun t => "public_itineraries:" ++ Buffer.base64 (Buffer.from t)) <$> a
  = (fun t => "public_itineraries:" ++ Buffer.base64 (Buffer.from t)) <$> b
  <-> a = b.
Proof.
  split; [|intros ->; reflexivity].
  destruct a as [s|], b as [t|]; simpl; try congruence.
  intros H. injection H as H.
  apply String.app_inj in H.
  apply base64_from_inj in H. congruence.
Qed.

(** The mutating handlers never send a command that touches a key of the
    public lists: whatever the collection answers, every key
    [public_itineraries:...] holds after [createItinerary],
    [updateItinerary] and [deleteItinerary] what it held before. *)
Lemma mutations_keep_public_lists {D Doc : Type} {model : ItineraryModel D Doc}
    (req : Request) (c : MemRedis.t) (log : list string) (d : D) (enc : string) :
  let w := World (Redis.State (Some c) log) d in
  let kept (w' : world MemRedis.t D) :=
    exists c', redis w' = Redis.State (Some c') log
               /\ MemRedis.store c' !! ("public_itineraries:" ++ enc)
                  = MemRedis.store c !! ("public_itineraries:" ++ enc) in
  kept (snd (createItinerary req w))
  /\ kept (snd (updateItinerary req w))
  /\ kept (snd (deleteItinerary req w)).
Proof.
  intros w kept. subst w kept. cbv beta.
  assert (Hinv : forall u c0, exists c',
            Redis.invalidateUserItineraryCaches (hex u) (Redis.State (Some c0) log)
            = (Returned tt, Redis.State (Some c') log)
            /\ MemRedis.store c' !! ("public_itineraries:" ++ enc)
               = MemRedis.store c0 !! ("public_itineraries:" ++ enc)).
  { intros u c0.
    destruct (invalidateUserItineraryCaches_spec (hex u) c0 log (ObjectId_glob_free _))
      as (c' & Hrun & Hc').
    exists c'. split; [exact Hrun|]. rewrite Hc'. reflexivity. }
  repeat split.
  - unfold createItinerary, handler, hbind, query, eval, cached, respond.
    cbn -[Redis.invalidateUserItineraryCaches].
    destruct (create d _) as [[x|e] d1];
      cbn -[Redis.invalidateUserItineraryCaches]; eauto.
    destruct (populate d1 x) as [[y|e] d2];
      cbn -[Redis.invalidateUserItineraryCaches]; eauto.
    destruct (Hinv (user_id req) c) as (c' & -> & Hc'). cbn. eauto.
  - unfold updateItinerary, handler, hbind, query, eval, cached, respond.
    cbn -[Redis.invalidateItineraryCache Redis.invalidateUserItineraryCaches].
    destruct (findById d (params_id req)) as [[[found|]|e] d1];
      cbn -[Redis.invalidateItineraryCache Redis.invalidateUserItineraryCaches]; eauto.
    destruct (userId_toString found) as [owner|e];
      cbn -[Redis.invalidateItineraryCache Redis.invalidateUserItineraryCaches]; eauto.
    destruct (String.eqb owner (hex (user_id req)));
      cbn -[Redis.invalidateItineraryCache Redis.invalidateUserItineraryCaches]; eauto.
    destruct (findByIdAndUpdate_populate d1 (params_id req) (body req))
      as [[[itinerary|]|e] d2];
      cbn -[Redis.invalidateItineraryCache Redis.invalidateUserItineraryCaches]; eauto.
    rewrite invalidateItineraryCache_spec.
    cbn -[Redis.invalidateItineraryCache Redis.invalidateUserItineraryCaches].
    destruct (Hinv (user_id req)
                (MemRedis.Server
                   (delete ("itinerary:" ++ hex (doc_id itinerary)) (MemRedis.store c))
                   (MemRedis.commands c
                    ++ [MemRedis.DEL ["itinerary:" ++ hex (doc_id itinerary)]])))
      as (c' & -> & Hc').
    cbn. exists c'. split; [reflexivity|]. rewrite Hc'. cbn.
    apply lookup_delete_ne. discriminate.
  - unfold deleteItinerary, handler, hbind, query, eval, cached, respond.
    cbn -[Redis.invalidateItineraryCache Redis.invalidateUserItineraryCaches].
    destruct (findById d (params_id req)) as [[[found|]|e] d1];
      cbn -[Redis.invalidateItineraryCache Redis.invalidateUserItineraryCaches]; eauto.
    destruct (userId_toString found) as [owner|e];
      cbn -[Redis.invalidateItineraryCache Redis.invalidateUserItineraryCaches]; eauto.
    destruct (String.eqb owner (hex (user_id req)));
      cbn -[Redis.invalidateItineraryCache Redis.invalidateUserItineraryCaches]; eauto.
    destruct (findByIdAndDelete d1 (params_id req)) as [[gone|e] d2];
      cbn -[Redis.invalidateItineraryCache Redis.invalidateUserItineraryCaches]; eauto.
    rewrite invalidateItineraryCache_spec.
    cbn -[Redis.invalidateItineraryCache Redis.invalidateUserItineraryCaches].
    destruct (Hinv (user_id req)
                (MemRedis.Server
                   (delete ("itinerary:" ++ hex (doc_id found)) (MemRedis.store c))
                   (MemRedis.commands c
                    ++ [MemRedis.DEL ["itinerary:" ++ hex (doc_id found)]])))
      as (c' & -> & Hc').
    cbn. exists c'. split; [reflexivity|]. rewrite Hc'. cbn.
    apply lookup_delete_ne. discriminate.
Qed.

(** Neither copy of [getItinerary] sends a [GET]: whatever the collection
    answers, the handler sends the server no command, or the one
    [SETEX] of [cacheItinerary]. *)
Lemma getItinerary_sends_no_GET {D Doc : Type} {model : ItineraryModel D Doc}
    (req : Request) (c : MemRedis.t) (log : list string) (d : D) :
  let w := World (Redis.State (Some c) log) d in
  let no_read (w' : world MemRedis.t D) :=
    exists c', server_of (redis w') = Some c'
               /\ (MemRedis.commands c' = MemRedis.commands c
                   \/ exists key data,
                        MemRedis.commands c'
                        = (MemRedis.commands c ++ [MemRedis.SETEX key 1800 data])%list) in
  no_read (snd (getItinerary req w)) /\ no_read (snd (getItinerary_part_000 req w)).
Proof.
  intros w no_read. subst w no_read. cbv beta.
  split.
  - unfold getItinerary, handler, hbind, query, eval, cached, respond. cbn.
    destruct (findById_populate d (params_id req)) as [[[found|]|e] d1]; cbn; eauto.
    destruct (userId_id_toString found) as [owner|e]; cbn; eauto.
    destruct (String.eqb owner (hex (user_id req))); cbn; eauto.
    unfold Redis.cacheItinerary, Redis.unless_no_client, Redis.try_catch, Redis.setEx,
      Redis.call, Redis.throw, Redis.console_error. cbn.
    destruct (JSON.stringify (toJSON found)); cbn; eauto 8.
  - unfold getItinerary_part_000, handler, hbind, query, eval, cached, respond. cbn.
    destruct (findById_populate d (params_id req)) as [[[found|]|e] d1]; cbn; eauto.
    destruct (userId_toString found) as [owner|e]; cbn; eauto.
    destruct (String.eqb owner (hex (user_id req))); cbn; eauto.
    unfold Redis.cacheItinerary, Redis.unless_no_client, Redis.try_catch, Redis.setEx,
      Redis.call, Redis.throw, Redis.console_error. cbn.
    destruct (JSON.stringify (toJSON found)); cbn; eauto 8.
Qed.

End Support.

(** * The claims *)

Module Claims.
Import JSONFacts JSONLemmas BufferLemmas GlobFacts GlobLemmas MemRedisFacts MemRedisLemmas.
Import Observed Controller Support.

(** C1, as the code has it.  For a user and a filter record
    [cacheItineraryList] and [getCachedItineraryList] compute the same
    key, and so do the two public functions; the key is a function of
    the text [JSON.stringify] writes for the record, which lists the
    fields in the order the record has them: two records get the same
    key exactly when they serialize to the same text. *)
Theorem C1_key_follows_serialization (userId : string) (f1 f2 : value) :
  key_of_cacheItineraryList userId f1 = key_of_getCachedItineraryList userId f1
  /\ key_of_cachePublicItineraries f1 = key_of_getCachedPublicItineraries f1
  /\ (key_of_getCachedItineraryList userId f1 = key_of_getCachedItineraryList userId f2
      <-> JSON.stringify f1 = JSON.stringify f2)
  /\ (key_of_getCachedPublicItineraries f1 = key_of_getCachedPublicItineraries f2
      <-> JSON.stringify f1 = JSON.stringify f2).
Proof.
  destruct (key_of_list_functions userId f1) as [Hc1 Hg1].
  destruct (key_of_list_functions userId f2) as [_ Hg2].
  destruct (key_of_public_functions f1) as [Hpc1 Hpg1].
  destruct (key_of_public_functions f2) as [_ Hpg2].
  cbv zeta in *. repeat split.
  - congruence.
  - congruence.
  - rewrite Hg1, Hg2. apply list_key_inj.
  - intros H. congruence.
  - rewrite Hpg1, Hpg2. apply public_key_inj.
  - intros H. congruence.
Qed.

(** C1, as stated, fails on the two records of the specification: the
    same three fields in the two orders get two keys, for a user and
    for the public lists, and a list cached under the first order is a
    miss under the second. *)
Lemma C1_field_order_counterexample :
  Permutation Sample.page_limit_sort Sample.sort_limit_page
  /\ key_of_cacheItineraryList "42" (VObj Sample.page_limit_sort)
     = Some "itineraries:42:eyJwYWdlIjoxLCJsaW1pdCI6MTAsInNvcnQiOiItY3JlYXRlZEF0In0="
  /\ key_of_getCachedItineraryList "42" (VObj Sample.sort_limit_page)
     = Some "itineraries:42:eyJzb3J0IjoiLWNyZWF0ZWRBdCIsImxpbWl0IjoxMCwicGFnZSI6MX0="
  /\ key_of_cachePublicItineraries (VObj Sample.page_limit_sort)
     <> key_of_getCachedPublicItineraries (VObj Sample.sort_limit_page)
  /\ result_of (Redis.getCachedItineraryList "42" (VObj Sample.sort_limit_page))
       (server_after
          (Redis.cacheItineraryList "42" (VObj Sample.page_limit_sort)
             (Sample.envelope "Paris Trip"))
          Observed.empty)
     = Returned VNull
  /\ result_of (Redis.getCachedItineraryList "42" (VObj Sample.page_limit_sort))
       (server_after
          (Redis.cacheItineraryList "42" (VObj Sample.page_limit_sort)
             (Sample.envelope "Paris Trip"))
          Observed.empty)
     = Returned (Sample.envelope "Paris Trip").
Proof.
  split.
  { unfold Sample.page_limit_sort, Sample.sort_limit_page.
    eapply perm_trans; [apply perm_swap|].
    eapply perm_trans; [apply perm_skip, perm_swap|].
    apply perm_swap. }
  repeat split; try (vm_compute; reflexivity).
  vm_compute. discriminate.
Qed.

(** C2 on a request.  The public list of the first page is cached and
    shows the itinerary under its title; alice renames the itinerary
    and is answered with success; the key of the public list still
    holds the envelope with the old title, and [getCachedPublicItineraries]
    returns it.  The same key survives her [POST] and her [DELETE]. *)
Theorem C2_public_list_survives_mutations :
  result_of (Redis.getCachedPublicItineraries Sample.public_cacheKey) Sample.stocked
  = Returned (Sample.envelope "Paris Trip")
  /\ fst (updateItinerary Sample.rename Sample.world0) = Json 200 Sample.renamed
  /\ fst (Redis.getCachedPublicItineraries Sample.public_cacheKey
            (redis (snd (updateItinerary Sample.rename Sample.world0))))
     = Returned (Sample.envelope "Paris Trip")
  /\ store_of (redis (snd (updateItinerary Sample.rename Sample.world0)))
       ≫= (fun m => m !! Sample.public_key)
     = MemRedis.store Sample.stocked !! Sample.public_key
  /\ is_Some (MemRedis.store Sample.stocked !! Sample.public_key)
  /\ fst (deleteItinerary Sample.remove Sample.world0)
     = Json 200 (VObj [("success", VBool true);
                       ("message", VStr "Itinerary deleted successfully")])
  /\ fst (Redis.getCachedPublicItineraries Sample.public_cacheKey
            (redis (snd (deleteItinerary Sample.remove Sample.world0))))
     = Returned (Sample.envelope "Paris Trip")
  /\ fst (createItinerary Sample.add
            (World (MemRedis.connected Sample.stocked) (MemMongo.DB ∅ [Sample.trip] [])))
     = Json 201 (VObj [("success", VBool true); ("itinerary", Sample.stored_trip)])
  /\ fst (Redis.getCachedPublicItineraries Sample.public_cacheKey
            (redis (snd (createItinerary Sample.add
                           (World (MemRedis.connected Sample.stocked)
                              (MemMongo.DB ∅ [Sample.trip] []))))))
     = Returned (Sample.envelope "Paris Trip").
Proof.
  repeat split; try (vm_compute; reflexivity).
  vm_compute. eexists. reflexivity.
Qed.

(** C3 on a request.  The server holds an entry for the itinerary under
    [itinerary:<id>]; on [GET /api/itineraries/<id>] by its owner the
    handler queries the collection, answers with the document of the
    collection and not with the cached entry, and the one command it
    sends to the server is the [SETEX] that overwrites the entry.  The
    copy of [src/unnamed/part_000] queries the collection as well and
    sends the server nothing. *)
Theorem C3_getItinerary_reads_the_collection :
  result_of (Redis.getCachedItinerary (hex Sample.trip)) Sample.stocked
  = Returned Sample.draft
  /\ fst (getItinerary Sample.show Sample.world0)
     = Json 200 (VObj [("success", VBool true); ("itinerary", Sample.stored_trip)])
  /\ MemMongo.queries (db (snd (getItinerary Sample.show Sample.world0)))
     = [MemMongo.FindById (hex Sample.trip)]
  /\ MemRedis.commands <$> server_of (redis (snd (getItinerary Sample.show Sample.world0)))
     = Some (MemRedis.commands Sample.stocked
             ++ [MemRedis.SETEX ("itinerary:" ++ hex Sample.trip) 1800
                   Sample.stored_trip_text])%list
  /\ MemMongo.queries (db (snd (getItinerary_part_000 Sample.show Sample.world0)))
     = [MemMongo.FindById (hex Sample.trip)]
  /\ MemRedis.commands
       <$> server_of (redis (snd (getItinerary_part_000 Sample.show Sample.world0)))
     = Some (MemRedis.commands Sample.stocked).
Proof. repeat split; vm_compute; reflexivity. Qed.

(** C4, as the code has it.  For a user id with none of the
    metacharacters [*], [?], [[] and backslash of a Redis pattern (the
    hexadecimal ids of Mongo are such), [invalidateUserItineraryCaches]
    returns, removes every key [itineraries:<u>:...] whatever follows the
    scope, and leaves every key that does not begin with
    [itineraries:<u>:] as it was: the public lists, and the lists of any
    other user when neither id contains a colon. *)
Theorem C4_scope_invalidation (u : string) (c : MemRedis.t) (log : list string) :
  glob_free u = true ->
  exists c',
    Redis.invalidateUserItineraryCaches u (Redis.State (Some c) log)
    = (Returned tt, Redis.State (Some c') log)
    /\ (forall enc, MemRedis.store c' !! ("itineraries:" ++ u ++ ":" ++ enc) = None)
    /\ (forall k, String.prefix ("itineraries:" ++ u ++ ":") k = false ->
                  MemRedis.store c' !! k = MemRedis.store c !! k)
    /\ (forall u' enc, colon_free u = true -> colon_free u' = true -> u' <> u ->
                       MemRedis.store c' !! ("itineraries:" ++ u' ++ ":" ++ enc)
                       = MemRedis.store c !! ("itineraries:" ++ u' ++ ":" ++ enc))
    /\ (forall enc, MemRedis.store c' !! ("public_itineraries:" ++ enc)
                    = MemRedis.store c !! ("public_itineraries:" ++ enc)).
Proof.
  intros Hg.
  destruct (invalidateUserItineraryCaches_spec u c log Hg) as (c' & Hrun & Hc').
  exists c'. split; [exact Hrun|]. repeat split.
  - intros enc. rewrite Hc'.
    replace ("itineraries:" ++ u ++ ":" ++ enc) with (("itineraries:" ++ u ++ ":") ++ enc)
      by (rewrite !app_assoc; reflexivity).
    rewrite prefix_app. reflexivity.
  - intros k Hk. rewrite Hc', Hk. reflexivity.
  - intros u' enc Hu Hu' Hne. rewrite Hc'.
    destruct (String.prefix _ _) eqn:Hp; [|reflexivity].
    exfalso. apply Hne. symmetry.
    apply (scope_prefix_inv u u' enc Hu Hu'). exact Hp.
  - intros enc. rewrite Hc'. reflexivity.
Qed.

Lemma C4_scope_invalidation_witness :
  exists c',
    Redis.invalidateUserItineraryCaches (hex Sample.alice)
      (Redis.State (Some Sample.stocked) [])
    = (Returned tt, Redis.State (Some c') [])
    /\ (forall enc,
          MemRedis.store c' !! ("itineraries:" ++ hex Sample.alice ++ ":" ++ enc) = None)
    /\ (forall k, String.prefix ("itineraries:" ++ hex Sample.alice ++ ":") k = false ->
                  MemRedis.store c' !! k = MemRedis.store Sample.stocked !! k)
    /\ (forall u' enc, colon_free (hex Sample.alice) = true -> colon_free u' = true ->
                       u' <> hex Sample.alice ->
                       MemRedis.store c' !! ("itineraries:" ++ u' ++ ":" ++ enc)
                       = MemRedis.store Sample.stocked !! ("itineraries:" ++ u' ++ ":" ++ enc))
    /\ (forall enc, MemRedis.store c' !! ("public_itineraries:" ++ enc)
                    = MemRedis.store Sample.stocked !! ("public_itineraries:" ++ enc)).
Proof.
  exact (C4_scope_invalidation (hex Sample.alice) Sample.stocked [] eq_refl).
Defined.

(** C4, as stated, fails for ids that are not of that kind.  The list of
    user [42:7] is removed when the lists of user [42] are invalidated;
    and the list of a user whose id has a bracket survives the
    invalidation of that very user. *)
Lemma C4_any_scope_counterexample :
  "42:7" <> "42"
  /\ result_of (Redis.getCachedItineraryList "42:7" (Sample.filters_page 1))
       (server_after (Redis.cacheItineraryList "42:7" (Sample.filters_page 1)
                        (Sample.envelope "Rome")) Observed.empty)
     = Returned (Sample.envelope "Rome")
  /\ result_of (Redis.getCachedItineraryList "42:7" (Sample.filters_page 1))
       (server_after (Redis.invalidateUserItineraryCaches "42")
          (server_after (Redis.cacheItineraryList "42:7" (Sample.filters_page 1)
                           (Sample.envelope "Rome")) Observed.empty))
     = Returned VNull
  /\ result_of (Redis.getCachedItineraryList "u[1]" (Sample.filters_page 1))
       (server_after (Redis.invalidateUserItineraryCaches "u[1]")
          (server_after (Redis.cacheItineraryList "u[1]" (Sample.filters_page 1)
                           (Sample.envelope "Rome")) Observed.empty))
     = Returned (Sample.envelope "Rome").
Proof. repeat split; try discriminate; vm_compute; reflexivity. Qed.

(** C5. With no client ([redisClient] is [null]) every cache function is
    a no-op: the five read functions return [null], the write and
    delete functions return, and none of them touches the state of the
    module (no command is sent, nothing is logged, nothing is thrown). *)
Theorem C5_no_client_no_op {C : Type} {client : RedisClient C} (log : list string) :
  (forall userId,
     Redis.getCachedUser userId (Redis.State None log)
     = (Returned VNull, Redis.State None log)) /\
  (forall itineraryId,
     Redis.getCachedItinerary itineraryId (Redis.State None log)
     = (Returned VNull, Redis.State None log)) /\
  (forall userId filters,
     Redis.getCachedItineraryList userId filters (Redis.State None log)
     = (Returned VNull, Redis.State None log)) /\
  (forall filters,
     Redis.getCachedPublicItineraries filters (Redis.State None log)
     = (Returned VNull, Redis.State None log)) /\
  (forall key,
     Redis.getCache key (Redis.State None log)
     = (Returned VNull, Redis.State None log)) /\
  (forall userId userData,
     Redis.cacheUser userId userData (Redis.State None log)
     = (Returned tt, Redis.State None log)) /\
  (forall itineraryId itineraryData,
     Redis.cacheItinerary itineraryId itineraryData (Redis.State None log)
     = (Returned tt, Redis.State None log)) /\
  (forall userId filters data,
     Redis.cacheItineraryList userId filters data (Redis.State None log)
     = (Returned tt, Redis.State None log)) /\
  (forall filters data,
     Redis.cachePublicItineraries filters data (Redis.State None log)
     = (Returned tt, Redis.State None log)) /\
  (forall key data ttl,
     Redis.cache key data ttl (Redis.State None log)
     = (Returned tt, Redis.State None log)) /\
  (forall userId,
     Redis.invalidateUserCache userId (Redis.State None log)
     = (Returned tt, Redis.State None log)) /\
  (forall itineraryId,
     Redis.invalidateItineraryCache itineraryId (Redis.State None log)
     = (Returned tt, Redis.State None log)) /\
  (forall userId,
     Redis.invalidateUserItineraryCaches userId (Redis.State None log)
     = (Returned tt, Redis.State None log)) /\
  Redis.invalidatePublicItineraryCaches (Redis.State None log)
  = (Returned tt, Redis.State None log) /\
  (forall key,
     Redis.deleteCache key (Redis.State None log)
     = (Returned tt, Redis.State None log)).
Proof. repeat split. Qed.

(** C6. Every cache function catches what the client, [JSON.stringify],
    [Buffer.from] or [JSON.parse] throws: whatever the client does, each
    function returns, and a read function returns [null] when the client
    throws, when the key is not set and when its value is not a text of
    the JSON grammar, so that a malformed payload reads as a miss. *)
Theorem C6_errors_are_caught {C : Type} {client : RedisClient C} :
  Soft.every_function_returns /\ Soft.every_read_misses_softly.
Proof.
  split.
  - unfold Soft.every_function_returns.
    repeat split; intros; intros [[c|] log]; run_redis; unfold Redis.parse_or_null;
      split_match; eauto.
  - unfold Soft.every_read_misses_softly, Soft.list_misses_softly, Soft.misses_softly.
    repeat split; intros; run_redis; unfold Redis.parse_or_null, Redis.ret, Redis.throw;
      split_match; intros;
      run_redis; unfold Redis.parse_or_null, Redis.ret, Redis.throw;
      rewrite ?app_assoc in *; split_match; try congruence.
    all: intros;
      match goal with
      | Hw : JSON.well_formed ?d = false, E : context [JSON.parse ?d] |- _ =>
          destruct d; [|rewrite (GrammarLemmas.malformed_parse _ Hw) in E]; congruence
      end.
Qed.

(** C7. When [updateItinerary] answers with success, the itinerary of the
    request was found, its owner is the user of the request, and at the
    moment of the answer the server holds neither the key
    [itinerary:<id>] of the updated itinerary nor any key
    [itineraries:<user>:...] of that user.  The same holds when
    [deleteItinerary] answers with success, for the itinerary it found
    and deleted.  (The client is connected; the collection is any
    implementation of the model.) *)
Theorem C7_update_and_delete_invalidate {D Doc : Type} {model : ItineraryModel D Doc}
    (req : Request) (c : MemRedis.t) (log : list string) (d : D) (payload : value) :
  let w := World (Redis.State (Some c) log) d in
  (fst (updateItinerary req w) = Json 200 payload ->
   exists found d1 itinerary d2 c',
     findById d (params_id req) = (Returned (Some found), d1)
     /\ userId_toString found = Returned (hex (user_id req))
     /\ findByIdAndUpdate_populate d1 (params_id req) (body req)
        = (Returned (Some itinerary), d2)
     /\ payload = VObj [("success", VBool true); ("itinerary", toJSON itinerary)]
     /\ snd (updateItinerary req w) = World (Redis.State (Some c') log) d2
     /\ MemRedis.store c' !! ("itinerary:" ++ hex (doc_id itinerary)) = None
     /\ forall enc,
          MemRedis.store c' !! ("itineraries:" ++ hex (user_id req) ++ ":" ++ enc) = None)
  /\ (fst (deleteItinerary req w) = Json 200 payload ->
      exists found d1 d2 c',
        findById d (params_id req) = (Returned (Some found), d1)
        /\ userId_toString found = Returned (hex (user_id req))
        /\ snd (findByIdAndDelete d1 (params_id req)) = d2
        /\ snd (deleteItinerary req w) = World (Redis.State (Some c') log) d2
        /\ MemRedis.store c' !! ("itinerary:" ++ hex (doc_id found)) = None
        /\ forall enc,
             MemRedis.store c' !! ("itineraries:" ++ hex (user_id req) ++ ":" ++ enc) = None).
Proof.
  intros w. subst w. split.
  - unfold updateItinerary, handler, hbind, query, eval, cached, respond. cbn -[Redis.invalidateItineraryCache Redis.invalidateUserItineraryCaches].
    destruct (findById d (params_id req)) as [[[found|]|e] d1] eqn:E1; cbn -[Redis.invalidateItineraryCache Redis.invalidateUserItineraryCaches];
      try discriminate.
    destruct (userId_toString found) as [owner|e] eqn:E2; cbn -[Redis.invalidateItineraryCache Redis.invalidateUserItineraryCaches]; try discriminate.
    destruct (String.eqb owner (hex (user_id req))) eqn:E3; cbn -[Redis.invalidateItineraryCache Redis.invalidateUserItineraryCaches]; try discriminate.
    apply String.eqb_eq in E3. subst owner.
    destruct (findByIdAndUpdate_populate d1 (params_id req) (body req))
      as [[[itinerary|]|e] d2] eqn:E4; cbn -[Redis.invalidateItineraryCache Redis.invalidateUserItineraryCaches]; try discriminate.
    rewrite invalidateItineraryCache_spec. cbn -[Redis.invalidateItineraryCache Redis.invalidateUserItineraryCaches].
    destruct (invalidateUserItineraryCaches_spec (hex (user_id req)) 
                (MemRedis.Server
                   (delete ("itinerary:" ++ hex (doc_id itinerary)) (MemRedis.store c))
                   (MemRedis.commands c
                    ++ [MemRedis.DEL ["itinerary:" ++ hex (doc_id itinerary)]]))
                log (ObjectId_glob_free _)) as (c' & Hrun & Hc').
    rewrite Hrun. cbn. intros H. injection H as <-.
    exists found, d1, itinerary, d2, c'. repeat split; try assumption.
    + rewrite Hc'. simpl. rewrite lookup_delete_eq.
      reflexivity.
    + intros enc. rewrite Hc'.
      replace ("itineraries:" ++ hex (user_id req) ++ ":" ++ enc)
        with (("itineraries:" ++ hex (user_id req) ++ ":") ++ enc)
        by (rewrite !app_assoc; reflexivity).
      rewrite prefix_app. reflexivity.
  - unfold deleteItinerary, handler, hbind, query, eval, cached, respond. cbn -[Redis.invalidateItineraryCache Redis.invalidateUserItineraryCaches].
    destruct (findById d (params_id req)) as [[[found|]|e] d1] eqn:E1; cbn -[Redis.invalidateItineraryCache Redis.invalidateUserItineraryCaches];
      try discriminate.
    destruct (userId_toString found) as [owner|e] eqn:E2; cbn -[Redis.invalidateItineraryCache Redis.invalidateUserItineraryCaches]; try discriminate.
    destruct (String.eqb owner (hex (user_id req))) eqn:E3; cbn -[Redis.invalidateItineraryCache Redis.invalidateUserItineraryCaches]; try discriminate.
    apply String.eqb_eq in E3. subst owner.
    destruct (findByIdAndDelete d1 (params_id req)) as [[gone|e] d2] eqn:E4; cbn -[Redis.invalidateItineraryCache Redis.invalidateUserItineraryCaches];
      try discriminate.
    rewrite invalidateItineraryCache_spec. cbn -[Redis.invalidateItineraryCache Redis.invalidateUserItineraryCaches].
    destruct (invalidateUserItineraryCaches_spec (hex (user_id req)) 
                (MemRedis.Server
                   (delete ("itinerary:" ++ hex (doc_id found)) (MemRedis.store c))
                   (MemRedis.commands c
                    ++ [MemRedis.DEL ["itinerary:" ++ hex (doc_id found)]]))
                log (ObjectId_glob_free _)) as (c' & Hrun & Hc').
    rewrite Hrun. cbn. intros H.
    exists found, d1, d2, c'. repeat split; try assumption.
    + rewrite E4. reflexivity.
    + rewrite Hc'. simpl. rewrite lookup_delete_eq.
      reflexivity.
    + intros enc. rewrite Hc'.
      replace ("itineraries:" ++ hex (user_id req) ++ ":" ++ enc)
        with (("itineraries:" ++ hex (user_id req) ++ ":") ++ enc)
        by (rewrite !app_assoc; reflexivity).
      rewrite prefix_app. reflexivity.
Qed.

Lemma C7_update_and_delete_invalidate_witness :
  (exists found d1 itinerary d2 c',
     findById Sample.library (params_id Sample.rename) = (Returned (Some found), d1)
     /\ userId_toString found = Returned (hex (user_id Sample.rename))
     /\ findByIdAndUpdate_populate d1 (params_id Sample.rename) (body Sample.rename)
        = (Returned (Some itinerary), d2)
     /\ Sample.renamed = VObj [("success", VBool true); ("itinerary", toJSON itinerary)]
     /\ snd (updateItinerary Sample.rename
               (World (Redis.State (Some Sample.stocked) []) Sample.library))
        = World (Redis.State (Some c') []) d2
     /\ MemRedis.store c' !! ("itinerary:" ++ hex (doc_id itinerary)) = None
     /\ forall enc,
          MemRedis.store c' !! ("itineraries:" ++ hex (user_id Sample.rename) ++ ":" ++ enc)
          = None)
  /\ (exists found d1 d2 c',
        findById Sample.library (params_id Sample.remove) = (Returned (Some found), d1)
        /\ userId_toString found = Returned (hex (user_id Sample.remove))
        /\ snd (findByIdAndDelete d1 (params_id Sample.remove)) = d2
        /\ snd (deleteItinerary Sample.remove
                  (World (Redis.State (Some Sample.stocked) []) Sample.library))
           = World (Redis.State (Some c') []) d2
        /\ MemRedis.store c' !! ("itinerary:" ++ hex (doc_id found)) = None
        /\ forall enc,
             MemRedis.store c' !! ("itineraries:" ++ hex (user_id Sample.remove) ++ ":" ++ enc)
             = None).
Proof.
  split.
  - exact (proj1 (C7_update_and_delete_invalidate Sample.rename Sample.stocked []
                    Sample.library Sample.renamed) eq_refl).
  - exact (proj2 (C7_update_and_delete_invalidate Sample.remove Sample.stocked []
                    Sample.library
                    (VObj [("success", VBool true);
                           ("message", VStr "Itinerary deleted successfully")]))
             eq_refl).
Defined.

(** C8. On a connected client, reading an entity whose key is not set
    returns [null]; and right after [cacheUser] (or [cacheItinerary]) has
    stored a JSON-representable value under an id, [getCachedUser] (or
    [getCachedItinerary]) on that id returns the value as it was. *)
Theorem C8_cache_then_get (c : MemRedis.t) (id : string) (v : value) :
  JSON.representable v = true ->
  let st := MemRedis.connected c in
  fst (Redis.getCachedUser id (snd (Redis.cacheUser id v st))) = Returned v
  /\ fst (Redis.getCachedItinerary id (snd (Redis.cacheItinerary id v st))) = Returned v
  /\ (MemRedis.store c !! ("user:" ++ id) = None ->
      fst (Redis.getCachedUser id st) = Returned VNull)
  /\ (MemRedis.store c !! ("itinerary:" ++ id) = None ->
      fst (Redis.getCachedItinerary id st) = Returned VNull).
Proof.
  intros Hv st. subst st.
  destruct (parse_stringify v Hv) as (t & Ht & Hne & Hp). unfold JSON.stringify in Ht.
  repeat split.
  - unfold Redis.cacheUser, Redis.getCachedUser, Redis.unless_no_client, Redis.try_catch,
      Redis.setEx, JSON.stringify. simpl. rewrite Ht. simpl.
    rewrite (get_after_set c _ t 3600 v Hne Hp). reflexivity.
  - unfold Redis.cacheItinerary, Redis.getCachedItinerary, Redis.unless_no_client,
      Redis.try_catch, Redis.setEx, JSON.stringify. simpl. rewrite Ht. simpl.
    rewrite (get_after_set c _ t 1800 v Hne Hp). reflexivity.
  - intros Hk. run_redis. rewrite Hk. reflexivity.
  - intros Hk. run_redis. rewrite Hk. reflexivity.
Qed.

Lemma C8_cache_then_get_witness :
  fst (Redis.getCachedUser (hex Sample.alice)
         (snd (Redis.cacheUser (hex Sample.alice) Sample.john
                 (MemRedis.connected Observed.empty))))
  = Returned Sample.john.
Proof.
  exact (proj1 (C8_cache_then_get Observed.empty (hex Sample.alice) Sample.john eq_refl)).
Defined.

(** C9. Each populating function sends one [SETEX] with the key shape
    and the time to live of its namespace: [user:<userId>] for 3600 s,
    [itinerary:<itineraryId>] for 1800 s,
    [itineraries:<userId>:<base64 of the serialized filters>] for 600 s,
    [public_itineraries:<base64 of the serialized filters>] for 300 s.  A
    read function sends one [GET] and leaves the store, times to live
    included, as it was. *)
Theorem C9_keys_and_ttls (c : MemRedis.t) (log : list string) (id : string)
    (filters data : value) (tf td : string) :
  JSON.stringify filters = Some tf ->
  JSON.stringify data = Some td ->
  let st := Redis.State (Some c) log in
  let stored key seconds :=
    (Returned tt,
     Redis.State
       (Some (MemRedis.Server (<[key := (td, seconds)]> (MemRedis.store c))
                (MemRedis.commands c ++ [MemRedis.SETEX key seconds td])))
       log) in
  let read key :=
    Some (MemRedis.Server (MemRedis.store c) (MemRedis.commands c ++ [MemRedis.GET key])) in
  Redis.cacheUser id data st = stored ("user:" ++ id) 3600
  /\ Redis.cacheItinerary id data st = stored ("itinerary:" ++ id) 1800
  /\ Redis.cacheItineraryList id filters data st
     = stored ("itineraries:" ++ id ++ ":" ++ Buffer.base64 (Buffer.from tf)) 600
  /\ Redis.cachePublicItineraries filters data st
     = stored ("public_itineraries:" ++ Buffer.base64 (Buffer.from tf)) 300
  /\ server_of (snd (Redis.getCachedUser id st)) = read ("user:" ++ id)
  /\ server_of (snd (Redis.getCachedItinerary id st)) = read ("itinerary:" ++ id)
  /\ server_of (snd (Redis.getCachedItineraryList id filters st))
     = read ("itineraries:" ++ id ++ ":" ++ Buffer.base64 (Buffer.from tf))
  /\ server_of (snd (Redis.getCachedPublicItineraries filters st))
     = read ("public_itineraries:" ++ Buffer.base64 (Buffer.from tf))
  /\ server_of (snd (Redis.getCache id st)) = read id.
Proof.
  intros Hf Hd st stored read. subst st stored read. unfold JSON.stringify in *.
  repeat split; run_redis; rewrite ?Hf, ?Hd; simpl; try reflexivity;
    read_state; reflexivity.
Qed.

Lemma C9_keys_and_ttls_witness :
  Redis.cacheItineraryList "42" (VObj Sample.page_limit_sort) (VArr [VNum 7])
    (Redis.State (Some Observed.empty) [])
  = (Returned tt,
     Redis.State
       (Some (MemRedis.Server
                (<["itineraries:42:eyJwYWdlIjoxLCJsaW1pdCI6MTAsInNvcnQiOiItY3JlYXRlZEF0In0="
                   := ("[7]", 600)]> ∅)
                [MemRedis.SETEX
                   "itineraries:42:eyJwYWdlIjoxLCJsaW1pdCI6MTAsInNvcnQiOiItY3JlYXRlZEF0In0="
                   600 "[7]"]))
       []).
Proof.
  pose proof (C9_keys_and_ttls Observed.empty [] "42" (VObj Sample.page_limit_sort)
                (VArr [VNum 7]) Sample.page_limit_sort_text "[7]" eq_refl eq_refl) as H.
  exact (proj1 (proj2 (proj2 H))).
Defined.

(** C10. The value [null] is stored as the text [null] and read back as
    [null], which is also what the read functions return for a key that
    is not set: through [getCachedUser] and [getCache] a cached [null]
    cannot be told from a miss. *)
Theorem C10_cached_null_reads_as_miss (c : MemRedis.t) (id key : string) :
  let st := MemRedis.connected c in
  let unset k := MemRedis.connected (MemRedis.Server (delete k (MemRedis.store c))
                                      (MemRedis.commands c)) in
  store_of (snd (Redis.cacheUser id VNull st))
  = Some (<["user:" ++ id := ("null", 3600)]> (MemRedis.store c))
  /\ fst (Redis.getCachedUser id (snd (Redis.cacheUser id VNull st))) = Returned VNull
  /\ fst (Redis.getCachedUser id (unset ("user:" ++ id))) = Returned VNull
  /\ store_of (snd (Redis.cache key VNull None st))
     = Some (<[key := ("null", 3600)]> (MemRedis.store c))
  /\ fst (Redis.getCache key (snd (Redis.cache key VNull None st))) = Returned VNull
  /\ fst (Redis.getCache key (unset key)) = Returned VNull.
Proof.
  intros st unset. subst st unset.
  repeat split; run_redis; rewrite ?lookup_insert_eq, ?lookup_delete_eq; reflexivity.
Qed.

End Claims.

(** * The rest of the code at work *)

Module MoreRuns.
Import Controller.

(** [parseInt] on what a query may hold: white space and a unit, a sign
    and base 16, nothing to read, an array, an object, zeros in front. *)
Example parseInt_reads :
  List.map JS.parseInt
    [VStr " 42px"; VStr "-0x1F"; VStr "0x"; VStr ""; VStr "+7"; VNum (-12);
     VArr [VStr "3"; VStr "4"]; VObj []; VStr "007"; VBool true]
  = [Num 42; Num (-31); NaN; NaN; Num 7; Num (-12); Num 3; NaN; Num 7; NaN].
Proof. vm_compute. reflexivity. Qed.

(** The text of a date: the epoch, a leap day, the millisecond before
    the epoch, the first year with five digits, a year before the year
    0, and the last day of the range. *)
Example toISOString_writes :
  List.map Itinerary.toISOString
    [0; 951782400000; -1; 253402300800000; -62198755200000; 8640000000000000]
  = ["1970-01-01T00:00:00.000Z"; "2000-02-29T00:00:00.000Z"; "1969-12-31T23:59:59.999Z";
     "+010000-01-01T00:00:00.000Z"; "-000001-01-01T00:00:00.000Z";
     "+275760-09-13T00:00:00.000Z"].
Proof. vm_compute. reflexivity. Qed.

(** Texts of the grammar whose values lie outside the model, which
    [JSON.parse] of the model does not read, and texts that are not of
    the grammar: a zero in front, a point or a comma with nothing after
    it, no text, a word cut short, an envelope cut short. *)
Example grammar_and_model :
  List.map JSON.well_formed
    ["1.5"; "1e3"; "-0.5E-2"; "[1,2.5]"; String "034" ("\u20ac" ++ String "034" "")]
  = [true; true; true; true; true]
  /\ List.map JSON.parse
       ["1.5"; "1e3"; "-0.5E-2"; "[1,2.5]"; String "034" ("\u20ac" ++ String "034" "")]
     = [None; None; None; None; None]
  /\ List.map JSON.well_formed
       ["01"; "1."; "[1,]"; ""; "nul"; "{" ++ JSON.QuoteJSONString "itineraries" ++ ":["]
     = [false; false; false; false; false; false].
Proof. repeat split; vm_compute; reflexivity. Qed.

(** The spread of a cached value into the answer. *)
Example spread_of_an_array_and_of_an_object :
  JS.spread_success (VArr [VNum 1; VNum 2])
  = [("0", VNum 1); ("1", VNum 2); ("success", VBool true)]
  /\ JS.spread_success (VObj [("a", VNum 1); ("success", VBool false)])
     = [("success", VBool false); ("a", VNum 1)].
Proof. split; vm_compute; reflexivity. Qed.

(** A week in Paris, shared: seven days, both ends included. *)
Example shared_week :
  fst (ShareController.getSharedItinerary Cases.share
         (World (MemRedis.connected Observed.empty)
            (MockShared.Mock (Some Cases.week) [])))
  = Json 200
      (VObj [("success", VBool true);
             ("itinerary",
              VObj [("_id", VStr "64b7f0c2a1d3e4f5a6b7c8d9");
                    ("title", VStr "Paris Trip");
                    ("destination", VStr "Paris, France");
                    ("startDate", VStr "2024-06-01T00:00:00.000Z");
                    ("endDate", VStr "2024-06-07T00:00:00.000Z");
                    ("activities", VArr []);
                    ("createdAt", VStr "2024-05-29T16:26:40.000Z");
                    ("updatedAt", VStr "2024-05-29T16:26:40.000Z");
                    ("duration", VNum 7);
                    ("createdBy", VStr "John Doe")])]).
Proof. vm_compute. reflexivity. Qed.

(** Bob may not share the itinerary of alice; alice may, and a request
    without the header [Host] gets a link to the host [undefined]. *)
Example share_by_another_user_and_without_host :
  fst (ShareController.shareItinerary_part_000
         (ShareController.ShareReq (hex Sample.trip) Sample.bob "http" VUndefined)
         Sample.world0)
  = failure 403 "Not authorized to share this itinerary"
  /\ fst (ShareController.shareItinerary_part_000
            (ShareController.ShareReq (hex Sample.trip) Sample.alice "http" VUndefined)
            Sample.world0)
     = Json 200
         (VObj [("success", VBool true);
                ("shareableId", VStr "64b7f0c2a1d3e4f5a6b7c8d9");
                ("shareUrl",
                 VStr "http://undefined/api/itineraries/share/64b7f0c2a1d3e4f5a6b7c8d9")]).
Proof. split; vm_compute; reflexivity. Qed.

(** The first list request of alice goes to the collection, with the
    default page, limit and order, and is stored; the same request is
    then answered with no further query. *)
Example list_read_through :
  MockItinerary.calls
    (db (snd (ListController.getItineraries Cases.first_page
                (snd (ListController.getItineraries Cases.first_page
                        (World (MemRedis.connected Observed.empty) Cases.one_trip))))))
  = [MockItinerary.Find (MkFilters (Some Sample.alice) None None) "name email"
       ("createdAt", -1) (Num 0) (Num 10);
     MockItinerary.CountDocuments (MkFilters (Some Sample.alice) None None)].
Proof. vm_compute. reflexivity. Qed.

End MoreRuns.

(** * Lemmas on the handlers *)

Module HandlerLemmas.
Import JSONFacts JSONLemmas BufferLemmas GlobFacts GlobLemmas MemRedisFacts MemRedisLemmas.
Import KeyFacts KeyLemmas Observed Controller Support.

(** Whatever the client does, a cache function returns. *)
Lemma functions_return {C : Type} {client : RedisClient C} : Soft.every_function_returns.
Proof.
  unfold Soft.every_function_returns.
  repeat split; intros; intros [[c|] log]; run_redis; unfold Redis.parse_or_null;
    split_match; eauto.
Qed.

(** A call of a cache function that returns does not end the handler,
    and leaves the collection as it was. *)
Lemma cached_returns {C D : Type} {A : Type} (m : Redis.M C A) (st : Redis.state C) (d : D) :
  Soft.returns m ->
  exists a st', cached m (World st d) = (@Continue A a, World st' d).
Proof.
  intros Hm. destruct (Hm st) as (a & st' & E).
  exists a, st'. unfold cached. simpl. rewrite E. reflexivity.
Qed.

(** In each handler the calls of the cache go through [cached]. *)
Ltac step_cached :=
  match goal with
  | |- context [cached ?m (World ?st ?d)] =>
      let a := fresh "a" in
      let st' := fresh "st" in
      let E := fresh "E" in
      destruct (cached_returns m st d ltac:(apply functions_return)) as (a & st' & E);
      rewrite E; clear E
  end.

(** A property that has been defined is the one that is read. *)
Lemma get_field_CreateDataProperty (o : list (string * value)) (k : string) (v : value) :
  MemMongo.get_field k (JSON.CreateDataProperty o k v) = Some v.
Proof.
  induction o as [|[k' v'] o IH]; simpl.
  - rewrite String.eqb_refl. reflexivity.
  - destruct (String.eqb k' k) eqn:E; simpl; rewrite E; [reflexivity|exact IH].
Qed.

(** After a mutation that was answered with success, the user of the
    request has no list left on the server. *)
Lemma mutations_clear_lists {D Doc : Type} {model : ItineraryModel D Doc}
    (req : Request) (c : MemRedis.t) (log : list string) (d : D) :
  let w := World (Redis.State (Some c) log) d in
  let cleared (h : Request -> world MemRedis.t D -> response * world MemRedis.t D)
      (status : Z) :=
    forall payload,
      fst (h req w) = Json status payload ->
      exists c',
        redis (snd (h req w)) = Redis.State (Some c') log
        /\ forall enc,
             MemRedis.store c' !! ("itineraries:" ++ hex (user_id req) ++ ":" ++ enc)
             = None in
  cleared createItinerary 201 /\ cleared updateItinerary 200
  /\ cleared deleteItinerary 200.
Proof.
  intros w cleared. subst w cleared. cbv beta.
  assert (Hinv : forall c0, exists c',
            Redis.invalidateUserItineraryCaches (hex (user_id req))
              (Redis.State (Some c0) log)
            = (Returned tt, Redis.State (Some c') log)
            /\ forall enc,
                 MemRedis.store c' !! ("itineraries:" ++ hex (user_id req) ++ ":" ++ enc)
                 = None).
  { intros c0.
    destruct (invalidateUserItineraryCaches_spec (hex (user_id req)) c0 log
                (ObjectId_glob_free _)) as (c' & Hrun & Hc').
    exists c'. split; [exact Hrun|]. intros enc. rewrite Hc'.
    replace ("itineraries:" ++ hex (user_id req) ++ ":" ++ enc)
      with (("itineraries:" ++ hex (user_id req) ++ ":") ++ enc)
      by (rewrite !app_assoc; reflexivity).
    rewrite prefix_app. reflexivity. }
  repeat split; intros payload.
  - unfold createItinerary, handler, hbind, query, eval, cached, respond.
    cbn -[Redis.invalidateUserItineraryCaches].
    destruct (create d _) as [[x|e] d1];
      cbn -[Redis.invalidateUserItineraryCaches]; try discriminate.
    destruct (populate d1 x) as [[y|e] d2];
      cbn -[Redis.invalidateUserItineraryCaches]; try discriminate.
    destruct (Hinv c) as (c' & -> & Hc'). cbn. eauto.
  - unfold updateItinerary, handler, hbind, query, eval, cached, respond.
    cbn -[Redis.invalidateItineraryCache Redis.invalidateUserItineraryCaches].
    destruct (findById d (params_id req)) as [[[found|]|e] d1];
      cbn -[Redis.invalidateItineraryCache Redis.invalidateUserItineraryCaches];
      try discriminate.
    destruct (userId_toString found) as [owner|e];
      cbn -[Redis.invalidateItineraryCache Redis.invalidateUserItineraryCaches];
      try discriminate.
    destruct (String.eqb owner (hex (user_id req)));
      cbn -[Redis.invalidateItineraryCache Redis.invalidateUserItineraryCaches];
      try discriminate.
    destruct (findByIdAndUpdate_populate d1 (params_id req) (body req))
      as [[[itinerary|]|e] d2];
      cbn -[Redis.invalidateItineraryCache Redis.invalidateUserItineraryCaches];
      try discriminate.
    rewrite invalidateItineraryCache_spec.
    cbn -[Redis.invalidateItineraryCache Redis.invalidateUserItineraryCaches].
    match goal with
    | |- context [Redis.invalidateUserItineraryCaches _ (Redis.State (Some ?c0) log)] =>
        destruct (Hinv c0) as (c' & -> & Hc')
    end.
    cbn. eauto.
  - unfold deleteItinerary, handler, hbind, query, eval, cached, respond.
    cbn -[Redis.invalidateItineraryCache Redis.invalidateUserItineraryCaches].
    destruct (findById d (params_id req)) as [[[found|]|e] d1];
      cbn -[Redis.invalidateItineraryCache Redis.invalidateUserItineraryCaches];
      try discriminate.
    destruct (userId_toString found) as [owner|e];
      cbn -[Redis.invalidateItineraryCache Redis.invalidateUserItineraryCaches];
      try discriminate.
    destruct (String.eqb owner (hex (user_id req)));
      cbn -[Redis.invalidateItineraryCache Redis.invalidateUserItineraryCaches];
      try discriminate.
    destruct (findByIdAndDelete d1 (params_id req)) as [[gone|e] d2];
      cbn -[Redis.invalidateItineraryCache Redis.invalidateUserItineraryCaches];
      try discriminate.
    rewrite invalidateItineraryCache_spec.
    cbn -[Redis.invalidateItineraryCache Redis.invalidateUserItineraryCaches].
    match goal with
    | |- context [Redis.invalidateUserItineraryCaches _ (Redis.State (Some ?c0) log)] =>
        destruct (Hinv c0) as (c' & -> & Hc')
    end.
    cbn. eauto.
Qed.

End HandlerLemmas.

(** * Lemmas on the handlers of the lists *)

Module ListLemmas.
Import JSONFacts JSONLemmas BufferLemmas GlobFacts GlobLemmas MemRedisFacts MemRedisLemmas.
Import KeyFacts KeyLemmas Observed Controller Support HandlerLemmas ListController Reads.

(** A read of a list returns what the store holds under the key, and
    sends one [GET]. *)
Lemma getCachedItineraryList_reads (userId : string) (filters : value) (key : string)
    (c : MemRedis.t) (log : list string) :
  list_key userId filters = Some key ->
  exists log',
    Redis.getCachedItineraryList userId filters (Redis.State (Some c) log)
    = (Returned (read_of (MemRedis.store c !! key)),
       Redis.State (Some (MemRedis.Server (MemRedis.store c)
                            (MemRedis.commands c ++ [MemRedis.GET key]))) log').
Proof.
  unfold list_key, JSON.stringify. intros Hk.
  destruct (JSON.SerializeJSONProperty filters) as [t|] eqn:Ht; [|discriminate Hk].
  simpl in Hk. injection Hk as <-.
  run_redis. rewrite Ht. simpl. unfold read_of, Redis.parse_or_null, Redis.ret, Redis.throw.
  destruct (MemRedis.store c !! _) as [[data ttl]|]; simpl; eauto.
  destruct data as [|a data]; simpl; eauto.
  destruct (JSON.parse (String a data)); simpl; eauto.
Qed.

Lemma getCachedPublicItineraries_reads (filters : value) (key : string)
    (c : MemRedis.t) (log : list string) :
  public_list_key filters = Some key ->
  exists log',
    Redis.getCachedPublicItineraries filters (Redis.State (Some c) log)
    = (Returned (read_of (MemRedis.store c !! key)),
       Redis.State (Some (MemRedis.Server (MemRedis.store c)
                            (MemRedis.commands c ++ [MemRedis.GET key]))) log').
Proof.
  unfold public_list_key, JSON.stringify. intros Hk.
  destruct (JSON.SerializeJSONProperty filters) as [t|] eqn:Ht; [|discriminate Hk].
  simpl in Hk. injection Hk as <-.
  run_redis. rewrite Ht. simpl. unfold read_of, Redis.parse_or_null, Redis.ret, Redis.throw.
  destruct (MemRedis.store c !! _) as [[data ttl]|]; simpl; eauto.
  destruct data as [|a data]; simpl; eauto.
  destruct (JSON.parse (String a data)); simpl; eauto.
Qed.

(** A write of a list stores the text of the envelope for 600 or 300
    seconds. *)
Lemma cacheItineraryList_writes (userId : string) (filters data : value) (key td : string)
    (c : MemRedis.t) (log : list string) :
  list_key userId filters = Some key ->
  JSON.stringify data = Some td ->
  Redis.cacheItineraryList userId filters data (Redis.State (Some c) log)
  = (Returned tt,
     Redis.State (Some (MemRedis.Server (<[key := (td, 600)]> (MemRedis.store c))
                          (MemRedis.commands c ++ [MemRedis.SETEX key 600 td]))) log).
Proof.
  unfold list_key, JSON.stringify. intros Hk Hd.
  destruct (JSON.SerializeJSONProperty filters) as [t|] eqn:Ht; [|discriminate Hk].
  simpl in Hk. injection Hk as <-.
  run_redis. rewrite Ht. simpl. rewrite Hd. reflexivity.
Qed.

Lemma cachePublicItineraries_writes (filters data : value) (key td : string)
    (c : MemRedis.t) (log : list string) :
  public_list_key filters = Some key ->
  JSON.stringify data = Some td ->
  Redis.cachePublicItineraries filters data (Redis.State (Some c) log)
  = (Returned tt,
     Redis.State (Some (MemRedis.Server (<[key := (td, 300)]> (MemRedis.store c))
                          (MemRedis.commands c ++ [MemRedis.SETEX key 300 td]))) log).
Proof.
  unfold public_list_key, JSON.stringify. intros Hk Hd.
  destruct (JSON.SerializeJSONProperty filters) as [t|] eqn:Ht; [|discriminate Hk].
  simpl in Hk. injection Hk as <-.
  run_redis. rewrite Ht. simpl. rewrite Hd. reflexivity.
Qed.

(** An entry that was written from a value is read as that value. *)
Lemma read_of_written (v : value) (t : string) (ttl : Z) :
  JSON.representable v = true -> JSON.stringify v = Some t ->
  read_of (Some (t, ttl)) = v.
Proof.
  intros Hv Ht. destruct (parse_stringify v Hv) as (t' & Ht' & Hne & Hp).
  assert (t' = t) by congruence. subst t'.
  unfold read_of. destruct t; [congruence|]. rewrite Hp. reflexivity.
Qed.

(** The key of a filter record of a handler: the record is an object. *)
Lemma cacheKey_has_key (userId : string) (q : list (string * value)) :
  exists key, list_key userId (cacheKey q) = Some key.
Proof. unfold list_key, cacheKey. simpl. eauto. Qed.

Lemma public_cacheKey_has_key (q : list (string * value)) :
  exists key, public_list_key (public_cacheKey q) = Some key.
Proof. unfold public_list_key, public_cacheKey. simpl. eauto. Qed.

(** [filters] reads the request only: it gives the filters or ends with
    the error of [RegExp], the same in every world, and leaves the world
    as it is. *)
Lemma filters_run {C D R : Type} {model : ListModel D R} (owner : option ObjectId)
    (q : list (string * value)) :
  (exists f, forall w : world C D, filters owner q w = (Continue _ f, w))
  \/ (exists e, forall w : world C D, filters owner q w = (Finish _ (Next e), w)).
Proof.
  unfold filters, hbind, eval.
  destruct (JS.truthy (JS.Get q "destination")).
  - destruct (RegExp (JS.ToString (JS.Get q "destination")) "i") as [r|e].
    + left. eexists. intros w. reflexivity.
    + right. eexists. intros w. reflexivity.
  - left. eexists. intros w. reflexivity.
Qed.

(** The envelope of an answer that JSON represents is represented. *)
Lemma representable_tail (p : string * value) (l : list (string * value)) :
  JSON.representable (VObj (p :: l)) = true -> JSON.representable (VObj l) = true.
Proof.
  cbn [JSON.representable forallb List.map JSON.distinct].
  intros H. apply andb_prop in H as [H1 H2].
  apply andb_prop in H1 as [_ H1]. apply andb_prop in H2 as [_ H2].
  rewrite H1, H2. reflexivity.
Qed.

Lemma spread_success_result (q : list (string * value)) (itineraries : list value)
    (total : N) :
  exists l, result q itineraries total = VObj l
            /\ JS.spread_success (result q itineraries total) = ("success", VBool true) :: l.
Proof. eexists. split; reflexivity. Qed.

Lemma result_representable (q : list (string * value)) (itineraries : list value)
    (total : N) :
  JSON.representable (VObj (JS.spread_success (result q itineraries total))) = true ->
  JSON.representable (result q itineraries total) = true.
Proof.
  destruct (spread_success_result q itineraries total) as (l & -> & ->).
  apply representable_tail.
Qed.

Lemma getItineraries_hit {D R : Type} {model : ListModel D R}
    (req : ListRequest) (key : string) (c : MemRedis.t) (log : list string) (d : D) :
  list_key (hex (req_user_id req)) (cacheKey (req_query req)) = Some key ->
  (exists f, forall w : world MemRedis.t D,
      filters (Some (req_user_id req)) (req_query req) w = (Continue _ f, w)) ->
  JS.truthy (read_of (MemRedis.store c !! key)) = true ->
  exists log',
    getItineraries req (World (Redis.State (Some c) log) d)
    = (Json 200 (VObj (JS.spread_success (read_of (MemRedis.store c !! key)))),
       World (Redis.State (Some (MemRedis.Server (MemRedis.store c)
                                   (MemRedis.commands c ++ [MemRedis.GET key]))) log') d).
Proof.
  intros Hkey [f Hf] Hv.
  destruct (getCachedItineraryList_reads _ _ key c log Hkey) as [log' Hget].
  exists log'. unfold getItineraries, handler, hbind. rewrite Hf.
  unfold cached at 1. cbn [redis db]. rewrite Hget, Hv. reflexivity.
Qed.

Lemma getItineraries_post {D R : Type} {model : ListModel D R}
    (req : ListRequest) (key : string) (c : MemRedis.t) (log : list string) (d : D)
    (payload : value) :
  list_key (hex (req_user_id req)) (cacheKey (req_query req)) = Some key ->
  fst (getItineraries req (World (Redis.State (Some c) log) d)) = Json 200 payload ->
  (exists f, forall w : world MemRedis.t D,
      filters (Some (req_user_id req)) (req_query req) w = (Continue _ f, w))
  /\ exists c' log',
       redis (snd (getItineraries req (World (Redis.State (Some c) log) d)))
       = Redis.State (Some c') log'
       /\ (JSON.representable payload = true ->
           JS.truthy (read_of (MemRedis.store c' !! key)) = true
           /\ VObj (JS.spread_success (read_of (MemRedis.store c' !! key))) = payload).
Proof.
  intros Hkey.
  destruct (getItineraries req _) as [r w'] eqn:E. cbn [fst snd]. intros ->.
  destruct (filters_run (C:=MemRedis.t) (Some (req_user_id req)) (req_query req))
    as [[f Hf]|[e He]].
  2:{ unfold getItineraries, handler, hbind in E. rewrite He in E. discriminate E. }
  split; [eauto|].
  destruct (getCachedItineraryList_reads _ _ key c log Hkey) as [log' Hget].
  unfold getItineraries, handler, hbind in E. rewrite Hf in E.
  unfold cached at 1 in E. cbn [redis db] in E. rewrite Hget in E.
  destruct (JS.truthy (read_of (MemRedis.store c !! key))) eqn:Hv.
  - unfold respond in E. injection E as <- <-. cbn [redis].
    eexists _, _. split; [reflexivity|]. cbn [MemRedis.store]. auto.
  - unfold eval in E. destruct (sortObj (req_query req)) as [s|e]; [|discriminate E].
    unfold query at 1 in E. cbn [db redis] in E.
    destruct (find_lean d f _ _ _ _) as [[its|e] d1]; [|discriminate E].
    unfold query at 1 in E. cbn [db redis] in E.
    destruct (countDocuments d1 f) as [[total|e] d2]; [|discriminate E].
    unfold cached at 1 in E. cbn [db redis] in E.
    destruct (JSON.stringify (result (req_query req) its total)) as [td|] eqn:Htd;
      [|discriminate Htd].
    rewrite (cacheItineraryList_writes _ _ _ key td _ _ Hkey Htd) in E.
    unfold respond in E. injection E as <- <-. cbn [redis].
    eexists _, _. split; [reflexivity|]. cbn [MemRedis.store].
    intros Hp. rewrite lookup_insert_eq.
    rewrite (read_of_written _ td 600 (result_representable _ _ _ Hp) Htd).
    split; reflexivity.
Qed.


Lemma getPublicItineraries_hit {D R : Type} {model : ListModel D R}
    (req : ListRequest) (key : string) (c : MemRedis.t) (log : list string) (d : D) :
  public_list_key (public_cacheKey (req_query req)) = Some key ->
  (exists f, forall w : world MemRedis.t D,
      filters None (req_query req) w = (Continue _ f, w)) ->
  JS.truthy (read_of (MemRedis.store c !! key)) = true ->
  exists log',
    getPublicItineraries req (World (Redis.State (Some c) log) d)
    = (Json 200 (VObj (JS.spread_success (read_of (MemRedis.store c !! key)))),
       World (Redis.State (Some (MemRedis.Server (MemRedis.store c)
                                   (MemRedis.commands c ++ [MemRedis.GET key]))) log') d).
Proof.
  intros Hkey [f Hf] Hv.
  destruct (getCachedPublicItineraries_reads _ key c log Hkey) as [log' Hget].
  exists log'. unfold getPublicItineraries, handler, hbind. rewrite Hf.
  unfold cached at 1. cbn [redis db]. rewrite Hget, Hv. reflexivity.
Qed.

Lemma getPublicItineraries_post {D R : Type} {model : ListModel D R}
    (req : ListRequest) (key : string) (c : MemRedis.t) (log : list string) (d : D)
    (payload : value) :
  public_list_key (public_cacheKey (req_query req)) = Some key ->
  fst (getPublicItineraries req (World (Redis.State (Some c) log) d)) = Json 200 payload ->
  (exists f, forall w : world MemRedis.t D,
      filters None (req_query req) w = (Continue _ f, w))
  /\ exists c' log',
       redis (snd (getPublicItineraries req (World (Redis.State (Some c) log) d)))
       = Redis.State (Some c') log'
       /\ (JSON.representable payload = true ->
           JS.truthy (read_of (MemRedis.store c' !! key)) = true
           /\ VObj (JS.spread_success (read_of (MemRedis.store c' !! key))) = payload).
Proof.
  intros Hkey.
  destruct (getPublicItineraries req _) as [r w'] eqn:E. cbn [fst snd]. intros ->.
  destruct (filters_run (C:=MemRedis.t) None (req_query req))
    as [[f Hf]|[e He]].
  2:{ unfold getPublicItineraries, handler, hbind in E. rewrite He in E. discriminate E. }
  split; [eauto|].
  destruct (getCachedPublicItineraries_reads _ key c log Hkey) as [log' Hget].
  unfold getPublicItineraries, handler, hbind in E. rewrite Hf in E.
  unfold cached at 1 in E. cbn [redis db] in E. rewrite Hget in E.
  destruct (JS.truthy (read_of (MemRedis.store c !! key))) eqn:Hv.
  - unfold respond in E. injection E as <- <-. cbn [redis].
    eexists _, _. split; [reflexivity|]. cbn [MemRedis.store]. auto.
  - unfold eval in E. destruct (sortObj (req_query req)) as [s|e]; [|discriminate E].
    unfold query at 1 in E. cbn [db redis] in E.
    destruct (find_lean d f _ _ _ _) as [[its|e] d1]; [|discriminate E].
    unfold query at 1 in E. cbn [db redis] in E.
    destruct (countDocuments d1 f) as [[total|e] d2]; [|discriminate E].
    unfold cached at 1 in E. cbn [db redis] in E.
    destruct (JSON.stringify (result (req_query req) its total)) as [td|] eqn:Htd;
      [|discriminate Htd].
    rewrite (cachePublicItineraries_writes _ _ key td _ _ Hkey Htd) in E.
    unfold respond in E. injection E as <- <-. cbn [redis].
    eexists _, _. split; [reflexivity|]. cbn [MemRedis.store].
    intros Hp. rewrite lookup_insert_eq.
    rewrite (read_of_written _ td 300 (result_representable _ _ _ Hp) Htd).
    split; reflexivity.
Qed.


(** With nothing to serve under the key, a handler of the lists does
    what it does with no client at all. *)
Lemma getItineraries_miss {C D R : Type} {client : RedisClient C} {model : ListModel D R}
    (req : ListRequest) (st : Redis.state C) (d : D) :
  (forall v, fst (Redis.getCachedItineraryList (hex (req_user_id req))
                    (cacheKey (req_query req)) st) = Returned v ->
             JS.truthy v = false) ->
  fst (getItineraries req (World st d))
  = fst (getItineraries req (World (Redis.State None []) d))
  /\ db (snd (getItineraries req (World st d)))
     = db (snd (getItineraries req (World (Redis.State None []) d))).
Proof.
  intros Hmiss.
  unfold getItineraries, handler, hbind.
  destruct (filters_run (C:=C) (Some (req_user_id req)) (req_query req))
    as [[f Hf]|[e He]]; [rewrite !Hf|rewrite !He; split; reflexivity].
  unfold cached at 1 3 5 7. cbn [redis db].
  destruct (Redis.getCachedItineraryList _ _ st) as [[v|e] st'] eqn:Eget.
  2:{ exfalso. destruct (functions_return (C:=C)) as (_ & _ & Hret & _).
      destruct (Hret (hex (req_user_id req)) (cacheKey (req_query req)) st)
        as (a & st'' & E). congruence. }
  rewrite (Hmiss v eq_refl).
  change (Redis.getCachedItineraryList (hex (req_user_id req)) (cacheKey (req_query req))
            (Redis.State None []))
    with (Returned VNull, Redis.State (None : option C) []).
  cbn [JS.truthy]. unfold eval.
  destruct (sortObj (req_query req)) as [s|e]; [|split; reflexivity].
  unfold query. cbn [db redis].
  destruct (find_lean d f _ _ _ _) as [[its|e] d1]; [|split; reflexivity].
  cbn [db redis].
  destruct (countDocuments d1 f) as [[total|e] d2]; [|split; reflexivity].
  repeat step_cached. split; reflexivity.
Qed.

Lemma getPublicItineraries_miss {C D R : Type} {client : RedisClient C} {model : ListModel D R}
    (req : ListRequest) (st : Redis.state C) (d : D) :
  (forall v, fst (Redis.getCachedPublicItineraries
                    (public_cacheKey (req_query req)) st) = Returned v ->
             JS.truthy v = false) ->
  fst (getPublicItineraries req (World st d))
  = fst (getPublicItineraries req (World (Redis.State None []) d))
  /\ db (snd (getPublicItineraries req (World st d)))
     = db (snd (getPublicItineraries req (World (Redis.State None []) d))).
Proof.
  intros Hmiss.
  unfold getPublicItineraries, handler, hbind.
  destruct (filters_run (C:=C) None (req_query req))
    as [[f Hf]|[e He]]; [rewrite !Hf|rewrite !He; split; reflexivity].
  unfold cached at 1 3 5 7. cbn [redis db].
  destruct (Redis.getCachedPublicItineraries _ st) as [[v|e] st'] eqn:Eget.
  2:{ exfalso. destruct (functions_return (C:=C)) as (_ & _ & _ & Hret & _).
      destruct (Hret (public_cacheKey (req_query req)) st)
        as (a & st'' & E). congruence. }
  rewrite (Hmiss v eq_refl).
  change (Redis.getCachedPublicItineraries (public_cacheKey (req_query req))
            (Redis.State None []))
    with (Returned VNull, Redis.State (None : option C) []).
  cbn [JS.truthy]. unfold eval.
  destruct (sortObj (req_query req)) as [s|e]; [|split; reflexivity].
  unfold query. cbn [db redis].
  destruct (find_lean d f _ _ _ _) as [[its|e] d1]; [|split; reflexivity].
  cbn [db redis].
  destruct (countDocuments d1 f) as [[total|e] d2]; [|split; reflexivity].
  repeat step_cached. split; reflexivity.
Qed.

(** With nothing to serve under its key, a read of a list returns a
    value that is falsy, for any client. *)
Lemma read_of_nothing (d : string) :
  d = "" \/ JSON.well_formed d = false
  \/ (exists v, JSON.parse d = Some v /\ JS.truthy v = false) ->
  JS.truthy (read_of (Some (d, 0))) = false.
Proof.
  unfold read_of. intros [->|[Hw|(v & Hv & Hf)]]; [reflexivity| |].
  - destruct d; [reflexivity|].
    rewrite (GrammarLemmas.malformed_parse _ Hw). reflexivity.
  - destruct d; [reflexivity|]. rewrite Hv. exact Hf.
Qed.

Lemma list_read_any {C : Type} {client : RedisClient C} (userId : string)
    (filters : value) (key : string) (c : C) (log : list string) :
  list_key userId filters = Some key ->
  fst (Redis.getCachedItineraryList userId filters (Redis.State (Some c) log))
  = Returned match fst (client_get c key) with
             | Returned (Some d) => read_of (Some (d, 0))
             | _ => VNull
             end.
Proof.
  unfold list_key, JSON.stringify. intros Hk.
  destruct (JSON.SerializeJSONProperty filters) as [t|] eqn:Ht; [|discriminate Hk].
  simpl in Hk. injection Hk as <-.
  run_redis. rewrite Ht. simpl. unfold read_of, Redis.parse_or_null, Redis.ret, Redis.throw.
  destruct (client_get c _) as [[[d|]|e] c']; simpl; try reflexivity.
  destruct d as [|a d]; simpl; [reflexivity|].
  destruct (JSON.parse (String a d)); reflexivity.
Qed.

Lemma public_read_any {C : Type} {client : RedisClient C} (filters : value)
    (key : string) (c : C) (log : list string) :
  public_list_key filters = Some key ->
  fst (Redis.getCachedPublicItineraries filters (Redis.State (Some c) log))
  = Returned match fst (client_get c key) with
             | Returned (Some d) => read_of (Some (d, 0))
             | _ => VNull
             end.
Proof.
  unfold public_list_key, JSON.stringify. intros Hk.
  destruct (JSON.SerializeJSONProperty filters) as [t|] eqn:Ht; [|discriminate Hk].
  simpl in Hk. injection Hk as <-.
  run_redis. rewrite Ht. simpl. unfold read_of, Redis.parse_or_null, Redis.ret, Redis.throw.
  destruct (client_get c _) as [[[d|]|e] c']; simpl; try reflexivity.
  destruct d as [|a d]; simpl; [reflexivity|].
  destruct (JSON.parse (String a d)); reflexivity.
Qed.

Lemma nothing_to_serve_falsy {C : Type} {client : RedisClient C} (st : Redis.state C)
    (key : string) (m : Redis.M C value) :
  (forall c log, fst (m (Redis.State (Some c) log))
                 = Returned match fst (client_get c key) with
                            | Returned (Some d) => read_of (Some (d, 0))
                            | _ => VNull
                            end) ->
  (forall log, fst (m (Redis.State None log)) = Returned VNull) ->
  nothing_to_serve st key ->
  forall v, fst (m st) = Returned v -> JS.truthy v = false.
Proof.
  intros Hsome Hnone Hmiss v Hv. destruct st as [[c|] log].
  - rewrite Hsome in Hv. unfold nothing_to_serve in Hmiss. cbn [Redis.redisClient] in Hmiss.
    destruct (fst (client_get c key)) as [[d|]|e]; injection Hv as <-;
      [apply read_of_nothing; exact Hmiss|reflexivity|reflexivity].
  - rewrite Hnone in Hv. injection Hv as <-. reflexivity.
Qed.

End ListLemmas.

(** * Further properties of the code *)

Module Extras.
Import JSONFacts JSONLemmas BufferLemmas GlobFacts GlobLemmas MemRedisFacts MemRedisLemmas.
Import KeyFacts KeyLemmas Observed Controller Support HandlerLemmas.
Import ListController Reads ListLemmas JSLemmas.

(** X1. The retry strategy asks for another attempt exactly when the
    error is not a refused connection, no more than an hour has been
    spent and the attempt is at most the tenth; the delay is then 100 ms
    for each attempt made, so at most one second: the bound of 3000 ms
    in [Math.min] is never the smaller of the two.  Nothing is written
    to the console in that case. *)
Theorem X1_retry_delay (o : RetryStrategy.options) (ms : Z) :
  (snd (RetryStrategy.retry_strategy o) = RetryStrategy.RetryIn ms
   <-> RetryStrategy.error o <> Some (Some "ECONNREFUSED")
       /\ RetryStrategy.total_retry_time o <= 3600000
       /\ RetryStrategy.attempt o <= 10
       /\ ms = RetryStrategy.attempt o * 100)
  /\ (snd (RetryStrategy.retry_strategy o) = RetryStrategy.RetryIn ms ->
      ms <= 1000 /\ fst (RetryStrategy.retry_strategy o) = []).
Proof.
  unfold RetryStrategy.retry_strategy.
  assert (Hcode : match RetryStrategy.error o with
                  | Some (Some code) => String.eqb code "ECONNREFUSED"
                  | _ => false
                  end = true
                  <-> RetryStrategy.error o = Some (Some "ECONNREFUSED")).
  { destruct (RetryStrategy.error o) as [[code|]|]; try (split; congruence).
    rewrite String.eqb_eq. split; congruence. }
  destruct (match RetryStrategy.error o with
            | Some (Some code) => String.eqb code "ECONNREFUSED"
            | _ => false
            end) eqn:E.
  { simpl. split; [split|]; try discriminate.
    intros [H _]. exfalso. apply H, Hcode. reflexivity. }
  assert (Hno : RetryStrategy.error o <> Some (Some "ECONNREFUSED")).
  { intros H. apply Hcode in H. discriminate H. }
  destruct (1000 * 60 * 60 <? RetryStrategy.total_retry_time o) eqn:Et.
  { apply Z.ltb_lt in Et. simpl. split; [split|]; try discriminate. lia. }
  apply Z.ltb_ge in Et.
  destruct (10 <? RetryStrategy.attempt o) eqn:Ea.
  { apply Z.ltb_lt in Ea. simpl. split; [split|]; try discriminate. lia. }
  apply Z.ltb_ge in Ea. simpl. split; [split|].
  - intros H. injection H as <-. repeat split; try assumption; lia.
  - intros (_ & _ & _ & ->). f_equal. lia.
  - intros H. injection H as <-. split; [lia|reflexivity].
Qed.

Lemma X1_retry_delay_witness :
  100 <= 1000
  /\ fst (RetryStrategy.retry_strategy (RetryStrategy.Options None 0 1)) = [].
Proof.
  exact (proj2 (X1_retry_delay (RetryStrategy.Options None 0 1) 100) eq_refl).
Defined.

(** X2. [connectRedis] catches what [createClient] and [connect] throw:
    when these two calls settle, by returning or by throwing, it returns
    the client or [null] and throws nothing.  When it returns a client,
    that client is the one the module keeps, and [connect] has returned
    on it; when it returns [null], the line of its [catch] is on the
    console (the handlers of the events of the client may have written
    others, which the console of the model does not hold).  The
    variable [redisClient] is [null] afterwards only if it was [null]
    before and [createClient] itself threw: a client that could not
    connect stays in the variable. *)
Theorem X2_connectRedis_returns {C : Type} {client : RedisClient C}
    (REDIS_URL REDIS_PASSWORD : option string) (st : Redis.state C) :
  exists r st',
    Redis.connectRedis REDIS_URL REDIS_PASSWORD st = (Returned r, st')
    /\ match r with
       | Some c =>
           Redis.redisClient st' = Some c
           /\ exists url password c0,
                createClient url password = Returned c0
                /\ client_connect c0 = (Returned tt, c)
       | None =>
           exists e, In ("Redis connection error: " ++ e) (Redis.console st')
       end
    /\ (Redis.redisClient st' = None ->
        Redis.redisClient st = None
        /\ exists url password e, createClient (C:=C) url password = Thrown e).
Proof.
  unfold Redis.connectRedis, Redis.try_catch, Redis.bind, Redis.call, Redis.console_error,
    Redis.ret.
  match goal with
  | |- context [createClient ?u ?p] =>
      destruct (createClient u p) as [c0|e] eqn:Ec
  end.
  - simpl. destruct (client_connect c0) as [[[]|e] c1] eqn:Econ; simpl.
    + eexists _, _. split; [reflexivity|]. simpl. split.
      * split; [reflexivity|]. eauto.
      * discriminate.
    + eexists _, _. split; [reflexivity|]. simpl. split; [|discriminate].
      exists e. apply in_or_app. right. left. reflexivity.
  - simpl. eexists _, _. split; [reflexivity|]. simpl. split.
    + exists e. apply in_or_app. right. left. reflexivity.
    + intros H. split; [exact H|]. eauto.
Qed.

(** X3. A list cached for a user under a filter record is what
    [getCachedItineraryList] returns for that user and that record right
    after, and the same holds for the public lists: the envelope comes
    back as it was stored, for every envelope that JSON represents. *)
Theorem X3_list_cache_then_get (c : MemRedis.t) (userId : string)
    (filters data : value) (filterKey : string) :
  JSON.stringify filters = Some filterKey ->
  JSON.representable data = true ->
  let st := MemRedis.connected c in
  fst (Redis.getCachedItineraryList userId filters
         (snd (Redis.cacheItineraryList userId filters data st)))
  = Returned data
  /\ fst (Redis.getCachedPublicItineraries filters
            (snd (Redis.cachePublicItineraries filters data st)))
     = Returned data.
Proof.
  intros Hf Hv st. subst st.
  destruct (parse_stringify data Hv) as (t & Ht & Hne & Hp).
  unfold JSON.stringify in Ht, Hf.
  split.
  - unfold Redis.cacheItineraryList, Redis.getCachedItineraryList, Redis.unless_no_client,
      Redis.try_catch, Redis.setEx, Redis.base64_of, JSON.stringify. simpl.
    rewrite Hf, Ht. simpl.
    unfold Redis.bind at 1. unfold Redis.ret at 1.
    unfold Redis.bind at 2. unfold Redis.ret at 1.
    rewrite (get_after_set c _ t 600 data Hne Hp). reflexivity.
  - unfold Redis.cachePublicItineraries, Redis.getCachedPublicItineraries,
      Redis.unless_no_client, Redis.try_catch, Redis.setEx, Redis.base64_of, JSON.stringify.
    simpl. rewrite Hf, Ht. simpl.
    unfold Redis.bind at 1. unfold Redis.ret at 1.
    unfold Redis.bind at 2. unfold Redis.ret at 1.
    rewrite (get_after_set c _ t 300 data Hne Hp). reflexivity.
Qed.

Lemma X3_list_cache_then_get_witness :
  fst (Redis.getCachedItineraryList (hex Sample.alice) (Sample.filters_page 1)
         (snd (Redis.cacheItineraryList (hex Sample.alice) (Sample.filters_page 1)
                 (Sample.envelope "Oslo") (MemRedis.connected Sample.stocked))))
  = Returned (Sample.envelope "Oslo")
  /\ fst (Redis.getCachedPublicItineraries (Sample.filters_page 1)
            (snd (Redis.cachePublicItineraries (Sample.filters_page 1)
                    (Sample.envelope "Oslo") (MemRedis.connected Sample.stocked))))
     = Returned (Sample.envelope "Oslo").
Proof.
  exact (X3_list_cache_then_get Sample.stocked (hex Sample.alice) (Sample.filters_page 1)
           (Sample.envelope "Oslo") Sample.page_limit_sort_text eq_refl eq_refl).
Defined.

(** X4. What [cache] stores under a key with a time to live that is a
    positive safe integer, or with none given, is what [getCache]
    returns for that key right after; the entry expires after the
    seconds given, after 3600 by default.  (A server refuses a number of
    seconds whose milliseconds do not fit in 64 bits; every safe
    integer is below that.) *)
Theorem X4_cache_then_getCache (c : MemRedis.t) (key : string) (data : value) (ttl : Z) :
  JSON.representable data = true ->
  0 < ttl <= MAX_SAFE_INTEGER ->
  let st := MemRedis.connected c in
  fst (Redis.getCache key (snd (Redis.cache key data (Some ttl) st))) = Returned data
  /\ fst (Redis.getCache key (snd (Redis.cache key data None st))) = Returned data
  /\ exists cacheData,
       JSON.stringify data = Some cacheData
       /\ store_of (snd (Redis.cache key data (Some ttl) st))
          = Some (<[key := (cacheData, ttl)]> (MemRedis.store c))
       /\ store_of (snd (Redis.cache key data None st))
          = Some (<[key := (cacheData, 3600)]> (MemRedis.store c)).
Proof.
  intros Hv Httl st. subst st.
  destruct (parse_stringify data Hv) as (t & Ht & Hne & Hp).
  unfold JSON.stringify in Ht.
  assert (Hpos : (0 <? ttl) = true) by (apply Z.ltb_lt; exact (proj1 Httl)).
  assert (Hmax : (ttl <=? MemRedis.max_seconds) = true).
  { apply Z.leb_le. unfold MAX_SAFE_INTEGER, MemRedis.max_seconds in *. lia. }
  unfold Redis.cache, Redis.getCache, Redis.unless_no_client, Redis.try_catch, Redis.setEx,
    JSON.stringify, store_of.
  simpl. rewrite Ht. simpl.
  assert (Hset : Redis.call (fun c0 => MemRedis.setEx c0 key ttl t) (MemRedis.connected c)
                 = (Returned tt,
                    Redis.State
                      (Some (MemRedis.Server (<[key := (t, ttl)]> (MemRedis.store c))
                               (MemRedis.commands c ++ [MemRedis.SETEX key ttl t])))
                      [])).
  { unfold Redis.call, MemRedis.setEx. simpl. rewrite Hpos, Hmax. reflexivity. }
  rewrite Hset. simpl.
  pose proof (get_after_set c key t ttl data Hne Hp) as G. simpl in G.
  pose proof (get_after_set c key t 3600 data Hne Hp) as G'. simpl in G'.
  rewrite G, G'. repeat split. exists t. repeat split.
Qed.

Lemma X4_cache_then_getCache_witness :
  fst (Redis.getCache "session:1"
         (snd (Redis.cache "session:1" Sample.john (Some 60)
                 (MemRedis.connected Observed.empty))))
  = Returned Sample.john.
Proof.
  exact (proj1 (X4_cache_then_getCache Observed.empty "session:1" Sample.john 60
                  eq_refl ltac:(vm_compute; split; [reflexivity|discriminate]))).
Defined.

(** X5. With a time to live that is zero or negative the server refuses
    the [SETEX]: [cache] returns all the same, the store is as it was
    (an older entry under the key stays), and the refusal is one line on
    the console. *)
Theorem X5_cache_refused_ttl (c : MemRedis.t) (log : list string) (key : string)
    (data : value) (ttl : Z) :
  ttl <= 0 ->
  exists line c',
    Redis.cache key data (Some ttl) (Redis.State (Some c) log)
    = (Returned tt, Redis.State (Some c') (List.app log [line]))
    /\ MemRedis.store c' = MemRedis.store c.
Proof.
  intros Httl.
  assert (Hneg : (0 <? ttl) = false) by (apply Z.ltb_ge; exact Httl).
  unfold Redis.cache, Redis.unless_no_client, Redis.try_catch, Redis.setEx,
    JSON.stringify, Redis.call, Redis.throw, Redis.console_error.
  simpl. destruct (JSON.SerializeJSONProperty data) as [t|]; simpl.
  - unfold MemRedis.setEx. rewrite Hneg. simpl. eexists _, _. split; reflexivity.
  - eexists _, _. split; reflexivity.
Qed.

Lemma X5_cache_refused_ttl_witness :
  exists line c',
    Redis.cache "session:1" Sample.john (Some 0) (Redis.State (Some Sample.stocked) [])
    = (Returned tt, Redis.State (Some c') (List.app [] [line]))
    /\ MemRedis.store c' = MemRedis.store Sample.stocked.
Proof.
  exact (X5_cache_refused_ttl Sample.stocked [] "session:1" Sample.john 0
           ltac:(vm_compute; discriminate)).
Defined.

(** X6. After [invalidateUserCache], [invalidateItineraryCache] and
    [deleteCache] the matching read is a miss, and the store has lost
    the one key of the entity and nothing else. *)
Theorem X6_invalidate_then_get (c : MemRedis.t) (log : list string) (id : string) :
  let st := Redis.State (Some c) log in
  (fst (Redis.getCachedUser id (snd (Redis.invalidateUserCache id st))) = Returned VNull
   /\ store_of (snd (Redis.invalidateUserCache id st))
      = Some (delete ("user:" ++ id) (MemRedis.store c)))
  /\ (fst (Redis.getCachedItinerary id (snd (Redis.invalidateItineraryCache id st)))
      = Returned VNull
      /\ store_of (snd (Redis.invalidateItineraryCache id st))
         = Some (delete ("itinerary:" ++ id) (MemRedis.store c)))
  /\ (fst (Redis.getCache id (snd (Redis.deleteCache id st))) = Returned VNull
      /\ store_of (snd (Redis.deleteCache id st)) = Some (delete id (MemRedis.store c))).
Proof.
  intros st. subst st.
  repeat split; run_redis; rewrite ?lookup_delete_eq; reflexivity.
Qed.

(** X7. [invalidatePublicItineraryCaches] returns and logs nothing;
    after it every read of a public list is a miss, whatever the
    filters, and every key outside [public_itineraries:] holds what it
    held: the lists of the users, the itineraries and the users. *)
Theorem X7_public_invalidation (c : MemRedis.t) (log : list string) :
  exists c',
    Redis.invalidatePublicItineraryCaches (Redis.State (Some c) log)
    = (Returned tt, Redis.State (Some c') log)
    /\ (forall filters,
          fst (Redis.getCachedPublicItineraries filters (Redis.State (Some c') log))
          = Returned VNull)
    /\ (forall k, String.prefix "public_itineraries:" k = false ->
                  MemRedis.store c' !! k = MemRedis.store c !! k)
    /\ (forall userId enc,
          MemRedis.store c' !! ("itineraries:" ++ userId ++ ":" ++ enc)
          = MemRedis.store c !! ("itineraries:" ++ userId ++ ":" ++ enc))
    /\ (forall id, MemRedis.store c' !! ("itinerary:" ++ id)
                   = MemRedis.store c !! ("itinerary:" ++ id))
    /\ (forall id, MemRedis.store c' !! ("user:" ++ id) = MemRedis.store c !! ("user:" ++ id)).
Proof.
  destruct (invalidatePublicItineraryCaches_spec c log) as (c' & Hrun & Hc').
  exists c'. split; [exact Hrun|]. repeat split.
  - intros filters. run_redis.
    destruct (JSON.SerializeJSONProperty filters) as [t|]; simpl; [|reflexivity].
    pose proof (Hc' ("public_itineraries:" ++ Buffer.base64 (Buffer.from t))) as Hk.
    rewrite prefix_app in Hk. rewrite Hk. reflexivity.
  - intros k Hk. rewrite Hc', Hk. reflexivity.
  - intros userId enc. rewrite Hc'. reflexivity.
  - intros id. rewrite Hc'. reflexivity.
  - intros id. rewrite Hc'. reflexivity.
Qed.


(** X9. The key of a list names its user and its filters: when
    [cacheItineraryList] for one user and one filter record and
    [getCachedItineraryList] for another user and another record use
    the same key, the users are the same and the records serialize to
    the same text.  This holds for every user id, also one with a colon
    in it, because the encoding of the filters has none.  No public list
    is kept under such a key. *)
Theorem X9_list_key_names_user_and_filters (userId userId' : string)
    (filters filters' : value) (key : string) :
  key_of_cacheItineraryList userId filters = Some key ->
  key_of_getCachedItineraryList userId' filters' = Some key ->
  userId = userId'
  /\ JSON.stringify filters = JSON.stringify filters'
  /\ forall publicFilters,
       key_of_cachePublicItineraries publicFilters <> Some key
       /\ key_of_getCachedPublicItineraries publicFilters <> Some key.
Proof.
  intros Hc Hg.
  destruct (key_of_list_functions userId filters) as [Hc1 _].
  destruct (key_of_list_functions userId' filters') as [_ Hg2].
  cbv zeta in Hc1, Hg2. rewrite Hc1 in Hc. rewrite Hg2 in Hg.
  destruct (JSON.stringify filters) as [t|]; [|discriminate Hc].
  destruct (JSON.stringify filters') as [t'|]; [|discriminate Hg].
  simpl in Hc, Hg. injection Hc as Hc. injection Hg as Hg.
  assert (H : "itineraries:" ++ userId ++ ":" ++ Buffer.base64 (Buffer.from t)
              = "itineraries:" ++ userId' ++ ":" ++ Buffer.base64 (Buffer.from t'))
    by congruence.
  apply list_key_inj2 in H as [-> ->]. repeat split.
  - intros Hp. destruct (key_of_public_functions publicFilters) as [Hp1 _].
    cbv zeta in Hp1. rewrite Hp1 in Hp.
    destruct (JSON.stringify publicFilters); [|discriminate Hp].
    simpl in Hp. injection Hp as Hp. rewrite <- Hc in Hp. discriminate Hp.
  - intros Hp. destruct (key_of_public_functions publicFilters) as [_ Hp2].
    cbv zeta in Hp2. rewrite Hp2 in Hp.
    destruct (JSON.stringify publicFilters); [|discriminate Hp].
    simpl in Hp. injection Hp as Hp. rewrite <- Hc in Hp. discriminate Hp.
Qed.

Lemma X9_list_key_names_user_and_filters_witness :
  "42:7" = "42:7"
  /\ JSON.stringify (Sample.filters_page 1) = JSON.stringify (Sample.filters_page 1)
  /\ forall publicFilters,
       key_of_cachePublicItineraries publicFilters <> Some Cases.colon_user_key
       /\ key_of_getCachedPublicItineraries publicFilters <> Some Cases.colon_user_key.
Proof.
  exact (X9_list_key_names_user_and_filters "42:7" "42:7" (Sample.filters_page 1)
           (Sample.filters_page 1) Cases.colon_user_key eq_refl eq_refl).
Defined.

(** X10. A filter that is [undefined] and a filter that is absent give
    the same key: the four list functions compute for a record the key
    of the record without its [undefined] properties. *)
Theorem X10_undefined_filters_are_absent (userId : string) (l : list (string * value)) :
  key_of_cacheItineraryList userId (VObj l)
  = key_of_cacheItineraryList userId (VObj (List.filter defined l))
  /\ key_of_getCachedItineraryList userId (VObj l)
     = key_of_getCachedItineraryList userId (VObj (List.filter defined l))
  /\ key_of_cachePublicItineraries (VObj l)
     = key_of_cachePublicItineraries (VObj (List.filter defined l))
  /\ key_of_getCachedPublicItineraries (VObj l)
     = key_of_getCachedPublicItineraries (VObj (List.filter defined l)).
Proof.
  destruct (key_of_list_functions userId (VObj l)) as [H1 H2].
  destruct (key_of_list_functions userId (VObj (List.filter defined l))) as [H3 H4].
  destruct (key_of_public_functions (VObj l)) as [H5 H6].
  destruct (key_of_public_functions (VObj (List.filter defined l))) as [H7 H8].
  cbv zeta in *.
  rewrite H1, H2, H3, H4, H5, H6, H7, H8, <- (stringify_defined l). repeat split.
Qed.

(** X11. The virtual [duration] counts the days of a stay, both ends
    included: for two valid dates whose difference in milliseconds is a
    safe integer (dates less than 285 000 years apart) it is an integer
    [d], at least 1, with [d - 1] the number of days, rounded up,
    between the two dates.  It is the same when the two dates are
    exchanged, so an end before the start counts like a start before
    the end.  It is 0 when a date is missing and [NaN] when a date is
    invalid. *)
Theorem X11_duration_counts_days (s e : Z) (x : option Itinerary.Date) :
  Z.abs s <= Itinerary.maxTime ->
  Z.abs e <= Itinerary.maxTime ->
  Z.abs (e - s) <= MAX_SAFE_INTEGER ->
  (exists d,
     Itinerary.duration (Some (Itinerary.Time s)) (Some (Itinerary.Time e)) = Num d
     /\ 1 <= d
     /\ (d - 2) * 86400000 < Z.abs (e - s) <= (d - 1) * 86400000
     /\ Itinerary.duration (Some (Itinerary.Time e)) (Some (Itinerary.Time s)) = Num d)
  /\ Itinerary.duration None x = Num 0
  /\ Itinerary.duration x None = Num 0
  /\ Itinerary.duration (Some Itinerary.Invalid) (Some (Itinerary.Time e)) = NaN
  /\ Itinerary.duration (Some (Itinerary.Time s)) (Some Itinerary.Invalid) = NaN.
Proof.
  intros Hs He Hsafe.
  split; [|repeat split; destruct x; reflexivity].
  unfold Itinerary.duration, Itinerary.minus, Itinerary.valueOf, Math.abs, Math.ceil_div,
    Math.add.
  change (1000 * 60 * 60 * 24) with 86400000.
  change (86400000 =? 0) with false. cbv iota.
  exists (- (- Z.abs (e - s) / 86400000) + 1).
  replace (Z.abs (s - e)) with (Z.abs (e - s)) by lia.
  split; [reflexivity|].
  pose proof (Z.div_mod (- Z.abs (e - s)) 86400000 ltac:(lia)) as Hdm.
  pose proof (Z.mod_pos_bound (- Z.abs (e - s)) 86400000 ltac:(lia)) as Hm.
  repeat split; lia.
Qed.

Lemma X11_duration_counts_days_witness :
  (exists d,
     Itinerary.duration (Some (Itinerary.Time 1717200000000))
       (Some (Itinerary.Time 1717718400000)) = Num d
     /\ 1 <= d
     /\ (d - 2) * 86400000 < Z.abs (1717718400000 - 1717200000000) <= (d - 1) * 86400000
     /\ Itinerary.duration (Some (Itinerary.Time 1717718400000))
          (Some (Itinerary.Time 1717200000000)) = Num d)
  /\ Itinerary.duration None None = Num 0
  /\ Itinerary.duration None None = Num 0
  /\ Itinerary.duration (Some Itinerary.Invalid) (Some (Itinerary.Time 1717718400000)) = NaN
  /\ Itinerary.duration (Some (Itinerary.Time 1717200000000)) (Some Itinerary.Invalid) = NaN.
Proof.
  exact (X11_duration_counts_days 1717200000000 1717718400000 None
           ltac:(vm_compute; discriminate) ltac:(vm_compute; discriminate)
           ltac:(vm_compute; discriminate)).
Defined.

(** X12. When [createItinerary] answers with 201, the document was
    created from the body of the request with [userId] set to the user
    of the request, whatever the body said, and at the moment of the
    answer the server holds no key [itineraries:<user>:...] of that
    user.  The lists of the other users and the cached itineraries are
    as they were.  (The client is connected; the collection is any
    implementation of the model.) *)
Theorem X12_create_invalidates_lists {D Doc : Type} {model : ItineraryModel D Doc}
    (req : Request) (c : MemRedis.t) (log : list string) (d : D) (payload : value) :
  let w := World (Redis.State (Some c) log) d in
  fst (createItinerary req w) = Json 201 payload ->
  exists body created d1 itinerary d2 c',
    MemMongo.get_field "userId" body = Some (VStr (hex (user_id req)))
    /\ create d body = (Returned created, d1)
    /\ populate d1 created = (Returned itinerary, d2)
    /\ payload = VObj [("success", VBool true); ("itinerary", toJSON itinerary)]
    /\ snd (createItinerary req w) = World (Redis.State (Some c') log) d2
    /\ (forall enc,
          MemRedis.store c' !! ("itineraries:" ++ hex (user_id req) ++ ":" ++ enc) = None)
    /\ (forall (other : ObjectId) enc,
          hex other <> hex (user_id req) ->
          MemRedis.store c' !! ("itineraries:" ++ hex other ++ ":" ++ enc)
          = MemRedis.store c !! ("itineraries:" ++ hex other ++ ":" ++ enc))
    /\ (forall id, MemRedis.store c' !! ("itinerary:" ++ id)
                   = MemRedis.store c !! ("itinerary:" ++ id)).
Proof.
  intros w. subst w.
  unfold createItinerary, handler, hbind, query, eval, cached, respond.
  cbn -[Redis.invalidateUserItineraryCaches].
  destruct (create d _) as [[created|e] d1] eqn:E1;
    cbn -[Redis.invalidateUserItineraryCaches]; try discriminate.
  destruct (populate d1 created) as [[itinerary|e] d2] eqn:E2;
    cbn -[Redis.invalidateUserItineraryCaches]; try discriminate.
  destruct (invalidateUserItineraryCaches_spec (hex (user_id req)) c log
              (ObjectId_glob_free _)) as (c' & Hrun & Hc').
  rewrite Hrun. cbn. intros H. injection H as <-.
  eexists _, created, d1, itinerary, d2, c'.
  split; [apply get_field_CreateDataProperty|].
  split; [exact E1|]. split; [exact E2|]. split; [reflexivity|]. split; [reflexivity|].
  repeat split.
  - intros enc. rewrite Hc'.
    replace ("itineraries:" ++ hex (user_id req) ++ ":" ++ enc)
      with (("itineraries:" ++ hex (user_id req) ++ ":") ++ enc)
      by (rewrite !app_assoc; reflexivity).
    rewrite prefix_app. reflexivity.
  - intros other enc Hne. rewrite Hc'.
    destruct (String.prefix _ _) eqn:Hp; [|reflexivity].
    exfalso. apply Hne. symmetry.
    apply (scope_prefix_inv (hex (user_id req)) (hex other) enc
             (ObjectId_colon_free _) (ObjectId_colon_free _)).
    exact Hp.
  - intros id. rewrite Hc'. reflexivity.
Qed.

Lemma X12_create_invalidates_lists_witness :
  exists body created d1 itinerary d2 c',
    MemMongo.get_field "userId" body = Some (VStr (hex (user_id Sample.add)))
    /\ create (MemMongo.DB ∅ [Sample.trip] []) body = (Returned created, d1)
    /\ populate d1 created = (Returned itinerary, d2)
    /\ VObj [("success", VBool true); ("itinerary", Sample.stored_trip)]
       = VObj [("success", VBool true); ("itinerary", toJSON itinerary)]
    /\ snd (createItinerary Sample.add
              (World (Redis.State (Some Sample.stocked) []) (MemMongo.DB ∅ [Sample.trip] [])))
       = World (Redis.State (Some c') []) d2
    /\ (forall enc,
          MemRedis.store c' !! ("itineraries:" ++ hex (user_id Sample.add) ++ ":" ++ enc)
          = None)
    /\ (forall (other : ObjectId) enc,
          hex other <> hex (user_id Sample.add) ->
          MemRedis.store c' !! ("itineraries:" ++ hex other ++ ":" ++ enc)
          = MemRedis.store Sample.stocked !! ("itineraries:" ++ hex other ++ ":" ++ enc))
    /\ (forall id, MemRedis.store c' !! ("itinerary:" ++ id)
                   = MemRedis.store Sample.stocked !! ("itinerary:" ++ id)).
Proof.
  exact (X12_create_invalidates_lists Sample.add Sample.stocked []
           (MemMongo.DB ∅ [Sample.trip] [])
           (VObj [("success", VBool true); ("itinerary", Sample.stored_trip)]) eq_refl).
Defined.

(** X13. When [getItinerary] of the controller answers with 200, the
    itinerary it sends is the one it has just stored: if JSON represents
    the document, a [getCachedItinerary] for its id right after the
    answer returns the itinerary of the answer. *)
Theorem X13_getItinerary_stores_its_answer {D Doc : Type} {model : ItineraryModel D Doc}
    (req : Request) (c : MemRedis.t) (d : D) (payload : value) :
  let w := World (MemRedis.connected c) d in
  fst (getItinerary req w) = Json 200 payload ->
  exists itinerary,
    fst (findById_populate d (params_id req)) = Returned (Some itinerary)
    /\ payload = VObj [("success", VBool true); ("itinerary", toJSON itinerary)]
    /\ (JSON.representable (toJSON itinerary) = true ->
        fst (Redis.getCachedItinerary (hex (doc_id itinerary))
               (redis (snd (getItinerary req w))))
        = Returned (toJSON itinerary)).
Proof.
  intros w. subst w.
  assert (Hget : forall id v,
            JSON.representable v = true ->
            fst (Redis.getCachedItinerary id
                   (snd (Redis.cacheItinerary id v (MemRedis.connected c))))
            = Returned v).
  { intros id v Hv.
    destruct (parse_stringify v Hv) as (t & Ht & Hne & Hp). unfold JSON.stringify in Ht.
    unfold Redis.cacheItinerary, Redis.getCachedItinerary, Redis.unless_no_client,
      Redis.try_catch, Redis.setEx, JSON.stringify. simpl. rewrite Ht. simpl.
    rewrite (get_after_set c _ t 1800 v Hne Hp). reflexivity. }
  unfold getItinerary, handler, hbind, query, eval, cached, respond.
  cbn -[Redis.cacheItinerary Redis.getCachedItinerary].
  destruct (findById_populate d (params_id req)) as [[[found|]|e] d1];
    cbn -[Redis.cacheItinerary Redis.getCachedItinerary]; try discriminate.
  destruct (userId_id_toString found) as [owner|e];
    cbn -[Redis.cacheItinerary Redis.getCachedItinerary]; try discriminate.
  destruct (String.eqb owner (hex (user_id req)));
    cbn -[Redis.cacheItinerary Redis.getCachedItinerary]; try discriminate.
  specialize (Hget (hex (doc_id found)) (toJSON found)).
  destruct (Redis.cacheItinerary _ _ _) as [[[]|e] st'];
    cbn -[Redis.getCachedItinerary] in *; try discriminate.
  intros H. injection H as <-. exists found. repeat split. exact Hget.
Qed.

Lemma X13_getItinerary_stores_its_answer_witness :
  exists itinerary,
    fst (findById_populate Sample.library (params_id Sample.show)) = Returned (Some itinerary)
    /\ VObj [("success", VBool true); ("itinerary", Sample.stored_trip)]
       = VObj [("success", VBool true); ("itinerary", toJSON itinerary)]
    /\ (JSON.representable (toJSON itinerary) = true ->
        fst (Redis.getCachedItinerary (hex (doc_id itinerary))
               (redis (snd (getItinerary Sample.show
                              (World (MemRedis.connected Sample.stocked) Sample.library)))))
        = Returned (toJSON itinerary)).
Proof.
  exact (X13_getItinerary_stores_its_answer Sample.show Sample.stocked Sample.library
           (VObj [("success", VBool true); ("itinerary", Sample.stored_trip)]) eq_refl).
Defined.

(** X14. The five handlers of one itinerary never depend on what the
    cache holds or answers: for any client whose calls settle, by
    returning or by throwing, connected or not, each of them gives the
    answer, and leaves the collection in the state, that it gives and
    leaves when there is no client at all.  (A call of the client that
    never settles keeps the handler waiting; the interface of the
    client has no such call.) *)
Theorem X14_handlers_ignore_the_cache {C D Doc : Type} {client : RedisClient C}
    {model : ItineraryModel D Doc} (req : Request) (st : Redis.state C) (d : D) :
  let same (h : Request -> world C D -> response * world C D) :=
    fst (h req (World st d)) = fst (h req (World (Redis.State None []) d))
    /\ db (snd (h req (World st d))) = db (snd (h req (World (Redis.State None []) d))) in
  same getItinerary /\ same getItinerary_part_000 /\ same createItinerary
  /\ same updateItinerary /\ same deleteItinerary.
Proof.
  intros same. subst same. cbv beta.
  repeat apply conj.
  all: unfold getItinerary, getItinerary_part_000, createItinerary, updateItinerary,
         deleteItinerary, handler, hbind, query, eval, respond;
       cbn -[cached Redis.cacheItinerary Redis.invalidateItineraryCache
             Redis.invalidateUserItineraryCaches].
  all: repeat first
         [ reflexivity
         | step_cached
         | match goal with
           | |- context [findById_populate ?d0 ?i] => destruct (findById_populate d0 i) as [[[?|]|?] ?]
           | |- context [findById ?d0 ?i] => destruct (findById d0 i) as [[[?|]|?] ?]
           | |- context [create ?d0 ?b] => destruct (create d0 b) as [[?|?] ?]
           | |- context [populate ?d0 ?x] => destruct (populate d0 x) as [[?|?] ?]
           | |- context [findByIdAndUpdate_populate ?d0 ?i ?b] =>
               destruct (findByIdAndUpdate_populate d0 i b) as [[[?|]|?] ?]
           | |- context [findByIdAndDelete ?d0 ?i] =>
               destruct (findByIdAndDelete d0 i) as [[?|?] ?]
           | |- context [userId_toString ?x] => destruct (userId_toString x) as [?|?]
           | |- context [userId_id_toString ?x] => destruct (userId_id_toString x) as [?|?]
           | |- context [String.eqb ?x ?y] => destruct (String.eqb x y)
           end;
           cbn -[cached Redis.cacheItinerary Redis.invalidateItineraryCache
                 Redis.invalidateUserItineraryCaches] ].
Qed.

(** X15. When the cache has nothing to serve for a list request,
    [getItineraries] and [getPublicItineraries] answer from the
    collection: the answer and the collection after the request are
    those of the same request with no client at all.  Nothing to serve
    means: no client, a client that throws, no entry under the key of
    the request or an empty one, an entry that is not a text of the
    JSON grammar, or the text of a falsy value.  This holds for every
    client whose calls settle and for every model. *)
Theorem X15_list_miss_reads_the_collection {C D R : Type} {client : RedisClient C}
    {model : ListModel D R} (req : ListRequest) (st : Redis.state C) (d : D)
    (key : string) :
  let miss (h : ListRequest -> world C D -> response * world C D) (k : option string) :=
    k = Some key ->
    nothing_to_serve st key ->
    fst (h req (World st d)) = fst (h req (World (Redis.State None []) d))
    /\ db (snd (h req (World st d))) = db (snd (h req (World (Redis.State None []) d))) in
  miss getItineraries (list_key (hex (req_user_id req)) (cacheKey (req_query req)))
  /\ miss getPublicItineraries (public_list_key (public_cacheKey (req_query req))).
Proof.
  intros miss. subst miss. cbv beta. split; intros Hkey Hmiss.
  - apply getItineraries_miss.
    apply (nothing_to_serve_falsy st key); [|reflexivity|exact Hmiss].
    intros c log. apply list_read_any. exact Hkey.
  - apply getPublicItineraries_miss.
    apply (nothing_to_serve_falsy st key); [|reflexivity|exact Hmiss].
    intros c log. apply public_read_any. exact Hkey.
Qed.

Lemma X15_list_miss_reads_the_collection_witness :
  (fst (getItineraries Cases.first_page
          (World (MemRedis.connected Cases.cut_short) Cases.one_trip))
   = fst (getItineraries Cases.first_page
            (World (Redis.State (None : option MemRedis.t) []) Cases.one_trip))
   /\ db (snd (getItineraries Cases.first_page
                 (World (MemRedis.connected Cases.cut_short) Cases.one_trip)))
      = db (snd (getItineraries Cases.first_page
                   (World (Redis.State (None : option MemRedis.t) []) Cases.one_trip))))
  /\ (fst (getPublicItineraries (client := DownRedis.client) Cases.first_page
             (World (Redis.State (Some tt) []) Cases.one_trip))
      = fst (getPublicItineraries (client := DownRedis.client) Cases.first_page
               (World (Redis.State None []) Cases.one_trip))
      /\ db (snd (getPublicItineraries (client := DownRedis.client) Cases.first_page
                    (World (Redis.State (Some tt) []) Cases.one_trip)))
         = db (snd (getPublicItineraries (client := DownRedis.client) Cases.first_page
                      (World (Redis.State None []) Cases.one_trip)))).
Proof.
  split.
  - exact (proj1 (X15_list_miss_reads_the_collection (client := MemRedis.client)
                    Cases.first_page (MemRedis.connected Cases.cut_short) Cases.one_trip
                    Cases.first_page_key)
             eq_refl ltac:(vm_compute; right; left; reflexivity)).
  - exact (proj2 (X15_list_miss_reads_the_collection (client := DownRedis.client)
                    Cases.first_page (Redis.State (Some tt) []) Cases.one_trip
                    Cases.first_public_key)
             eq_refl ltac:(vm_compute; exact I)).
Defined.

(** X16. A list request that was answered with 200 is answered the same
    from then on, as long as its entry stays: the same request, made
    again in the state of the cache the first answer left, gets the same
    payload without a query to the collection, whatever the collection
    holds by then.  (The payload is one that JSON represents; the
    client is connected.) *)
Theorem X16_list_answer_is_repeated {D R : Type} {model : ListModel D R}
    (req : ListRequest) (c : MemRedis.t) (d d' : D) (payload : value) :
  let w := World (MemRedis.connected c) d in
  let again (h : ListRequest -> world MemRedis.t D -> response * world MemRedis.t D) :=
    fst (h req w) = Json 200 payload ->
    JSON.representable payload = true ->
    fst (h req (World (redis (snd (h req w))) d')) = Json 200 payload
    /\ db (snd (h req (World (redis (snd (h req w))) d'))) = d' in
  again getItineraries /\ again getPublicItineraries.
Proof.
  intros w again. subst w again. cbv beta. unfold MemRedis.connected. split.
  - intros H Hp.
    destruct (cacheKey_has_key (hex (req_user_id req)) (req_query req)) as [key Hkey].
    destruct (getItineraries_post req key c [] d payload Hkey H)
      as (Hf & c' & log' & -> & Hc').
    destruct (Hc' Hp) as [Hv <-].
    destruct (getItineraries_hit req key c' log' d' Hkey Hf Hv) as [log'' ->].
    split; reflexivity.
  - intros H Hp.
    destruct (public_cacheKey_has_key (req_query req)) as [key Hkey].
    destruct (getPublicItineraries_post req key c [] d payload Hkey H)
      as (Hf & c' & log' & -> & Hc').
    destruct (Hc' Hp) as [Hv <-].
    destruct (getPublicItineraries_hit req key c' log' d' Hkey Hf Hv) as [log'' ->].
    split; reflexivity.
Qed.

Lemma X16_list_answer_is_repeated_witness :
  (fst (getItineraries Cases.first_page
          (World (redis (snd (getItineraries Cases.first_page
                                (World (MemRedis.connected Observed.empty) Cases.one_trip))))
             (MockItinerary.Mock [] 0 [])))
   = Json 200 Cases.first_answer
   /\ db (snd (getItineraries Cases.first_page
                 (World (redis (snd (getItineraries Cases.first_page
                                       (World (MemRedis.connected Observed.empty)
                                          Cases.one_trip))))
                    (MockItinerary.Mock [] 0 []))))
      = MockItinerary.Mock [] 0 [])
  /\ (fst (getPublicItineraries Cases.first_page
             (World (redis (snd (getPublicItineraries Cases.first_page
                                   (World (MemRedis.connected Observed.empty)
                                      Cases.one_trip))))
                (MockItinerary.Mock [] 0 [])))
      = Json 200 Cases.first_public_answer
      /\ db (snd (getPublicItineraries Cases.first_page
                    (World (redis (snd (getPublicItineraries Cases.first_page
                                          (World (MemRedis.connected Observed.empty)
                                             Cases.one_trip))))
                       (MockItinerary.Mock [] 0 []))))
         = MockItinerary.Mock [] 0 []).
Proof.
  split.
  - exact (proj1 (X16_list_answer_is_repeated Cases.first_page Observed.empty
                    Cases.one_trip (MockItinerary.Mock [] 0 []) Cases.first_answer)
             eq_refl eq_refl).
  - exact (proj2 (X16_list_answer_is_repeated Cases.first_page Observed.empty
                    Cases.one_trip (MockItinerary.Mock [] 0 []) Cases.first_public_answer)
             eq_refl eq_refl).
Defined.

(** X17. A list handler reads seven parameters of the query by name
    (five for the public lists) and nothing else of it: two queries that
    agree on them get the same answer and leave the same state, so that
    neither the order of the parameters in the query nor a parameter
    the handler does not know changes the key or the answer. *)
Theorem X17_list_request_parameters {C D R : Type} {client : RedisClient C}
    {model : ListModel D R} (req : ListRequest) (q' : list (string * value))
    (w : world C D) :
  ((forall k, In k ["page"; "limit"; "sort"; "status"; "isPublic"; "search"; "destination"] ->
              JS.Get (req_query req) k = JS.Get q' k) ->
   cacheKey (req_query req) = cacheKey q'
   /\ getItineraries req w = getItineraries (ListReq q' (req_user_id req)) w
   /\ getPublicItineraries req w = getPublicItineraries (ListReq q' (req_user_id req)) w)
  /\ (NoDup (List.map fst (req_query req)) -> Permutation (req_query req) q' ->
      forall k, JS.Get (req_query req) k = JS.Get q' k).
Proof.
  split; [|intros Hnd Hp k; apply Get_Permutation; assumption].
  intros H.
  assert (E1 := H "page" ltac:(simpl; auto)).
  assert (E2 := H "limit" ltac:(simpl; auto)).
  assert (E3 := H "sort" ltac:(simpl; auto)).
  assert (E4 := H "status" ltac:(simpl; auto 10)).
  assert (E5 := H "isPublic" ltac:(simpl; auto 10)).
  assert (E6 := H "search" ltac:(simpl; auto 10)).
  assert (E7 := H "destination" ltac:(simpl; auto 10)).
  unfold getItineraries, getPublicItineraries, filters, cacheKey, public_cacheKey, skip,
    sortObj, result, page, limit, sort.
  cbn [req_query req_user_id].
  rewrite E1, E2, E3, E4, E5, E6, E7. repeat split.
Qed.

Lemma X17_list_request_parameters_witness :
  cacheKey (req_query Cases.second_page) = cacheKey (req_query Cases.second_page')
  /\ getItineraries Cases.second_page
       (World (MemRedis.connected Observed.empty) Cases.one_trip)
     = getItineraries Cases.second_page'
         (World (MemRedis.connected Observed.empty) Cases.one_trip)
  /\ getPublicItineraries Cases.second_page
       (World (MemRedis.connected Observed.empty) Cases.one_trip)
     = getPublicItineraries Cases.second_page'
         (World (MemRedis.connected Observed.empty) Cases.one_trip).
Proof.
  refine (proj1 (X17_list_request_parameters Cases.second_page
                   (req_query Cases.second_page')
                   (World (MemRedis.connected Observed.empty) Cases.one_trip)) _).
  intros k Hk. simpl in Hk.
  repeat (destruct Hk as [<-|Hk]; [reflexivity|]). destruct Hk.
Defined.

(** X18. The arithmetic of the pages.  For a page [p] and a limit [l]
    that are at least 1, with [p], [l], the product [(p - 1) * l] and
    the number of documents all safe integers, the handlers skip
    [(p - 1) * l] documents, a number that is not negative, and the
    envelope gives [p] as the current page and as the number of pages
    the least [pages] with [total <= pages * l]: the pages 1 to [pages]
    are those with a document on them. *)
Theorem X18_pagination (q : list (string * value)) (itineraries : list value)
    (total : N) (p l : Z) :
  JS.parseInt (page q) = Num p ->
  JS.parseInt (limit q) = Num l ->
  1 <= p <= MAX_SAFE_INTEGER ->
  1 <= l <= MAX_SAFE_INTEGER ->
  (p - 1) * l <= MAX_SAFE_INTEGER ->
  Z.of_N total <= MAX_SAFE_INTEGER ->
  exists pages,
    skip q = Num ((p - 1) * l)
    /\ result q itineraries total
       = VObj [("itineraries", VArr itineraries);
               ("pagination",
                VObj [("current", VNum p); ("pages", VNum pages);
                      ("total", VNum (Z.of_N total))])]
    /\ 0 <= (p - 1) * l
    /\ (pages - 1) * l < Z.of_N total <= pages * l
    /\ ((p - 1) * l < Z.of_N total <-> p <= pages).
Proof.
  intros Hp Hl [Hp1 _] [Hl1 _] _ _.
  exists (- (- Z.of_N total / l)).
  unfold skip, result. rewrite Hp, Hl.
  unfold Math.add, Math.times, Math.ceil_div, JS.Number_toJSON.
  replace (l =? 0) with false by (symmetry; apply Z.eqb_neq; lia).
  split; [reflexivity|]. split; [reflexivity|].
  pose proof (Z.div_mod (- Z.of_N total) l ltac:(lia)) as Hdm.
  pose proof (Z.mod_pos_bound (- Z.of_N total) l ltac:(lia)) as Hm.
  repeat split; nia.
Qed.

Lemma X18_pagination_witness :
  exists pages,
    skip (req_query Cases.second_page) = Num ((2 - 1) * 5)
    /\ result (req_query Cases.second_page) [] 7
       = VObj [("itineraries", VArr []);
               ("pagination",
                VObj [("current", VNum 2); ("pages", VNum pages);
                      ("total", VNum (Z.of_N 7))])]
    /\ 0 <= (2 - 1) * 5
    /\ (pages - 1) * 5 < Z.of_N 7 <= pages * 5
    /\ ((2 - 1) * 5 < Z.of_N 7 <-> 2 <= pages).
Proof.
  exact (X18_pagination (req_query Cases.second_page) [] 7 2 5 eq_refl eq_refl
           ltac:(vm_compute; split; discriminate) ltac:(vm_compute; split; discriminate)
           ltac:(vm_compute; discriminate) ltac:(vm_compute; discriminate)).
Defined.

(** X19. The page and the limit a handler works with are those of the
    query: without the parameter the page is 1 and the limit 10, and a
    parameter written in decimal digits, with or without zeros in front,
    is read as the number it writes, when that number is a safe
    integer. *)
Theorem X19_page_and_limit (q : list (string * value)) (d : Decimal.uint) :
  (JS.Get q "page" = VUndefined -> JS.parseInt (page q) = Num 1)
  /\ (JS.Get q "limit" = VUndefined -> JS.parseInt (limit q) = Num 10)
  /\ (d <> Nil -> Z.of_N (N.of_uint d) <= MAX_SAFE_INTEGER ->
      JS.Get q "page" = VStr (JSON.digits_string d) ->
      JS.parseInt (page q) = Num (Z.of_N (N.of_uint d)))
  /\ (d <> Nil -> Z.of_N (N.of_uint d) <= MAX_SAFE_INTEGER ->
      JS.Get q "limit" = VStr (JSON.digits_string d) ->
      JS.parseInt (limit q) = Num (Z.of_N (N.of_uint d))).
Proof.
  unfold page, limit. repeat split.
  - intros ->. reflexivity.
  - intros ->. reflexivity.
  - intros Hd Hsafe ->. cbn [JS.or_default]. unfold JS.parseInt. cbn [JS.ToString].
    apply parseInt_string_digits. exact Hd.
  - intros Hd Hsafe ->. cbn [JS.or_default]. unfold JS.parseInt. cbn [JS.ToString].
    apply parseInt_string_digits. exact Hd.
Qed.

Lemma X19_page_and_limit_witness :
  JS.parseInt (page (req_query Cases.first_page)) = Num 1
  /\ JS.parseInt (limit (req_query Cases.first_page)) = Num 10
  /\ JS.parseInt (page (req_query Cases.second_page)) = Num (Z.of_N (N.of_uint (D2 Nil)))
  /\ JS.parseInt (limit (req_query Cases.second_page)) = Num (Z.of_N (N.of_uint (D5 Nil))).
Proof.
  split; [|split; [|split]].
  - exact (proj1 (X19_page_and_limit (req_query Cases.first_page) Nil) eq_refl).
  - exact (proj1 (proj2 (X19_page_and_limit (req_query Cases.first_page) Nil)) eq_refl).
  - exact (proj1 (proj2 (proj2 (X19_page_and_limit (req_query Cases.second_page) (D2 Nil))))
             ltac:(discriminate) ltac:(vm_compute; discriminate) eq_refl).
  - exact (proj2 (proj2 (proj2 (X19_page_and_limit (req_query Cases.second_page) (D5 Nil))))
             ltac:(discriminate) ltac:(vm_compute; discriminate) eq_refl).
Defined.

(** X20. After a mutation that was answered with success, the next list
    request of the same user is answered from the collection: when
    [createItinerary] answers 201, or [updateItinerary] or
    [deleteItinerary] 200, then [getItineraries] for the user of the
    request, whatever its query, gives in the state the mutation left
    the answer it gives with no cache at all.  (The client is connected;
    the collection is any implementation of the two models.) *)
Theorem X20_mutation_then_list {D Doc R : Type} {model : ItineraryModel D Doc}
    {lists : ListModel D R} (req : Request) (q : list (string * value))
    (c : MemRedis.t) (log : list string) (d : D) (payload : value) :
  let w := World (Redis.State (Some c) log) d in
  let fresh (h : Request -> world MemRedis.t D -> response * world MemRedis.t D)
      (status : Z) :=
    fst (h req w) = Json status payload ->
    fst (getItineraries (ListReq q (user_id req)) (snd (h req w)))
    = fst (getItineraries (ListReq q (user_id req))
             (World (Redis.State (None : option MemRedis.t) []) (db (snd (h req w))))) in
  fresh createItinerary 201 /\ fresh updateItinerary 200 /\ fresh deleteItinerary 200.
Proof.
  intros w fresh. subst w fresh. cbv beta.
  destruct (mutations_clear_lists req c log d) as (Hc & Hu & Hd).
  assert (Hmiss : forall c' (w' : world MemRedis.t D),
            redis w' = Redis.State (Some c') log ->
            (forall enc,
               MemRedis.store c' !! ("itineraries:" ++ hex (user_id req) ++ ":" ++ enc)
               = None) ->
            fst (getItineraries (ListReq q (user_id req)) w')
            = fst (getItineraries (ListReq q (user_id req))
                     (World (Redis.State (None : option MemRedis.t) []) (db w')))).
  { intros c' [st' d'] Hst Hnone. cbn [redis db] in *. subst st'.
    refine (proj1 (getItineraries_miss (client := MemRedis.client) _ _ _ _)).
    cbn [req_user_id req_query].
    destruct (cacheKey_has_key (hex (user_id req)) q) as [key Hkey].
    destruct (getCachedItineraryList_reads _ _ key c' log Hkey) as [log' ->].
    cbn [fst]. intros v Hv. injection Hv as <-.
    unfold list_key in Hkey.
    destruct (JSON.stringify (cacheKey q)) as [t|]; [|discriminate Hkey].
    simpl in Hkey. injection Hkey as <-. rewrite Hnone. reflexivity. }
  repeat split; intros H.
  - destruct (Hc payload H) as (c' & Hst & Hnone). eapply Hmiss; eassumption.
  - destruct (Hu payload H) as (c' & Hst & Hnone). eapply Hmiss; eassumption.
  - destruct (Hd payload H) as (c' & Hst & Hnone). eapply Hmiss; eassumption.
Qed.

Lemma X20_mutation_then_list_witness :
  fst (getItineraries (model := Cases.queries)
         (ListReq [] (user_id Sample.add))
         (snd (createItinerary (model := Cases.itineraries) Sample.add
                 (World (Redis.State (Some Sample.stocked) []) Cases.before_add))))
  = fst (getItineraries (model := Cases.queries)
           (ListReq [] (user_id Sample.add))
           (World (Redis.State (None : option MemRedis.t) [])
              (db (snd (createItinerary (model := Cases.itineraries) Sample.add
                          (World (Redis.State (Some Sample.stocked) [])
                             Cases.before_add))))))
  /\ fst (getItineraries (model := Cases.queries)
            (ListReq [] (user_id Sample.rename))
            (snd (updateItinerary (model := Cases.itineraries) Sample.rename
                    (World (Redis.State (Some Sample.stocked) []) Cases.before_change))))
     = fst (getItineraries (model := Cases.queries)
              (ListReq [] (user_id Sample.rename))
              (World (Redis.State (None : option MemRedis.t) [])
                 (db (snd (updateItinerary (model := Cases.itineraries) Sample.rename
                             (World (Redis.State (Some Sample.stocked) [])
                                Cases.before_change))))))
  /\ fst (getItineraries (model := Cases.queries)
            (ListReq [] (user_id Sample.remove))
            (snd (deleteItinerary (model := Cases.itineraries) Sample.remove
                    (World (Redis.State (Some Sample.stocked) []) Cases.before_change))))
     = fst (getItineraries (model := Cases.queries)
              (ListReq [] (user_id Sample.remove))
              (World (Redis.State (None : option MemRedis.t) [])
                 (db (snd (deleteItinerary (model := Cases.itineraries) Sample.remove
                             (World (Redis.State (Some Sample.stocked) [])
                                Cases.before_change)))))).
Proof.
  split; [|split].
  - exact (proj1 (X20_mutation_then_list (model := Cases.itineraries)
                    (lists := Cases.queries) Sample.add [] Sample.stocked []
                    Cases.before_add
                    (VObj [("success", VBool true); ("itinerary", Sample.stored_trip)]))
             ltac:(vm_compute; reflexivity)).
  - exact (proj1 (proj2 (X20_mutation_then_list (model := Cases.itineraries)
                           (lists := Cases.queries) Sample.rename [] Sample.stocked []
                           Cases.before_change Sample.renamed))
             ltac:(vm_compute; reflexivity)).
  - exact (proj2 (proj2 (X20_mutation_then_list (model := Cases.itineraries)
                           (lists := Cases.queries) Sample.remove [] Sample.stocked []
                           Cases.before_change Cases.removed))
             ltac:(vm_compute; reflexivity)).
Defined.

(** X21. [shareItinerary] reads and writes nothing but one [findById]:
    the cache is as it was, in both copies of the handler.  It answers
    with 200 only to the owner of the itinerary it found, and the
    [shareableId] of the answer is the id of that itinerary, which is
    also the last segment of [shareUrl]. *)
Theorem X21_share_is_read_only {C D Doc : Type} {model : ItineraryModel D Doc}
    {paths : ItineraryPaths Doc} (req : ShareController.ShareRequest) (w : world C D)
    (payload : value) :
  let quiet (h : ShareController.ShareRequest -> world C D -> response * world C D) :=
    redis (snd (h req w)) = redis w
    /\ db (snd (h req w)) = snd (findById (db w) (ShareController.share_id req)) in
  let owner_only (h : ShareController.ShareRequest -> world C D -> response * world C D) :=
    fst (h req w) = Json 200 payload ->
    exists itinerary fields,
      fst (findById (db w) (ShareController.share_id req)) = Returned (Some itinerary)
      /\ userId_toString itinerary = Returned (hex (ShareController.share_user_id req))
      /\ payload = VObj fields
      /\ JS.Get fields "shareableId" = VStr (hex (doc_id itinerary))
      /\ JS.Get fields "shareUrl"
         = VStr (ShareController.share_protocol req ++ "://"
                 ++ JS.ToString (ShareController.share_host req)
                 ++ "/api/itineraries/share/" ++ hex (doc_id itinerary)) in
  (quiet ShareController.shareItinerary /\ owner_only ShareController.shareItinerary)
  /\ (quiet ShareController.shareItinerary_part_000
      /\ owner_only ShareController.shareItinerary_part_000).
Proof.
  intros quiet owner_only. subst quiet owner_only. cbv beta.
  unfold ShareController.shareItinerary, ShareController.shareItinerary_part_000,
    ShareController.shareUrl, handler, hbind, query, eval, respond.
  destruct w as [st d]. cbn [redis db].
  destruct (findById d (ShareController.share_id req)) as [[[found|]|e] d1]; cbn;
    try (repeat split; discriminate).
  destruct (userId_toString found) as [owner|e] eqn:Eo; cbn;
    try (repeat split; discriminate).
  destruct (String.eqb owner (hex (ShareController.share_user_id req))) eqn:E; cbn;
    try (repeat split; discriminate).
  apply String.eqb_eq in E. subst owner.
  repeat split; intros H; injection H as <-; exists found; eexists;
    (split; [reflexivity|]); (split; [exact Eo|]); repeat split.
Qed.

Lemma X21_share_is_read_only_witness :
  exists itinerary fields,
    fst (findById (db Sample.world0) (ShareController.share_id Cases.share))
    = Returned (Some itinerary)
    /\ userId_toString itinerary = Returned (hex (ShareController.share_user_id Cases.share))
    /\ Cases.share_answer = VObj fields
    /\ JS.Get fields "shareableId" = VStr (hex (doc_id itinerary))
    /\ JS.Get fields "shareUrl"
       = VStr (ShareController.share_protocol Cases.share ++ "://"
               ++ JS.ToString (ShareController.share_host Cases.share)
               ++ "/api/itineraries/share/" ++ hex (doc_id itinerary)).
Proof.
  exact (proj2 (proj1 (X21_share_is_read_only Cases.share Sample.world0 Cases.share_answer))
           eq_refl).
Defined.

(** X22. [getSharedItinerary] answers from the plain document alone: it
    leaves the cache as it is and asks who the user is nowhere.  For a
    document that is found the answer has ten fields; its [duration] is
    the virtual [duration] of the model for the two dates of the
    document, and [createdBy] is the name of the user, or [Unknown]
    when the user is [null]. *)
Theorem X22_shared_answer {C D : Type} {shared : SharedModel D}
    (req : ShareController.ShareRequest) (w : world C D) :
  redis (snd (ShareController.getSharedItinerary req w)) = redis w
  /\ db (snd (ShareController.getSharedItinerary req w))
     = snd (findById_populate_lean (db w) (ShareController.share_id req))
  /\ match fst (findById_populate_lean (db w) (ShareController.share_id req)) with
     | Returned (Some itinerary) =>
         exists fields,
           fst (ShareController.getSharedItinerary req w)
           = Json 200 (VObj [("success", VBool true); ("itinerary", VObj fields)])
           /\ List.map fst fields
              = ["_id"; "title"; "destination"; "startDate"; "endDate"; "activities";
                 "createdAt"; "updatedAt"; "duration"; "createdBy"]
           /\ JS.Get fields "duration"
              = JS.Number_toJSON
                  (Itinerary.duration
                     (ShareController.is_date (lean_startDate itinerary))
                     (ShareController.is_date (lean_endDate itinerary)))
           /\ JS.Get fields "createdBy"
              = match lean_userId itinerary with
                | Some user => JS.Get user "name"
                | None => VStr "Unknown"
                end
     | Returned None =>
         fst (ShareController.getSharedItinerary req w)
         = failure 404 "Shared itinerary not found"
     | Thrown e => fst (ShareController.getSharedItinerary req w) = Next e
     end.
Proof.
  unfold ShareController.getSharedItinerary, handler, hbind, query, respond.
  destruct w as [st d]. cbn [redis db].
  destruct (findById_populate_lean d (ShareController.share_id req)) as [[[x|]|e] d1];
    cbn [fst snd redis db]; repeat split.
  eexists. split; [reflexivity|]. repeat split.
Qed.

(** X23. The date rule of [validateItinerary] lets an end date pass
    only if it is after the start date, when both are valid dates; the
    virtual [duration] of such an itinerary is at least 2.  A date that
    is invalid passes the rule on either side. *)
Theorem X23_validated_dates (s e : Z) (x : Itinerary.Date) :
  (Validation.endDate_custom (Itinerary.Time e) (Itinerary.Time s) = Returned true ->
   s < e
   /\ exists n, Itinerary.duration (Some (Itinerary.Time s)) (Some (Itinerary.Time e)) = Num n
                /\ 2 <= n)
  /\ (Validation.endDate_custom (Itinerary.Time e) (Itinerary.Time s) = Returned true
      <-> s < e)
  /\ Validation.endDate_custom Itinerary.Invalid x = Returned true
  /\ Validation.endDate_custom x Itinerary.Invalid = Returned true.
Proof.
  unfold Validation.endDate_custom, Validation.le. cbn [Itinerary.valueOf].
  assert (Hiff : (if e <=? s then Thrown "End date must be after start date"
                  else Returned true) = Returned true <-> s < e).
  { destruct (e <=? s) eqn:E.
    - apply Z.leb_le in E. split; [discriminate|lia].
    - apply Z.leb_gt in E. split; auto. }
  split; [|split; [exact Hiff|split; destruct x; reflexivity]].
  intros H. apply Hiff in H. split; [exact H|].
  unfold Itinerary.duration, Itinerary.minus, Itinerary.valueOf, Math.abs, Math.ceil_div,
    Math.add.
  change (1000 * 60 * 60 * 24) with 86400000.
  change (86400000 =? 0) with false. cbv iota.
  eexists. split; [reflexivity|].
  pose proof (Z.div_mod (- Z.abs (e - s)) 86400000 ltac:(lia)) as Hdm.
  pose proof (Z.mod_pos_bound (- Z.abs (e - s)) 86400000 ltac:(lia)) as Hm.
  lia.
Qed.

Lemma X23_validated_dates_witness :
  1717200000000 < 1717718400000
  /\ exists n,
       Itinerary.duration (Some (Itinerary.Time 1717200000000))
         (Some (Itinerary.Time 1717718400000)) = Num n
       /\ 2 <= n.
Proof.
  exact (proj1 (X23_validated_dates 1717200000000 1717718400000 Itinerary.Invalid) eq_refl).
Defined.

(** X24. Only the owner mutates.  When the itinerary of the request
    exists and [itinerary.userId.toString()] is not the id of the user of
    the request, [updateItinerary] and [deleteItinerary] answer 403, ask
    the collection nothing after the [findById], and leave the cache as
    it is: no update, no delete, no invalidation. *)
Theorem X24_only_the_owner_mutates {C D Doc : Type} {client : RedisClient C}
    {model : ItineraryModel D Doc} (req : Request) (w : world C D) (found : Doc) (d1 : D)
    (owner : string) :
  findById (db w) (params_id req) = (Returned (Some found), d1) ->
  userId_toString found = Returned owner ->
  owner <> hex (user_id req) ->
  updateItinerary req w
  = (failure 403 "Not authorized to update this itinerary", World (redis w) d1)
  /\ deleteItinerary req w
     = (failure 403 "Not authorized to delete this itinerary", World (redis w) d1).
Proof.
  intros Hfind Howner Hne. apply String.eqb_neq in Hne.
  unfold updateItinerary, deleteItinerary, handler, hbind, query, eval, respond.
  rewrite Hfind, Howner, Hne. split; reflexivity.
Qed.

Lemma X24_only_the_owner_mutates_witness :
  updateItinerary Cases.intrude Sample.world0
  = (failure 403 "Not authorized to update this itinerary",
     World (redis Sample.world0) Cases.library_asked)
  /\ deleteItinerary Cases.intrude Sample.world0
     = (failure 403 "Not authorized to delete this itinerary",
        World (redis Sample.world0) Cases.library_asked).
Proof.
  exact (X24_only_the_owner_mutates Cases.intrude Sample.world0 Cases.found_trip
           Cases.library_asked (hex Sample.alice) eq_refl eq_refl
           ltac:(vm_compute; discriminate)).
Defined.

(** X25. The module the tests mock is the module with no client: on a
    state whose [redisClient] is [null], each of the fifteen cache
    functions of [src/config/redis.js], and [closeRedis], returns what
    its mock of [src/tests/setup.js] returns and leaves the state as the
    mock does, untouched.  ([connectRedis] is the exception: the mock
    returns [null] and creates no client.) *)
Theorem X25_mock_is_the_module_without_client {C : Type} {client : RedisClient C}
    (log : list string) :
  let st := Redis.State (None : option C) log in
  (forall userId userData,
     Redis.cacheUser userId userData st = MockedRedis.cacheUser userId userData st)
  /\ (forall userId, Redis.getCachedUser userId st = MockedRedis.getCachedUser userId st)
  /\ (forall userId,
        Redis.invalidateUserCache userId st = MockedRedis.invalidateUserCache userId st)
  /\ (forall itineraryId itineraryData,
        Redis.cacheItinerary itineraryId itineraryData st
        = MockedRedis.cacheItinerary itineraryId itineraryData st)
  /\ (forall itineraryId,
        Redis.getCachedItinerary itineraryId st
        = MockedRedis.getCachedItinerary itineraryId st)
  /\ (forall itineraryId,
        Redis.invalidateItineraryCache itineraryId st
        = MockedRedis.invalidateItineraryCache itineraryId st)
  /\ (forall userId filters data,
        Redis.cacheItineraryList userId filters data st
        = MockedRedis.cacheItineraryList userId filters data st)
  /\ (forall userId filters,
        Redis.getCachedItineraryList userId filters st
        = MockedRedis.getCachedItineraryList userId filters st)
  /\ (forall userId,
        Redis.invalidateUserItineraryCaches userId st
        = MockedRedis.invalidateUserItineraryCaches userId st)
  /\ (forall filters data,
        Redis.cachePublicItineraries filters data st
        = MockedRedis.cachePublicItineraries filters data st)
  /\ (forall filters,
        Redis.getCachedPublicItineraries filters st
        = MockedRedis.getCachedPublicItineraries filters st)
  /\ Redis.invalidatePublicItineraryCaches st = MockedRedis.invalidatePublicItineraryCaches st
  /\ (forall key data ttl, Redis.cache key data ttl st = MockedRedis.cache key data ttl st)
  /\ (forall key, Redis.getCache key st = MockedRedis.getCache key st)
  /\ (forall key, Redis.deleteCache key st = MockedRedis.deleteCache key st)
  /\ Redis.closeRedis st = MockedRedis.closeRedis st.
Proof. intros st. subst st. repeat split. Qed.

(** X26. What a list request does to the cache.  Whatever the collection
    answers, [getItineraries] leaves every key but its own as it was,
    and its own key either as it was or holding a text for 600 seconds;
    it sends the server nothing, or one [GET] of its key, or that [GET]
    and one [SETEX] of the key.  The same holds for
    [getPublicItineraries], with 300 seconds.  A list request deletes
    nothing. *)
Theorem X26_list_request_footprint {D R : Type} {model : ListModel D R}
    (req : ListRequest) (c : MemRedis.t) (log : list string) (d : D) :
  let w := World (Redis.State (Some c) log) d in
  let footprint (h : ListRequest -> world MemRedis.t D -> response * world MemRedis.t D)
      (key : option string) (ttl : Z) :=
    exists key0 c' log',
      key = Some key0
      /\ redis (snd (h req w)) = Redis.State (Some c') log'
      /\ (forall k, k <> key0 -> MemRedis.store c' !! k = MemRedis.store c !! k)
      /\ (MemRedis.store c' !! key0 = MemRedis.store c !! key0
          \/ exists text, MemRedis.store c' !! key0 = Some (text, ttl))
      /\ (MemRedis.commands c' = MemRedis.commands c
          \/ MemRedis.commands c' = (MemRedis.commands c ++ [MemRedis.GET key0])%list
          \/ exists text,
               MemRedis.commands c'
               = ((MemRedis.commands c ++ [MemRedis.GET key0])
                  ++ [MemRedis.SETEX key0 ttl text])%list) in
  footprint getItineraries
    (list_key (hex (req_user_id req)) (cacheKey (req_query req))) 600
  /\ footprint getPublicItineraries (public_list_key (public_cacheKey (req_query req))) 300.
Proof.
  intros w footprint. subst w footprint. cbv beta. split.
  - destruct (cacheKey_has_key (hex (req_user_id req)) (req_query req)) as [key Hkey].
    exists key. rewrite Hkey.
    destruct (getItineraries req _) as [r w'] eqn:E. cbn [snd].
    unfold getItineraries, handler, hbind in E.
    destruct (filters_run (C:=MemRedis.t) (Some (req_user_id req)) (req_query req))
      as [[f Hf]|[e He]]; [rewrite Hf in E|rewrite He in E].
    2:{ injection E as <- <-. eexists _, _. repeat split; auto. }
    destruct (getCachedItineraryList_reads _ _ key c log Hkey) as [log' Hget].
    unfold cached at 1 in E. cbn [redis db] in E. rewrite Hget in E.
    destruct (JS.truthy (read_of (MemRedis.store c !! key))).
    { unfold respond in E. injection E as <- <-. eexists _, _. repeat split; auto. }
    unfold eval in E. destruct (sortObj (req_query req)) as [s|e].
    2:{ injection E as <- <-. eexists _, _. repeat split; auto. }
    unfold query at 1 in E. cbn [db redis] in E.
    destruct (find_lean d f _ _ _ _) as [[its|e] d1].
    2:{ injection E as <- <-. eexists _, _. repeat split; auto. }
    unfold query at 1 in E. cbn [db redis] in E.
    destruct (countDocuments d1 f) as [[total|e] d2].
    2:{ injection E as <- <-. eexists _, _. repeat split; auto. }
    unfold cached at 1 in E. cbn [db redis] in E.
    destruct (JSON.stringify (result (req_query req) its total)) as [td|] eqn:Htd;
      [|discriminate Htd].
    rewrite (cacheItineraryList_writes _ _ _ key td _ _ Hkey Htd) in E.
    unfold respond in E. injection E as <- <-. eexists _, _. cbn [MemRedis.store MemRedis.commands redis].
    split; [reflexivity|]. split; [reflexivity|]. split.
    { intros k Hk. apply lookup_insert_ne. congruence. }
    split; [right; exists td; apply lookup_insert_eq|].
    right. right. exists td. reflexivity.
  - destruct (public_cacheKey_has_key (req_query req)) as [key Hkey].
    exists key. rewrite Hkey.
    destruct (getPublicItineraries req _) as [r w'] eqn:E. cbn [snd].
    unfold getPublicItineraries, handler, hbind in E.
    destruct (filters_run (C:=MemRedis.t) None (req_query req))
      as [[f Hf]|[e He]]; [rewrite Hf in E|rewrite He in E].
    2:{ injection E as <- <-. eexists _, _. repeat split; auto. }
    destruct (getCachedPublicItineraries_reads _ key c log Hkey) as [log' Hget].
    unfold cached at 1 in E. cbn [redis db] in E. rewrite Hget in E.
    destruct (JS.truthy (read_of (MemRedis.store c !! key))).
    { unfold respond in E. injection E as <- <-. eexists _, _. repeat split; auto. }
    unfold eval in E. destruct (sortObj (req_query req)) as [s|e].
    2:{ injection E as <- <-. eexists _, _. repeat split; auto. }
    unfold query at 1 in E. cbn [db redis] in E.
    destruct (find_lean d f _ _ _ _) as [[its|e] d1].
    2:{ injection E as <- <-. eexists _, _. repeat split; auto. }
    unfold query at 1 in E. cbn [db redis] in E.
    destruct (countDocuments d1 f) as [[total|e] d2].
    2:{ injection E as <- <-. eexists _, _. repeat split; auto. }
    unfold cached at 1 in E. cbn [db redis] in E.
    destruct (JSON.stringify (result (req_query req) its total)) as [td|] eqn:Htd;
      [|discriminate Htd].
    rewrite (cachePublicItineraries_writes _ _ key td _ _ Hkey Htd) in E.
    unfold respond in E. injection E as <- <-. eexists _, _. cbn [MemRedis.store MemRedis.commands redis].
    split; [reflexivity|]. split; [reflexivity|]. split.
    { intros k Hk. apply lookup_insert_ne. congruence. }
    split; [right; exists td; apply lookup_insert_eq|].
    right. right. exists td. reflexivity.
Qed.

End Extras.
